(** * create-book-generator: a shallow embedding of the book import/export
      utilities, the Gemini generation client, the AI generation pipeline and
      the bookshelf handlers of the application, with the properties of the
      specification settled against them.

    Strings are byte strings holding UTF-8.  JavaScript values are modelled by
    the inductive type [value]; exceptions and rejected promises by the
    [Result] type; everything the browser or the remote service decides (the
    clock, the random generator, the local storage, the replies of the
    generative models) is an operation of an abstract [Platform] acting on an
    abstract world state. *)

From Stdlib Require Import QArith Ascii String Sorted.
From stdpp Require Import base decidable option list strings pretty.

Local Open Scope string_scope.


(* ===================================================================== *)
(** ** JavaScript values *)
(* ===================================================================== *)

(** A JavaScript number: a finite value (carried as a rational; no arithmetic
    is ever performed on it by the modelled code), or one of the non-finite
    values.  Negative zero is identified with zero. *)
Inductive number :=
| Finite (q : Q)
| NaN
| PosInfinity
| NegInfinity.

#[warnings="-register-all"]
Inductive value :=
| VUndefined
| VNull
| VBool (b : bool)
| VNum (n : number)
| VStr (s : string)
| VArr (elems : list value)
| VObj (fields : list (string * value)).

Definition is_finite (n : number) : bool :=
  match n with Finite _ => true | _ => false end.

Definition number_is_zero (n : number) : bool :=
  match n with Finite q => Qeq_bool q 0%Q | _ => false end.

(** [!!v] of JavaScript: every value but undefined, null, false, 0, NaN and
    the empty string is truthy. *)
Definition truthy (v : value) : bool :=
  match v with
  | VUndefined | VNull => false
  | VBool b => b
  | VNum NaN => false
  | VNum n => negb (number_is_zero n)
  | VStr s => negb (String.eqb s "")
  | VArr _ | VObj _ => true
  end.

Inductive TypeTag :=
| t_undefined | t_object | t_boolean | t_number | t_string.

Definition TypeTag_eqb (a b : TypeTag) : bool :=
  match a, b with
  | t_undefined, t_undefined | t_object, t_object | t_boolean, t_boolean
  | t_number, t_number | t_string, t_string => true
  | _, _ => false
  end.

(** The [typeof] operator (null is an object, as in the language). *)
Definition typeof (v : value) : TypeTag :=
  match v with
  | VUndefined => t_undefined
  | VNull => t_object
  | VBool _ => t_boolean
  | VNum _ => t_number
  | VStr _ => t_string
  | VArr _ | VObj _ => t_object
  end.

Definition Array_isArray (v : value) : bool :=
  match v with VArr _ => true | _ => false end.

Definition is_undefined (v : value) : bool :=
  match v with VUndefined => true | _ => false end.

Definition array_elems (v : value) : list value :=
  match v with VArr l => l | _ => [] end.

(** Own property lookup in a field list (first binding). *)
Fixpoint assoc (k : string) (fs : list (string * value)) : option value :=
  match fs with
  | [] => None
  | (k', v) :: r => if String.eqb k k' then Some v else assoc k r
  end.

(** The array index a property key denotes, if it denotes one: the key is
    the canonical decimal string of an integer from 0 to 2^32 - 2 (digits
    only, no leading zero). *)
Definition is_digit (c : ascii) : bool :=
  Nat.leb 48 (nat_of_ascii c) && Nat.leb (nat_of_ascii c) 57.

Fixpoint digits_value (acc : N) (s : string) : option N :=
  match s with
  | EmptyString => Some acc
  | String c r =>
      if is_digit c
      then digits_value (acc * 10 + N.of_nat (nat_of_ascii c - 48))%N r
      else None
  end.

Definition array_index (k : string) : option N :=
  match k with
  | EmptyString => None
  | String c r =>
      if Ascii.eqb c "0"%char && negb (String.eqb r EmptyString) then None
      else
        match digits_value 0%N k with
        | Some n => if N.leb n 4294967294%N then Some n else None
        | None => None
        end
  end.

(** The value of an existing key replaced, the key keeping its position. *)
Fixpoint assoc_replace (k : string) (x : value) (fs : list (string * value))
  : list (string * value) :=
  match fs with
  | [] => []
  | (k', v) :: r =>
      if String.eqb k k' then (k', x) :: r else (k', v) :: assoc_replace k x r
  end.

(** A new array-index key put in its place: after the smaller array-index
    keys, before all other keys. *)
Fixpoint insert_index (n : N) (k : string) (x : value)
    (fs : list (string * value)) : list (string * value) :=
  match fs with
  | [] => [(k, x)]
  | (k', v) :: r =>
      match array_index k' with
      | Some m => if N.ltb m n then (k', v) :: insert_index n k x r
                  else (k, x) :: fs
      | None => (k, x) :: fs
      end
  end.

(** Property write, on a field list in the order in which a JavaScript
    object enumerates its keys (array-index keys first, in ascending order,
    then the other keys in the order of their creation): an existing key
    keeps its position, a new array-index key goes among the array-index
    keys, any other new key is added at the end. *)
Definition assoc_set (k : string) (x : value) (fs : list (string * value))
  : list (string * value) :=
  match assoc k fs with
  | Some _ => assoc_replace k x fs
  | None =>
      match array_index k with
      | Some n => insert_index n k x fs
      | None => (fs ++ [(k, x)])%list
      end
  end.

(** Strict equality restricted to what a [Set] of ids needs (SameValueZero):
    primitives compare by value; two objects or arrays are never the same
    reference here, the looked-up key being a freshly read primitive. *)
Definition SameValueZero (a b : value) : bool :=
  match a, b with
  | VUndefined, VUndefined => true
  | VNull, VNull => true
  | VBool x, VBool y => Bool.eqb x y
  | VNum (Finite x), VNum (Finite y) => Qeq_bool x y
  | VNum NaN, VNum NaN => true
  | VNum PosInfinity, VNum PosInfinity => true
  | VNum NegInfinity, VNum NegInfinity => true
  | VStr x, VStr y => String.eqb x y
  | _, _ => false
  end.

(** [new Set(xs).has(v)]. *)
Definition Set_has (xs : list value) (v : value) : bool :=
  existsb (fun x => SameValueZero x v) xs.

(* ===================================================================== *)
(** ** Exceptions and the effect monad *)
(* ===================================================================== *)

(** What a [throw] or a rejected promise carries. *)
Inductive Thrown :=
| Error (message : string)        (* [new Error(message)] *)
| TypeError (message : string)    (* raised by the engine: property of null *)
| SyntaxError (message : string)  (* raised by [JSON.parse] *)
| NonError.                       (* a thrown value that is not an [Error] *)

(** [err instanceof Error ? err.message : fallback]. *)
Definition message_or (e : Thrown) (fallback : string) : string :=
  match e with
  | Error m | TypeError m | SyntaxError m => m
  | NonError => fallback
  end.

Inductive Result (A : Type) :=
| Ok (a : A)
| Throw (e : Thrown).
Arguments Ok {A} a.
Arguments Throw {A} e.

(** Computations over a state [S] that may throw. *)
Definition M (S A : Type) : Type := S -> Result A * S.

Definition ret {S A} (a : A) : M S A := fun s => (Ok a, s).

Definition throw {S A} (e : Thrown) : M S A := fun s => (Throw e, s).

Definition bind {S A B} (m : M S A) (k : A -> M S B) : M S B :=
  fun s => match m s with
           | (Ok a, s') => k a s'
           | (Throw e, s') => (Throw e, s')
           end.

(** [try { m } catch (e) { h e }]. *)
Definition try_catch {S A} (m : M S A) (h : Thrown -> M S A) : M S A :=
  fun s => match m s with
           | (Ok a, s') => (Ok a, s')
           | (Throw e, s') => h e s'
           end.

Definition of_result {S A} (r : Result A) : M S A := fun s => (r, s).

Notation "'let*' x ':=' m 'in' k" := (bind m (fun x => k))
  (at level 10, x pattern, m at level 100, k at level 200).

Fixpoint mapM {S A B} (f : A -> M S B) (l : list A) : M S (list B) :=
  match l with
  | [] => ret []
  | x :: r => let* y := f x in let* ys := mapM f r in ret (y :: ys)
  end.

(** Property read [v.k] for a key that is not a built-in property of arrays,
    strings or numbers: reading from undefined or null throws. *)
Definition getprop (v : value) (k : string) : Result value :=
  match v with
  | VUndefined =>
      Throw (TypeError ("Cannot read properties of undefined (reading '"
                        +:+ k +:+ "')"))
  | VNull =>
      Throw (TypeError ("Cannot read properties of null (reading '"
                        +:+ k +:+ "')"))
  | VObj fs => Ok (default VUndefined (assoc k fs))
  | _ => Ok VUndefined
  end.

Definition get {S} (v : value) (k : string) : M S value :=
  of_result (getprop v k).

(* ===================================================================== *)
(** ** JSON *)
(* ===================================================================== *)

(** [JSON.parse(JSON.stringify(v))] for a value [v] that is not undefined at
    top level: a property holding undefined is dropped, an undefined array
    element and a non-finite number become null, everything else comes back
    as it was. *)
Fixpoint JSON_parse_stringify (v : value) : value :=
  match v with
  | VUndefined => VUndefined
  | VNull => VNull
  | VBool b => VBool b
  | VNum n => if is_finite n then VNum n else VNull
  | VStr s => VStr s
  | VArr l =>
      VArr (List.map (fun x => match x with
                               | VUndefined => VNull
                               | _ => JSON_parse_stringify x
                               end) l)
  | VObj fs =>
      VObj ((fix props (fs : list (string * value)) :=
               match fs with
               | [] => []
               | (k, x) :: r =>
                   match x with
                   | VUndefined => props r
                   | _ => (k, JSON_parse_stringify x) :: props r
                   end
               end) fs)
  end.

(* ===================================================================== *)
(** ** The data model (types.ts) *)
(* ===================================================================== *)

(** Modelled from the spec: the type declarations of [types.ts] (StoryPage,
    CoverData, Book), which are imported by every source file but are not
    among them; the fields and their types are those of the data model of the
    specification and of the object literals of [App.tsx]. *)
Record StoryPage := {
  page_id : string;
  page_image : option string;
  page_imageScale : number;
  page_text : string
}.

Record CoverData := {
  cover_image : option string;
  cover_imageScale : number
}.

Record Book := {
  id : string;
  title : string;
  coverData : CoverData;
  pages : list StoryPage;
  createdAt : number;
  updatedAt : number
}.

(** The JavaScript objects these records stand for, with the key order of the
    object literals that build them. *)
Definition image_to_value (i : option string) : value :=
  match i with Some s => VStr s | None => VNull end.

Definition StoryPage_to_value (p : StoryPage) : value :=
  VObj [("id", VStr (page_id p)); ("image", image_to_value (page_image p));
        ("imageScale", VNum (page_imageScale p)); ("text", VStr (page_text p))].

Definition CoverData_to_value (c : CoverData) : value :=
  VObj [("image", image_to_value (cover_image c));
        ("imageScale", VNum (cover_imageScale c))].

Definition Book_to_value (b : Book) : value :=
  VObj [("id", VStr (id b)); ("title", VStr (title b));
        ("coverData", CoverData_to_value (coverData b));
        ("pages", VArr (List.map StoryPage_to_value (pages b)));
        ("createdAt", VNum (createdAt b)); ("updatedAt", VNum (updatedAt b))].

(** A book of the data model: its timestamps and image scales are finite
    numbers. *)
Definition valid_page (p : StoryPage) : bool := is_finite (page_imageScale p).

Definition valid_Book (b : Book) : bool :=
  is_finite (cover_imageScale (coverData b)) &&
  forallb valid_page (pages b) &&
  is_finite (createdAt b) && is_finite (updatedAt b).

(* ===================================================================== *)
(** ** The platform *)
(* ===================================================================== *)

(** What is sent to [GenerativeModel.generateContent]: a text prompt, or an
    inline image followed by a text part. *)
Inductive Request :=
| TextRequest (prompt : string)
| ImageRequest (mimeType data text : string).

Record ImageConfig := {
  aspectRatio : string;
  imageSize : string
}.

(** The argument of [ai.models.generateContent] as [generateImage] builds it. *)
Record ModelConfig := {
  model : string;
  contents : string;
  responseModalities : list string;
  imageConfig : option ImageConfig
}.

(** The part of a [GenerateContentResponse] that [generateImage] reads; every
    level is optional, as in the SDK. *)
Record InlineData := {
  data : option string;
  mimeType : option string
}.

Record Part := { inlineData : option InlineData }.

Record Content := { parts : option (list Part) }.

Record Candidate := { content : option Content }.

Record GenerateContentResponse := { candidates : option (list Candidate) }.

(** The operations of the browser and of the Gemini SDKs, over a world [W]. *)
Record Platform (W : Type) := {
  (** [Date.now()], in milliseconds. *)
  Date_now : W -> Z * W;
  (** [Math.random().toString(36).slice(2)]. *)
  Math_random_toString36_slice2 : W -> string * W;
  (** [localStorage.setItem(key, JSON.stringify(v))]. *)
  localStorage_setItem : string -> value -> M W unit;
  (** [console.error(label, ...)]. *)
  console_error : string -> W -> W;
  (** [(await genAI.getGenerativeModel({model}).generateContent(req)).response.text()]
      for a client built from an API key. *)
  GenerativeModel_generateContent : string -> string -> Request -> M W string;
  (** [await new GoogleGenAI({apiKey}).models.generateContent(config)]. *)
  GoogleGenAI_models_generateContent :
    string -> ModelConfig -> M W GenerateContentResponse
}.
Arguments Date_now {W} _ _.
Arguments Math_random_toString36_slice2 {W} _ _.
Arguments localStorage_setItem {W} _ _ _ _.
Arguments console_error {W} _ _ _.
Arguments GenerativeModel_generateContent {W} _ _ _ _ _.
Arguments GoogleGenAI_models_generateContent {W} _ _ _ _.

(** A file picked by the user, by what reading and parsing it gives. *)
Inductive Text :=
| NotJSON (message : string)   (* [JSON.parse] rejects the text *)
| JSONText (doc : value).      (* the text denotes the JSON document [doc] *)

Inductive File :=
| FileUnreadable               (* the FileReader reports an error *)
| FileOf (text : Text).

Inductive ImportMode := replace | merge.

Record BookshelfImport := {
  bi_books : list value;
  importedCount : nat
}.

Record SingleBookImport := {
  si_books : list value;
  importedBook : value
}.

(** A download handed to the browser: the file name and the document the
    written JSON text denotes. *)
Record Download := {
  filename : string;
  json : value
}.

(* ===================================================================== *)
(** ** utils/bookExport.ts *)
(* ===================================================================== *)

Definition EXPORT_VERSION : string := "1.0".

Definition string_map (f : ascii -> ascii) : string -> string :=
  fix go (s : string) : string :=
    match s with
    | EmptyString => EmptyString
    | String c r => String (f c) (go r)
    end.

(** The characters a file name cannot hold: slash, backslash, question mark,
    percent, star, colon, bar, double quote, less-than and greater-than. *)
Definition unsafe_filename_char (c : ascii) : bool :=
  existsb (Ascii.eqb c)
    ["/"%char; "\"%char; "?"%char; "%"%char; "*"%char; ":"%char; "|"%char;
     Ascii.ascii_of_nat 34; "<"%char; ">"%char].

(** [v.k] for a value [v] known to be a (truthy) object or array. *)
Definition prop (v : value) (k : string) : value :=
  match getprop v k with Ok x => x | Throw _ => VUndefined end.

Definition validateBook (book : value) : bool :=
  if negb (truthy book) || negb (TypeTag_eqb (typeof book) t_object) then false
  else
    TypeTag_eqb (typeof (prop book "id")) t_string &&
    TypeTag_eqb (typeof (prop book "title")) t_string &&
    negb (is_undefined (prop book "coverData")) &&
    Array_isArray (prop book "pages") &&
    TypeTag_eqb (typeof (prop book "createdAt")) t_number &&
    TypeTag_eqb (typeof (prop book "updatedAt")) t_number.

(** The own enumerable properties an object spread [{...v}] copies. *)
Definition own_props (v : value) : list (string * value) :=
  match v with
  | VObj fs => fs
  | VArr l => imap (fun i x => (pretty i, x)) l
  | VStr s => imap (fun i c => (pretty i, VStr (String c EmptyString)))
                   (list_ascii_of_string s)
  | _ => []
  end.

(** [{ ...v, k1: x1, ..., kn: xn }]. *)
Definition spread_with (v : value) (updates : list (string * value)) : value :=
  VObj (fold_left (fun fs kx => assoc_set (fst kx) (snd kx) fs) updates
                  (own_props v)).

(** [{ ...book, id: newId }]. *)
Definition spread_with_id (book : value) (newId : string) : value :=
  spread_with book [("id", VStr newId)].

Section BookExport.
Context {W : Type} (P : Platform W).

Definition readFileAsText (file : File) : M W Text :=
  match file with
  | FileUnreadable => throw (Error "ファイルの読み込みに失敗しました")
  | FileOf text => ret text
  end.

Definition JSON_parse (text : Text) : M W value :=
  match text with
  | NotJSON m => throw (SyntaxError m)
  | JSONText doc => ret doc
  end.

(** [Date.now().toString() + Math.random().toString(36).slice(2)]. *)
Definition newId : M W string :=
  fun w =>
    let '(now, w1) := Date_now P w in
    let '(suffix, w2) := Math_random_toString36_slice2 P w1 in
    (Ok (pretty now +:+ suffix), w2).

Definition downloadSingleBook (book : Book) : M W Download :=
  fun w =>
    let '(now, w1) := Date_now P w in
    let exportData :=
      VObj [("version", VStr EXPORT_VERSION);
            ("exportedAt", VNum (Finite (inject_Z now)));
            ("book", Book_to_value book)] in
    let safeTitle :=
      string_map (fun c => if unsafe_filename_char c then "-"%char else c)
        (if String.eqb (title book) "" then "無題の本" else title book) in
    (Ok {| filename := safeTitle +:+ ".json";
           json := JSON_parse_stringify exportData |}, w1).

(** What picking a downloaded file for an import gives back. *)
Definition file_of_download (d : Download) : File :=
  FileOf (JSONText (json d)).

Definition uploadBookshelf (file : File) (existingBooks : list value)
    (mode : ImportMode) : M W BookshelfImport :=
  let* text := readFileAsText file in
  let* data := JSON_parse text in
  let* books := get data "books" in
  if negb (truthy books) || negb (Array_isArray books) then
    throw (Error "本棚データの形式が正しくありません")
  else
    let validBooks := List.filter validateBook (array_elems books) in
    if Nat.eqb (length validBooks) 0 then
      throw (Error "有効な本のデータが見つかりませんでした")
    else
      match mode with
      | replace =>
          ret {| bi_books := validBooks;
                 importedCount := length validBooks |}
      | merge =>
          let* existingIds := mapM (fun b => get b "id") existingBooks in
          let* mergedBooks :=
            mapM (fun book =>
                    let* book_id := get book "id" in
                    if Set_has existingIds book_id then
                      let* fresh := newId in
                      ret (spread_with_id book fresh)
                    else ret book) validBooks in
          ret {| bi_books := existingBooks ++ mergedBooks;
                 importedCount := length mergedBooks |}
      end.

Definition uploadSingleBook (file : File) (existingBooks : list value)
    : M W SingleBookImport :=
  let* text := readFileAsText file in
  let* data := JSON_parse text in
  let* data_book := get data "book" in
  let* book :=
    if truthy data_book then ret data_book
    else
      let* data_books := get data "books" in
      if truthy data_books && Array_isArray data_books
         && negb (Nat.eqb (length (array_elems data_books)) 0)
      then ret (default VUndefined (head (array_elems data_books)))
      else throw (Error "本のデータが見つかりませんでした") in
  if negb (validateBook book) then
    throw (Error "本のデータ形式が正しくありません")
  else
    let* existingIds := mapM (fun b => get b "id") existingBooks in
    let* book_id := get book "id" in
    let* importedBook :=
      if Set_has existingIds book_id then
        let* fresh := newId in
        ret (spread_with_id book fresh)
      else ret book in
    ret {| si_books := importedBook :: existingBooks;
           importedBook := importedBook |}.

End BookExport.


(* ===================================================================== *)
(** ** services/geminiService.ts *)
(* ===================================================================== *)

Definition nl : string := String (Ascii.ascii_of_nat 10) EmptyString.

(** A template literal, line by line. *)
Definition lines (ls : list string) : string := String.concat nl ls.

Definition storyTextPrompt (theme : string) (pageNumber totalPages : nat)
    (previousContent : list string) : string :=
  let previousContext :=
    if Nat.ltb 0 (length previousContent) then
      nl +:+ nl +:+ "これまでのストーリー:" +:+ nl
         +:+ String.concat (nl +:+ nl) previousContent
    else "" in
  lines [
    "あなたは子供向け絵本の作家です。以下の条件で絵本のページの文章を作成してください。";
    "";
    "テーマ: " +:+ theme;
    "現在のページ: " +:+ pretty pageNumber +:+ "ページ目（全"
       +:+ pretty totalPages +:+ "ページ）";
    previousContext;
    "";
    "条件:";
    "- 子供が理解しやすいシンプルな言葉を使う";
    "- 1ページあたり2〜4文程度";
    "- " +:+ (if Nat.eqb pageNumber 1 then "物語の始まり（導入）"
              else if Nat.eqb pageNumber totalPages
                   then "物語の結末（ハッピーエンド）"
                   else "物語の展開") +:+ "を書く";
    "- 情景が目に浮かぶような描写を含める";
    "- 日本語で書く";
    "";
    "文章のみを出力してください（説明や注釈は不要）:" ].

Definition imagePromptPrompt (theme storyText : string)
    (baseImageDescriptions : list string) : string :=
  let baseContext :=
    if Nat.ltb 0 (length baseImageDescriptions) then
      nl +:+ nl +:+ "参考画像のスタイル・雰囲気: "
         +:+ String.concat ", " baseImageDescriptions
    else "" in
  lines [
    "以下のストーリーシーンに合う絵本のイラストを生成するための英語プロンプトを作成してください。";
    "";
    "テーマ: " +:+ theme;
    "ストーリーテキスト: " +:+ storyText;
    baseContext;
    "";
    "条件:";
    "- 子供向け絵本にふさわしい可愛らしいイラストスタイル";
    "- 明るく温かみのある色使い";
    "- キャラクターは愛らしくデフォルメされたデザイン";
    "- 背景も含めた完成されたイラスト";
    "- 100語以内の簡潔なプロンプト";
    "";
    "英語のプロンプトのみを出力してください（日本語や説明は不要）:" ].

(** The loop of [generateImage] over the parts of the first candidate: the
    first part that carries inline data gives the data URL. *)
Fixpoint first_inline_image (ps : list Part) : option string :=
  match ps with
  | [] => None
  | part :: rest =>
      match inlineData part with
      | Some d =>
          let imageData := default "undefined" (data d) in
          let mime :=
            match mimeType d with
            | Some m => if String.eqb m "" then "image/png" else m
            | None => "image/png"
            end in
          Some ("data:" +:+ mime +:+ ";base64," +:+ imageData)
      | None => first_inline_image rest
      end
  end.

(** [response.candidates && response.candidates[0]?.content?.parts]: the
    parts to scan, when that expression is truthy. *)
Definition first_candidate_parts (response : GenerateContentResponse)
    : option (list Part) :=
  match candidates response with
  | Some (c :: _) =>
      match content c with
      | Some ct => parts ct
      | None => None
      end
  | _ => None
  end.

(** The image the scan of [generateImage] finds in a response, if any. *)
Definition inline_image_of (response : GenerateContentResponse)
    : option string :=
  match first_candidate_parts response with
  | Some ps => first_inline_image ps
  | None => None
  end.

(** The request [generateImage] sends; the image configuration is set for
    Gemini 3 Pro Image Preview only. *)
Definition imageModelConfig (prompt modelName : string) : ModelConfig :=
  let fullPrompt :=
    "Children's book illustration, cute and colorful style: " +:+ prompt
    +:+ ". Style: watercolor, soft colors, child-friendly, storybook art, warm and gentle atmosphere." in
  {| model := modelName;
     contents := fullPrompt;
     responseModalities := ["Text"; "Image"];
     imageConfig :=
       if String.eqb modelName "gemini-3-pro-image-preview"
       then Some {| aspectRatio := "1:1"; imageSize := "1K" |}
       else None |}.

(** A line terminator, which the dot of a regular expression does not match:
    LF, CR, U+2028 and U+2029 (the last two in UTF-8). *)
Fixpoint has_line_terminator (s : string) : bool :=
  match s with
  | EmptyString => false
  | String c r =>
      let b := nat_of_ascii c in
      Nat.eqb b 10 || Nat.eqb b 13
      || String.prefix (String (ascii_of_nat 226) (String (ascii_of_nat 128)
                          (String (ascii_of_nat 168) EmptyString))) s
      || String.prefix (String (ascii_of_nat 226) (String (ascii_of_nat 128)
                          (String (ascii_of_nat 169) EmptyString))) s
      || has_line_terminator r
  end.

Definition strip_prefix (p s : string) : option string :=
  if String.prefix p s
  then Some (String.substring (String.length p)
                              (String.length s - String.length p) s)
  else None.

(** The last place where [s] splits as [a ++ ";base64," ++ b] with [acc ++ a]
    and [b] not empty: what two greedy groups around the literal select. *)
Fixpoint split_base64 (acc s : string) : option (string * string) :=
  match s with
  | EmptyString => None
  | String c r =>
      match split_base64 (acc +:+ String c EmptyString) r with
      | Some res => Some res
      | None =>
          match strip_prefix ";base64," s with
          | Some d =>
              if String.eqb acc "" || String.eqb d "" then None
              else Some (acc, d)
          | None => None
          end
      end
  end.

(** [imageData.match(/^data:(.+);base64,(.+)$/)], as the pair of groups. *)
Definition match_data_url (imageData : string) : option (string * string) :=
  match strip_prefix "data:" imageData with
  | Some rest =>
      if has_line_terminator rest then None else split_base64 "" rest
  | None => None
  end.

Section GeminiService.
Context {W : Type} (P : Platform W).

Definition generateStoryText (apiKey theme : string)
    (pageNumber totalPages : nat) (previousContent : list string)
    (modelName : string) : M W string :=
  GenerativeModel_generateContent P apiKey modelName
    (TextRequest (storyTextPrompt theme pageNumber totalPages previousContent)).

Definition generateImagePrompt (apiKey theme storyText : string)
    (baseImageDescriptions : list string) (modelName : string) : M W string :=
  GenerativeModel_generateContent P apiKey modelName
    (TextRequest (imagePromptPrompt theme storyText baseImageDescriptions)).

Definition generateImage (apiKey prompt modelName : string) : M W string :=
  let* response :=
    GoogleGenAI_models_generateContent P apiKey
      (imageModelConfig prompt modelName) in
  match inline_image_of response with
  | Some url => ret url
  | None => throw (Error "画像データが見つかりません")
  end.

Fixpoint analyzeBaseImages_loop (apiKey : string) (images : list string)
    (modelName : string) (descriptions : list string) : M W (list string) :=
  match images with
  | [] => ret descriptions
  | imageData :: rest =>
      match match_data_url imageData with
      | None => analyzeBaseImages_loop apiKey rest modelName descriptions
      | Some (mime, base64Data) =>
          let* descriptions' :=
            try_catch
              (let* text :=
                 GenerativeModel_generateContent P apiKey modelName
                   (ImageRequest mime base64Data
                      "この画像のスタイル、色使い、雰囲気を簡潔に英語で説明してください（50語以内）:") in
               ret (descriptions ++ [text])%list)
              (fun _ w =>
                 (Ok descriptions, console_error P "Image analysis failed:" w)) in
          analyzeBaseImages_loop apiKey rest modelName descriptions'
      end
  end.

Definition analyzeBaseImages (apiKey : string) (images : list string)
    (modelName : string) : M W (list string) :=
  analyzeBaseImages_loop apiKey images modelName [].

End GeminiService.

(* ===================================================================== *)
(** ** components/AIGenerator.tsx *)
(* ===================================================================== *)

Record GenerationProgress := {
  current : nat;
  total : nat;
  message : string
}.

(** What a generation run does that its surroundings can see, in order: the
    state setters of the component, the completion callback, and each call of
    the generation client with its arguments and its outcome. *)
Inductive Event :=
| setIsGenerating (b : bool)
| setError (e : option string)
| setProgress (p : GenerationProgress)
| onGenerate (title : string) (coverData : CoverData) (pages : list StoryPage)
| called_generateStoryText (pageNumber totalPages : nat)
    (previousContent : list string) (outcome : Result string)
| called_generateImagePrompt (storyText : string) (outcome : Result string)
| called_generateImage (prompt : string) (outcome : Result string).

(** The state of a run: the world, and the events so far (oldest first). *)
Record Run (W : Type) := {
  world : W;
  trace : list Event
}.
Arguments world {W} _.
Arguments trace {W} _.

(** The state of the component that [handleGenerate] reads. *)
Record AIGeneratorState := {
  theme : string;
  pageCount : nat;
  baseImages : list string;
  textModel : string;
  imageModel : string
}.

(** The snapshots [handleGenerate] passes to [setProgress]. *)
Definition preparing (s : AIGeneratorState) : GenerationProgress :=
  {| current := 0; total := pageCount s + 2; message := "準備中..." |}.

Definition analyzing (s : AIGeneratorState) : GenerationProgress :=
  {| current := 0; total := pageCount s + 2; message := "参考画像を分析中..." |}.

Definition writingStory (s : AIGeneratorState) (i : nat) : GenerationProgress :=
  {| current := i; total := pageCount s + 2;
     message := "ページ " +:+ pretty i +:+ "/" +:+ pretty (pageCount s)
                +:+ " のストーリーを生成中..." |}.

Definition drawingPage (s : AIGeneratorState) (i : nat) : GenerationProgress :=
  {| current := i; total := pageCount s + 2;
     message := "ページ " +:+ pretty i +:+ "/" +:+ pretty (pageCount s)
                +:+ " のイラストを生成中..." |}.

Definition drawingCover (s : AIGeneratorState) : GenerationProgress :=
  {| current := pageCount s + 1; total := pageCount s + 2;
     message := "表紙を生成中..." |}.

Definition completed (s : AIGeneratorState) : GenerationProgress :=
  {| current := pageCount s + 2; total := pageCount s + 2;
     message := "完了!" |}.

(** The page pushed at the end of iteration [i], at clock reading [now]. *)
Definition newPage (now : Z) (i : nat) (imageData : option string)
    (storyText : string) : StoryPage :=
  {| page_id := pretty now +:+ pretty i;
     page_image := imageData;
     page_imageScale := Finite 1;
     page_text := storyText |}.

(** The story text from which the prompt of the cover is derived. *)
Definition coverStory (s : AIGeneratorState) : string :=
  "表紙: " +:+ theme s +:+ "の物語".

Definition is_ws1 (b : nat) : bool :=
  (Nat.leb 9 b && Nat.leb b 13) || Nat.eqb b 32.

Definition is_ws2 (b1 b2 : nat) : bool :=
  Nat.eqb b1 194 && Nat.eqb b2 160.

Definition is_ws3 (b1 b2 b3 : nat) : bool :=
  (Nat.eqb b1 225 && Nat.eqb b2 154 && Nat.eqb b3 128)
  || (Nat.eqb b1 226 && Nat.eqb b2 128
      && ((Nat.leb 128 b3 && Nat.leb b3 138)
          || Nat.eqb b3 168 || Nat.eqb b3 169 || Nat.eqb b3 175))
  || (Nat.eqb b1 226 && Nat.eqb b2 129 && Nat.eqb b3 159)
  || (Nat.eqb b1 227 && Nat.eqb b2 128 && Nat.eqb b3 128)
  || (Nat.eqb b1 239 && Nat.eqb b2 187 && Nat.eqb b3 191).

(** [!s.trim()]: the string holds nothing but white space and line
    terminators (U+0009 to U+000D, U+0020, U+00A0, U+1680, U+2000 to U+200A,
    U+2028, U+2029, U+202F, U+205F, U+3000, U+FEFF, in UTF-8). *)
Fixpoint trim_is_empty (s : string) : bool :=
  match s with
  | EmptyString => true
  | String c1 r1 =>
      if is_ws1 (nat_of_ascii c1) then trim_is_empty r1
      else
        match r1 with
        | EmptyString => false
        | String c2 r2 =>
            if is_ws2 (nat_of_ascii c1) (nat_of_ascii c2) then trim_is_empty r2
            else
              match r2 with
              | EmptyString => false
              | String c3 r3 =>
                  if is_ws3 (nat_of_ascii c1) (nat_of_ascii c2)
                            (nat_of_ascii c3)
                  then trim_is_empty r3
                  else false
              end
        end
  end.

(** The state in which a run starts. *)
Definition start {W : Type} (w : W) : Run W := {| world := w; trace := [] |}.

Section AIGenerator.
Context {W : Type} (P : Platform W).

Definition emit (e : Event) : M (Run W) unit :=
  fun st => (Ok tt, {| world := world st; trace := trace st ++ [e] |}).

(** An operation on the world, run from within a generation run. *)
Definition lift {A} (m : M W A) : M (Run W) A :=
  fun st =>
    let '(r, w) := m (world st) in
    (r, {| world := w; trace := trace st |}).

(** A call of the generation client: it runs on the world, and the call is
    recorded with its outcome. *)
Definition call {A} (record : Result A -> Event) (m : M W A) : M (Run W) A :=
  fun st =>
    let '(r, w) := m (world st) in
    (r, {| world := w; trace := trace st ++ [record r] |}).

Definition log_error (label : string) : M (Run W) unit :=
  lift (fun w => (Ok tt, console_error P label w)).

Section Run.
Variable apiKey : string.
Variable s : AIGeneratorState.

(** [try { imageData = await generateImage(...) } catch { console.error }]
    of the page loop: the image, or null when the call raised. *)
Definition pageImage (imagePrompt : string) : M (Run W) (option string) :=
  try_catch
    (let* img := call (called_generateImage imagePrompt)
                   (generateImage P apiKey imagePrompt (imageModel s)) in
     ret (Some img))
    (fun _ =>
       let* _ := log_error
         "Image generation failed, continuing without image:" in
       ret None).

(** The [try] block of the cover: the prompt of the cover, then its
    image; null when either call raised. *)
Definition coverImage (baseImageDescriptions : list string)
    : M (Run W) (option string) :=
  try_catch
    (let* coverPrompt :=
       call (called_generateImagePrompt (coverStory s))
         (generateImagePrompt P apiKey (theme s) (coverStory s)
            baseImageDescriptions (textModel s)) in
     let* img := call (called_generateImage coverPrompt)
                   (generateImage P apiKey coverPrompt (imageModel s)) in
     ret (Some img))
    (fun _ =>
       let* _ := log_error "Cover generation failed" in
       ret None).

Definition Date_now_ : M (Run W) Z :=
  lift (fun w => let '(t, w') := Date_now P w in (Ok t, w')).

(** The loop [for (let i = 1; i <= pageCount; i++)]: [remaining] is the
    number of iterations still to run, [pageCount + 1 - i]. *)
Fixpoint generatePages (remaining i : nat) (pages : list StoryPage)
    (storyTexts : list string) (baseImageDescriptions : list string)
    : M (Run W) (list StoryPage) :=
  match remaining with
  | O => ret pages
  | S remaining' =>
      let* _ := emit (setProgress (writingStory s i)) in
      let* storyText :=
        call (called_generateStoryText i (pageCount s) storyTexts)
          (generateStoryText P apiKey (theme s) i (pageCount s) storyTexts
             (textModel s)) in
      let storyTexts' := (storyTexts ++ [storyText])%list in
      let* _ := emit (setProgress (drawingPage s i)) in
      let* imagePrompt :=
        call (called_generateImagePrompt storyText)
          (generateImagePrompt P apiKey (theme s) storyText
             baseImageDescriptions (textModel s)) in
      let* imageData := pageImage imagePrompt in
      let* now := Date_now_ in
      let pages' := (pages ++ [newPage now i imageData storyText])%list in
      generatePages remaining' (S i) pages' storyTexts' baseImageDescriptions
  end.

(** The body of the [try] block of [handleGenerate]. *)
Definition generateBook : M (Run W) unit :=
  let* baseImageDescriptions :=
    if Nat.ltb 0 (length (baseImages s)) then
      let* _ := emit (setProgress (analyzing s)) in
      lift (analyzeBaseImages P apiKey (baseImages s) (textModel s))
    else ret [] in
  let* pages := generatePages (pageCount s) 1 [] [] baseImageDescriptions in
  let* _ := emit (setProgress (drawingCover s)) in
  let* cover := coverImage baseImageDescriptions in
  let coverData := {| cover_image := cover;
                      cover_imageScale := Finite 1 |} in
  let* _ := emit (setProgress (completed s)) in
  let title := theme s in
  emit (onGenerate title coverData pages).

End Run.

(** [handleGenerate], given what [getApiKey()] returns. *)
Definition handleGenerate (getApiKey : option string) (s : AIGeneratorState)
    : M (Run W) unit :=
  match getApiKey with
  | None => emit (setError (Some "APIキーが設定されていません"))
  | Some apiKey =>
      if String.eqb apiKey "" then
        emit (setError (Some "APIキーが設定されていません"))
      else if trim_is_empty (theme s) then
        emit (setError (Some "テーマを入力してください"))
      else
        let* _ := emit (setIsGenerating true) in
        let* _ := emit (setError None) in
        let* _ := emit (setProgress (preparing s)) in
        let* _ :=
          try_catch (generateBook apiKey s)
            (fun err =>
               let* _ := log_error "Generation error:" in
               emit (setError
                       (Some (message_or err "AI生成中にエラーが発生しました")))) in
        emit (setIsGenerating false)
  end.

End AIGenerator.

(* ===================================================================== *)
(** ** App.tsx *)
(* ===================================================================== *)

Definition STORAGE_KEY : string := "storybook-creator-books".

Inductive AppMode := home | edit | ai_generate | view | preview.

(** The state of the application.  The books of the collection are the
    objects read from storage or from an imported file; of the book being
    edited, the state holds the title, the cover and the pages. *)
Record AppState := {
  mode : AppMode;
  books : list value;
  currentBookId : option string;
  pages_ : list value;
  title_ : string;
  coverData_ : value
}.

Definition number_of_Z (z : Z) : number := Finite (inject_Z z).

(** [title || '無題の本']. *)
Definition title_or_untitled (t : string) : string :=
  if String.eqb t "" then "無題の本" else t.

(** The object literal [{ id, title, coverData, pages, createdAt, updatedAt }]
    of a new book created at time [now]. *)
Definition newBook (now : Z) (t : string) (cover : value) (ps : list value)
    : value :=
  VObj [("id", VStr (pretty now)); ("title", VStr (title_or_untitled t));
        ("coverData", cover); ("pages", VArr ps);
        ("createdAt", VNum (number_of_Z now));
        ("updatedAt", VNum (number_of_Z now))].

Section App.
Context {W : Type} (P : Platform W).

Definition now_ : M W Z :=
  fun w => let '(t, w') := Date_now P w in (Ok t, w').

Definition saveBooks (bs : list value) : M W unit :=
  try_catch (localStorage_setItem P STORAGE_KEY (VArr bs))
    (fun _ w => (Ok tt, console_error P "Failed to save books:" w)).

(** [books.map(book => book.id === currentBookId
                        ? { ...book, title, coverData, pages, updatedAt: now }
                        : book)]. *)
Definition updateCurrent (st : AppState) (cur : string) (now : Z)
    : M W (list value) :=
  mapM (fun book =>
          let* book_id := get book "id" in
          if SameValueZero book_id (VStr cur) then
            ret (spread_with book
                   [("title", VStr (title_ st)); ("coverData", coverData_ st);
                    ("pages", VArr (pages_ st));
                    ("updatedAt", VNum (number_of_Z now))])
          else ret book) (books st).

Definition is_editing (st : AppState) : option string :=
  match currentBookId st with
  | Some cur => if String.eqb cur "" then None else Some cur
  | None => None
  end.

Definition handleSaveBook (st : AppState) : M W AppState :=
  let* now := now_ in
  match is_editing st with
  | Some cur =>
      let* updatedBooks := updateCurrent st cur now in
      let* _ := saveBooks updatedBooks in
      ret {| mode := mode st; books := updatedBooks;
             currentBookId := currentBookId st; pages_ := pages_ st;
             title_ := title_ st; coverData_ := coverData_ st |}
  | None =>
      let nb := newBook now (title_ st) (coverData_ st) (pages_ st) in
      let updatedBooks := nb :: books st in
      let* _ := saveBooks updatedBooks in
      ret {| mode := mode st; books := updatedBooks;
             currentBookId := Some (pretty now); pages_ := pages_ st;
             title_ := title_ st; coverData_ := coverData_ st |}
  end.

Definition handleAIGenerateComplete (st : AppState) (generatedTitle : string)
    (generatedCover : CoverData) (generatedPages : list StoryPage)
    : M W AppState :=
  let cover := CoverData_to_value generatedCover in
  let ps := List.map StoryPage_to_value generatedPages in
  let* now := now_ in
  let nb := newBook now generatedTitle cover ps in
  let updatedBooks := nb :: books st in
  let* _ := saveBooks updatedBooks in
  ret {| mode := edit; books := updatedBooks;
         currentBookId := Some (pretty now); pages_ := ps;
         title_ := generatedTitle; coverData_ := cover |}.

Definition handleFinish (st : AppState) : M W AppState :=
  let* now := now_ in
  match is_editing st with
  | Some cur =>
      let* updatedBooks := updateCurrent st cur now in
      let* _ := saveBooks updatedBooks in
      ret {| mode := view; books := updatedBooks;
             currentBookId := currentBookId st; pages_ := pages_ st;
             title_ := title_ st; coverData_ := coverData_ st |}
  | None =>
      if Nat.ltb 0 (length (pages_ st)) then
        let nb := newBook now (title_ st) (coverData_ st) (pages_ st) in
        let updatedBooks := nb :: books st in
        let* _ := saveBooks updatedBooks in
        ret {| mode := view; books := updatedBooks;
               currentBookId := Some (pretty now); pages_ := pages_ st;
               title_ := title_ st; coverData_ := coverData_ st |}
      else
        ret {| mode := view; books := books st;
               currentBookId := currentBookId st; pages_ := pages_ st;
               title_ := title_ st; coverData_ := coverData_ st |}
  end.

(** [handleUpdateBooks], through which the Home screen installs the result
    of an import. *)
Definition handleUpdateBooks (st : AppState) (newBooks : list value)
    : M W AppState :=
  let* _ := saveBooks newBooks in
  ret {| mode := mode st; books := newBooks;
         currentBookId := currentBookId st; pages_ := pages_ st;
         title_ := title_ st; coverData_ := coverData_ st |}.

(** The handlers of the Home screen: an import that fails leaves the
    collection as it was (the error goes to an alert). *)
Definition handleUploadBookshelf (st : AppState) (file : File)
    (confirm_replace : bool) : M W AppState :=
  try_catch
    (let* r := uploadBookshelf P file (books st)
                 (if confirm_replace then replace else merge) in
     handleUpdateBooks st (bi_books r))
    (fun _ => ret st).

Definition handleUploadSingleBook (st : AppState) (file : File)
    : M W AppState :=
  try_catch
    (let* r := uploadSingleBook P file (books st) in
     handleUpdateBooks st (si_books r))
    (fun _ => ret st).

End App.

(* ===================================================================== *)
(** ** A scripted platform, for running the code on concrete inputs *)
(* ===================================================================== *)

(** The world is the list of answers still to be given: each operation takes
    the next answer of its kind (and a default one when none is left). *)
Record Script := {
  clock : list Z;
  randoms : list string;
  texts : list (Result string);
  images : list (Result GenerateContentResponse);
  storage_full : bool;
  console : list string
}.

Definition scripted : Platform Script := {|
  Date_now := fun w =>
    (hd 0%Z (clock w),
     {| clock := tl (clock w); randoms := randoms w; texts := texts w;
        images := images w; storage_full := storage_full w;
        console := console w |});
  Math_random_toString36_slice2 := fun w =>
    (hd "" (randoms w),
     {| clock := clock w; randoms := tl (randoms w); texts := texts w;
        images := images w; storage_full := storage_full w;
        console := console w |});
  localStorage_setItem := fun _ _ w =>
    (if storage_full w then Throw (Error "QuotaExceededError") else Ok tt, w);
  console_error := fun label w =>
    {| clock := clock w; randoms := randoms w; texts := texts w;
       images := images w; storage_full := storage_full w;
       console := console w ++ [label] |};
  GenerativeModel_generateContent := fun _ _ _ w =>
    (hd (Throw (Error "no reply")) (texts w),
     {| clock := clock w; randoms := randoms w; texts := tl (texts w);
        images := images w; storage_full := storage_full w;
        console := console w |});
  GoogleGenAI_models_generateContent := fun _ _ w =>
    (hd (Throw (Error "no reply")) (images w),
     {| clock := clock w; randoms := randoms w; texts := texts w;
        images := tl (images w); storage_full := storage_full w;
        console := console w |})
|}.

Definition script (c : list Z) (r : list string) (t : list (Result string))
    (i : list (Result GenerateContentResponse)) : Script :=
  {| clock := c; randoms := r; texts := t; images := i;
     storage_full := false; console := [] |}.


(** A reply of the image model that carries one inline image. *)
Definition image_reply (mime payload : string) : GenerateContentResponse :=
  {| candidates := Some [ {| content := Some {| parts := Some
       [ {| inlineData := None |};
         {| inlineData := Some {| data := Some payload;
                                  mimeType := Some mime |} |} ] |} |} ] |}.

Definition book_x : Book :=
  {| id := "x"; title := "Momotaro";
     coverData := {| cover_image := None; cover_imageScale := Finite 1 |};
     pages := [ {| page_id := "p1";
                   page_image := Some "data:image/png;base64,AAAA";
                   page_imageScale := Finite (3 # 2); page_text := "Once" |} ];
     createdAt := number_of_Z 1700000000000;
     updatedAt := number_of_Z 1700000000500 |}.

(** A bookshelf export holding the given books. *)
Definition bookshelf_doc (bs : list value) : value :=
  VObj [("version", VStr EXPORT_VERSION);
        ("exportedAt", VNum (number_of_Z 1700000002000));
        ("books", VArr bs)].

(** A book whose id has the form of a generated id. *)
Definition book_y : Book :=
  {| id := "1700000000000i"; title := "Kaguya";
     coverData := {| cover_image := None; cover_imageScale := Finite 1 |};
     pages := [];
     createdAt := number_of_Z 1690000000000;
     updatedAt := number_of_Z 1690000000000 |}.

(** A world in which the clock reads 1700000000000 and the random suffix
    is "i" (what [Math.random()] returning 0.5 gives). *)
Definition world_y : Script := script [1700000000000%Z] ["i"] [] [].

(** A world in which the clock reads 1700000003000 and the random suffix
    is "k3v9". *)
Definition world_z : Script := script [1700000003000%Z] ["k3v9"] [] [].

Definition app_x : AppState :=
  {| mode := home; books := [Book_to_value book_x]; currentBookId := None;
     pages_ := []; title_ := "Issun"; coverData_ := VObj [] |}.

Definition app_empty : AppState :=
  {| mode := home; books := []; currentBookId := None;
     pages_ := []; title_ := ""; coverData_ := VObj [] |}.

Definition generator1 : AIGeneratorState :=
  {| theme := "rabbit"; pageCount := 1; baseImages := [];
     textModel := "gemini-2.0-flash"; imageModel := "gemini-2.5-flash-image" |}.

Definition generator2 : AIGeneratorState :=
  {| theme := "rabbit"; pageCount := 2;
     baseImages := ["data:image/png;base64,AAAA"];
     textModel := "gemini-2.0-flash"; imageModel := "gemini-2.5-flash-image" |}.

Definition generator3 : AIGeneratorState :=
  {| theme := "rabbit"; pageCount := 3; baseImages := [];
     textModel := "gemini-2.0-flash"; imageModel := "gemini-2.5-flash-image" |}.

(** The text model answers every request; the image model answers none. *)
Definition world_no_images : Script :=
  script [11; 12]%Z []
    [Ok "soft watercolor"; Ok "text 1"; Ok "prompt 1"; Ok "text 2";
     Ok "prompt 2"; Ok "cover prompt"] [].

(** The text model raises on the story of page 2. *)
Definition world_text_fails : Script :=
  script [11]%Z []
    [Ok "text 1"; Ok "prompt 1"; Throw (Error "503 Service Unavailable")]
    [Ok (image_reply "image/jpeg" "QUJD")].

(** The text model returns an empty story for the only page. *)
Definition world_empty_text : Script :=
  script [11]%Z [] [Ok ""; Ok "prompt 1"; Ok "cover prompt"]
    [Ok (image_reply "image/jpeg" "QUJD"); Ok (image_reply "image/png" "REVG")].

(** The image model replies without any candidate. *)
Definition world_no_candidate : Script :=
  script [] [] [] [Ok {| candidates := None |}].

(* ===================================================================== *)
(** ** Vocabulary of the properties *)
(* ===================================================================== *)

(** The ids of a collection, as [books.map(b => b.id)] reads them. *)
Definition book_ids (bs : list value) : list value :=
  List.map (fun b => prop b "id") bs.

(** Every book of the collection passes [validateBook]. *)
Definition valid_collection (bs : list value) : Prop :=
  Forall (fun b => validateBook b = true) bs.

(** No two books of the collection have the same id. *)
Definition unique_ids (bs : list value) : Prop := List.NoDup (book_ids bs).

Section ImportVocabulary.
Context {W : Type} (P : Platform W).

(** What an import makes of a validated book: the book itself, or, when
    its id is among [ids], a copy under a newly generated id. *)
Definition renamed (ids : list value) (book : value) (w : W) : value * W :=
  if Set_has ids (prop book "id") then
    let '(now, w1) := Date_now P w in
    let '(suffix, w2) := Math_random_toString36_slice2 P w1 in
    (spread_with_id book (pretty now +:+ suffix), w2)
  else (book, w).

Fixpoint renamed_all (ids : list value) (bs : list value) (w : W)
    : list value * W :=
  match bs with
  | [] => ([], w)
  | b :: r =>
      let '(b', w1) := renamed ids b w in
      let '(r', w2) := renamed_all ids r w1 in
      (b' :: r', w2)
  end.

(** The ids the next [n] renamings produce, from the world [w] on. *)
Fixpoint generated_ids (n : nat) (w : W) : list string :=
  match n with
  | O => []
  | S n' =>
      let '(now, w1) := Date_now P w in
      let '(suffix, w2) := Math_random_toString36_slice2 P w1 in
      (pretty now +:+ suffix) :: generated_ids n' w2
  end.

End ImportVocabulary.

(** [book] is the candidate a single-book import reads from [doc]: what
    [doc.book] holds when that is truthy, else the first element of the
    array [doc.books]. *)
Definition single_candidate (doc book : value) : Prop :=
  exists d, getprop doc "book" = Ok d /\
    ((truthy d = true /\ book = d) \/
     (truthy d = false /\
      exists rest, getprop doc "books" = Ok (VArr (book :: rest)))).

(** The document holds a book under [book] (a truthy value). *)
Definition book_present (doc : value) : bool :=
  match getprop doc "book" with Ok d => truthy d | Throw _ => false end.

(** The document holds a non-empty array under [books]. *)
Definition books_present (doc : value) : bool :=
  match getprop doc "books" with
  | Ok (VArr (_ :: _)) => true
  | _ => false
  end.

Definition is_nullish (v : value) : bool :=
  match v with VUndefined | VNull => true | _ => false end.

(** The image a page or the cover gets from a call of [generateImage]:
    the data URL, or none when the call raised. *)
Definition image_of_outcome (r : Result string) : option string :=
  match r with Ok url => Some url | Throw _ => None end.

(** The events of the page loop.  [pages_trace s n i pages texts res evs]:
    running [n] iterations from page index [i], with [pages] and [texts]
    accumulated so far, emits [evs] and ends with [res]. *)
Inductive pages_trace (s : AIGeneratorState)
  : nat -> nat -> list StoryPage -> list string ->
    Result (list StoryPage) -> list Event -> Prop :=
| pages_done i pages texts :
    pages_trace s 0 i pages texts (Ok pages) []
| pages_text_failed n i pages texts e :
    pages_trace s (S n) i pages texts (Throw e)
      [setProgress (writingStory s i);
       called_generateStoryText i (pageCount s) texts (Throw e)]
| pages_prompt_failed n i pages texts t e :
    pages_trace s (S n) i pages texts (Throw e)
      [setProgress (writingStory s i);
       called_generateStoryText i (pageCount s) texts (Ok t);
       setProgress (drawingPage s i);
       called_generateImagePrompt t (Throw e)]
| pages_next n i pages texts t p img now res evs :
    pages_trace s n (S i)
      (pages ++ [newPage now i (image_of_outcome img) t]) (texts ++ [t])
      res evs ->
    pages_trace s (S n) i pages texts res
      ([setProgress (writingStory s i);
        called_generateStoryText i (pageCount s) texts (Ok t);
        setProgress (drawingPage s i);
        called_generateImagePrompt t (Ok p);
        called_generateImage p img] ++ evs).

(** The events of the cover step, and the image the cover gets. *)
Inductive cover_trace (s : AIGeneratorState)
  : option string -> list Event -> Prop :=
| cover_prompt_failed e :
    cover_trace s None [called_generateImagePrompt (coverStory s) (Throw e)]
| cover_drawn p img :
    cover_trace s (image_of_outcome img)
      [called_generateImagePrompt (coverStory s) (Ok p);
       called_generateImage p img].

(** The events of the [try] block of [handleGenerate]. *)
Inductive book_trace (s : AIGeneratorState)
  : Result unit -> list Event -> Prop :=
| book_failed e evs :
    pages_trace s (pageCount s) 1 [] [] (Throw e) evs ->
    book_trace s (Throw e)
      ((if Nat.ltb 0 (length (baseImages s))
        then [setProgress (analyzing s)] else []) ++ evs)
| book_done pages evs coverImage cover_evs :
    pages_trace s (pageCount s) 1 [] [] (Ok pages) evs ->
    cover_trace s coverImage cover_evs ->
    book_trace s (Ok tt)
      ((if Nat.ltb 0 (length (baseImages s))
        then [setProgress (analyzing s)] else []) ++ evs
       ++ [setProgress (drawingCover s)] ++ cover_evs
       ++ [setProgress (completed s);
           onGenerate (theme s)
             {| cover_image := coverImage; cover_imageScale := Finite 1 |}
             pages]).

(** The events of a whole run of [handleGenerate]. *)
Inductive run_trace (s : AIGeneratorState) : option string -> list Event -> Prop :=
| run_no_key k :
    k = None \/ k = Some "" ->
    run_trace s k [setError (Some "APIキーが設定されていません")]
| run_no_theme apiKey :
    apiKey <> "" -> trim_is_empty (theme s) = true ->
    run_trace s (Some apiKey) [setError (Some "テーマを入力してください")]
| run_failed apiKey e evs :
    apiKey <> "" -> trim_is_empty (theme s) = false ->
    book_trace s (Throw e) evs ->
    run_trace s (Some apiKey)
      ([setIsGenerating true; setError None; setProgress (preparing s)]
       ++ evs
       ++ [setError (Some (message_or e "AI生成中にエラーが発生しました"));
           setIsGenerating false])
| run_completed apiKey evs :
    apiKey <> "" -> trim_is_empty (theme s) = false ->
    book_trace s (Ok tt) evs ->
    run_trace s (Some apiKey)
      ([setIsGenerating true; setError None; setProgress (preparing s)]
       ++ evs ++ [setIsGenerating false]).

(** The progress snapshots delivered to the observer, in order. *)
Fixpoint snapshots (evs : list Event) : list GenerationProgress :=
  match evs with
  | [] => []
  | setProgress p :: r => p :: snapshots r
  | _ :: r => snapshots r
  end.

(** The calls of [generateStoryText], in order. *)
Fixpoint story_calls (evs : list Event) : list Event :=
  match evs with
  | [] => []
  | called_generateStoryText i n prev r :: rest =>
      called_generateStoryText i n prev r :: story_calls rest
  | _ :: rest => story_calls rest
  end.

(** The event is not a call of [generateImage] that returned an image. *)
Definition image_call_failed (ev : Event) : bool :=
  match ev with
  | called_generateImage _ (Ok _) => false
  | _ => true
  end.

(** The event is not a call of the text model that raised. *)
Definition text_call_succeeded (ev : Event) : bool :=
  match ev with
  | called_generateStoryText _ _ _ (Throw _) => false
  | called_generateImagePrompt _ (Throw _) => false
  | _ => true
  end.

Definition is_onGenerate (ev : Event) : bool :=
  match ev with onGenerate _ _ _ => true | _ => false end.

(** The [current] fields of the snapshots of a trace. *)
Definition currents (evs : list Event) : list nat :=
  List.map current (snapshots evs).

(** The calls of [generateStoryText] of a run that produces the pages [new]
    after pages with the texts [prev], from page index [i] on: each call is
    given the texts of the pages before it and returns the text of its
    page. *)
Fixpoint expected_story_calls (N i : nat) (prev : list string)
    (new : list StoryPage) : list Event :=
  match new with
  | [] => []
  | p :: r =>
      called_generateStoryText i N prev (Ok (page_text p))
      :: expected_story_calls N (S i) (prev ++ [page_text p]) r
  end.

(** A list of numbers in non-decreasing order, all between [lo] and [hi]. *)
Definition chain (lo hi : nat) (l : list nat) : Prop :=
  StronglySorted le l /\ Forall (fun c => lo <= c <= hi) l.

(* ===================================================================== *)
(** ** Further functions of the source *)
(* ===================================================================== *)

(** [s.split('T')[0]]: what precedes the first T of the string. *)
Fixpoint before_T (s : string) : string :=
  match s with
  | EmptyString => EmptyString
  | String c r => if Ascii.eqb c "T"%char then EmptyString
                  else String c (before_T r)
  end.

(** [l.filter(x => x.id !== id)]. *)
Fixpoint filter_out_id {S} (id : string) (l : list value) : M S (list value) :=
  match l with
  | [] => ret []
  | x :: r =>
      let* x_id := get x "id" in
      let* r' := filter_out_id id r in
      ret (if SameValueZero x_id (VStr id) then r' else x :: r')
  end.

(** [loadBooks] of [App.tsx], given the operation
    [localStorage.getItem(STORAGE_KEY)]: the stored text, or null.  (An
    empty stored text is falsy, and is no JSON text either: both ways give
    the empty collection.) *)
Definition loadBooks {S} (getItem : M S (option Text)) : M S value :=
  try_catch
    (let* data := getItem in
     match data with
     | Some text => JSON_parse text
     | None => ret (VArr [])
     end)
    (fun _ => ret (VArr [])).

(** The cover of a book that has none yet: [{ image: null, imageScale: 1 }]. *)
Definition emptyCover : value :=
  CoverData_to_value {| cover_image := None; cover_imageScale := Finite 1 |}.

Definition handleCreateNew (st : AppState) : AppState :=
  {| mode := edit; books := books st; currentBookId := None;
     pages_ := []; title_ := ""; coverData_ := emptyCover |}.

Definition handleAIGenerate (st : AppState) : AppState :=
  {| mode := ai_generate; books := books st; currentBookId := None;
     pages_ := []; title_ := ""; coverData_ := emptyCover |}.

(** [handleOpenBook], on the books whose [id], [title] and [pages] have the
    types of the [Book] declaration (as those that pass [validateBook] do);
    the state of this embedding holds no other values. *)
Definition handleOpenBook (st : AppState) (book : value) : option AppState :=
  match prop book "id", prop book "title", prop book "pages" with
  | VStr i, VStr t, VArr ps =>
      Some {| mode := view; books := books st; currentBookId := Some i;
              pages_ := ps; title_ := t;
              coverData_ := prop book "coverData" |}
  | _, _, _ => None
  end.

Definition handleReorderPages (st : AppState) (newPages : list value)
    : AppState :=
  {| mode := mode st; books := books st; currentBookId := currentBookId st;
     pages_ := newPages; title_ := title_ st; coverData_ := coverData_ st |}.

(** [setBaseImages(prev => [...prev.slice(0, 2), reader.result])]. *)
Definition addBaseImage (prev : list string) (result : string) : list string :=
  (take 2 prev ++ [result])%list.

(** [handleImageUpload] of the generator: [loaded] holds what the readers of
    the chosen files give, in the order in which they finish.  The test on
    the number of images is made on the images of the render in which the
    files were chosen, once per file. *)
Definition handleImageUpload (baseImages loaded : list string) : list string :=
  fold_left (fun prev result =>
               if Nat.leb 3 (length baseImages) then prev
               else addBaseImage prev result) loaded baseImages.

(** [prev.filter((_, i) => i !== index)]. *)
Definition removeImage (index : nat) (prev : list string) : list string :=
  List.map snd
    (List.filter (fun ix => negb (Nat.eqb (fst ix) index))
                 (imap (fun i x => (i, x)) prev)).

Section FurtherSource.
Context {W : Type} (P : Platform W).

(** [downloadBookshelf], given what [new Date().toISOString()] returns. *)
Definition downloadBookshelf (bs : list value) (toISOString : string)
    : M W Download :=
  fun w =>
    let '(now, w1) := Date_now P w in
    let exportData :=
      VObj [("version", VStr EXPORT_VERSION);
            ("exportedAt", VNum (Finite (inject_Z now)));
            ("books", VArr bs)] in
    let date := before_T toISOString in
    (Ok {| filename := "本棚バックアップ_" +:+ date +:+ ".json";
           json := JSON_parse_stringify exportData |}, w1).

(** [handleDownloadBookshelf] of the Home screen: nothing is downloaded from
    an empty collection (an alert is shown instead). *)
Definition handleDownloadBookshelf (bs : list value) (toISOString : string)
    : M W (option Download) :=
  if Nat.eqb (length bs) 0 then ret None
  else let* d := downloadBookshelf bs toISOString in ret (Some d).

Definition handleDeleteBook (st : AppState) (id : string) : M W AppState :=
  let* updatedBooks := filter_out_id id (books st) in
  let* _ := saveBooks P updatedBooks in
  ret {| mode := mode st; books := updatedBooks;
         currentBookId := currentBookId st; pages_ := pages_ st;
         title_ := title_ st; coverData_ := coverData_ st |}.

Definition handleAddPage (st : AppState) (image : option string)
    (imageScale : number) (text : string) : M W AppState :=
  let* now := now_ P in
  let newPage :=
    StoryPage_to_value {| page_id := pretty now; page_image := image;
                          page_imageScale := imageScale; page_text := text |} in
  ret {| mode := mode st; books := books st;
         currentBookId := currentBookId st;
         pages_ := pages_ st ++ [newPage];
         title_ := title_ st; coverData_ := coverData_ st |}.

Definition handleDeletePage (st : AppState) (id : string) : M W AppState :=
  let* ps := filter_out_id id (pages_ st) in
  ret {| mode := mode st; books := books st;
         currentBookId := currentBookId st; pages_ := ps;
         title_ := title_ st; coverData_ := coverData_ st |}.

(** [pages.map(p => p.id === id ? { ...p, ...updates } : p)]. *)
Definition handleUpdatePage (st : AppState) (id : string) (updates : value)
    : M W AppState :=
  let* ps :=
    mapM (fun p =>
            let* p_id := get p "id" in
            if SameValueZero p_id (VStr id) then
              ret (spread_with p (own_props updates))
            else ret p) (pages_ st) in
  ret {| mode := mode st; books := books st;
         currentBookId := currentBookId st; pages_ := ps;
         title_ := title_ st; coverData_ := coverData_ st |}.

End FurtherSource.

(* ===================================================================== *)
(** ** Vocabulary of the further properties *)
(* ===================================================================== *)

(** No element is null or undefined: reading a property of it is safe. *)
Definition no_nullish (l : list value) : Prop :=
  Forall (fun x => is_nullish x = false) l.

(** The value has the id [id]. *)
Definition has_id (id : string) (x : value) : bool :=
  SameValueZero (prop x "id") (VStr id).

Fixpoint string_forall (p : ascii -> bool) (s : string) : bool :=
  match s with
  | EmptyString => true
  | String c r => p c && string_forall p r
  end.

Definition not_semicolon (c : ascii) : bool := negb (Ascii.eqb c ";"%char).

(** The book of the collection being edited, as [handleSaveBook] and
    [handleFinish] rewrite it at time [now]. *)
Definition edited (st : AppState) (now : Z) (book : value) : value :=
  spread_with book
    [("title", VStr (title_ st)); ("coverData", coverData_ st);
     ("pages", VArr (pages_ st)); ("updatedAt", VNum (number_of_Z now))].

(** The encodings of the characters [trim] removes. *)
Definition bytes (l : list nat) : string :=
  string_of_list_ascii (List.map ascii_of_nat l).

Definition white_space : list string :=
  List.map bytes
    [[9]; [10]; [11]; [12]; [13]; [32]; [194; 160]; [225; 154; 128];
     [226; 128; 128]; [226; 128; 129]; [226; 128; 130]; [226; 128; 131];
     [226; 128; 132]; [226; 128; 133]; [226; 128; 134]; [226; 128; 135];
     [226; 128; 136]; [226; 128; 137]; [226; 128; 138]; [226; 128; 168];
     [226; 128; 169]; [226; 128; 175]; [226; 129; 159]; [227; 128; 128];
     [239; 187; 191]].

(** The event ends a run for its caller: a book handed over, or an error
    reported. *)
Definition is_outcome (ev : Event) : bool :=
  match ev with
  | onGenerate _ _ _ => true
  | setError (Some _) => true
  | _ => false
  end.

(** A file no bookshelf import accepts: unreadable, not JSON, null, without
    an array under [books], or without any valid book in it. *)
Definition rejected_bookshelf_file (file : File) : Prop :=
  file = FileUnreadable \/
  (exists m, file = FileOf (NotJSON m)) \/
  (exists doc, file = FileOf (JSONText doc) /\
     (is_nullish doc = true \/
      exists b, getprop doc "books" = Ok b /\
        (Array_isArray b = false \/
         List.filter validateBook (array_elems b) = []))).

(** The state, shown in the viewer. *)
Definition in_view (st : AppState) : AppState :=
  {| mode := view; books := books st; currentBookId := currentBookId st;
     pages_ := pages_ st; title_ := title_ st; coverData_ := coverData_ st |}.

(** The states whose books all pass [validateBook] and whose cover is
    defined. *)
Definition well_formed (st : AppState) : Prop :=
  valid_collection (books st) /\ is_undefined (coverData_ st) = false.

(** One step of the application: a handler of [App.tsx], or an import of the
    Home screen, runs to its end.  A book is opened from the collection. *)
Inductive app_step {W : Type} (P : Platform W)
  : AppState * W -> AppState * W -> Prop :=
| step_SaveBook st w st' w' :
    handleSaveBook P st w = (Ok st', w') -> app_step P (st, w) (st', w')
| step_Finish st w st' w' :
    handleFinish P st w = (Ok st', w') -> app_step P (st, w) (st', w')
| step_AIGenerateComplete st t c ps w st' w' :
    handleAIGenerateComplete P st t c ps w = (Ok st', w') ->
    app_step P (st, w) (st', w')
| step_DeleteBook st id w st' w' :
    handleDeleteBook P st id w = (Ok st', w') -> app_step P (st, w) (st', w')
| step_OpenBook st book w st' :
    In book (books st) -> handleOpenBook st book = Some st' ->
    app_step P (st, w) (st', w)
| step_CreateNew st w : app_step P (st, w) (handleCreateNew st, w)
| step_AIGenerate st w : app_step P (st, w) (handleAIGenerate st, w)
| step_AddPage st image imageScale text w st' w' :
    handleAddPage P st image imageScale text w = (Ok st', w') ->
    app_step P (st, w) (st', w')
| step_DeletePage st id w st' w' :
    handleDeletePage st id w = (Ok st', w') -> app_step P (st, w) (st', w')
| step_UpdatePage st id updates w st' w' :
    handleUpdatePage st id updates w = (Ok st', w') ->
    app_step P (st, w) (st', w')
| step_ReorderPages st newPages w :
    app_step P (st, w) (handleReorderPages st newPages, w)
| step_UploadBookshelf st file confirm_replace w st' w' :
    handleUploadBookshelf P st file confirm_replace w = (Ok st', w') ->
    app_step P (st, w) (st', w')
| step_UploadSingleBook st file w st' w' :
    handleUploadSingleBook P st file w = (Ok st', w') ->
    app_step P (st, w) (st', w').

(** Any number of steps. *)
Inductive app_steps {W : Type} (P : Platform W)
  : AppState * W -> AppState * W -> Prop :=
| steps_none x : app_steps P x x
| steps_more x y z : app_step P x y -> app_steps P y z -> app_steps P x z.

(** The argument of [handleUpdatePage]: a [Partial<StoryPage>], in which
    each field of a page is present or not. *)
Record PageUpdates := {
  upd_id : option string;
  upd_image : option (option string);
  upd_imageScale : option number;
  upd_text : option string
}.

Definition PageUpdates_to_value (u : PageUpdates) : value :=
  VObj (match upd_id u with Some i => [("id", VStr i)] | None => [] end
        ++ match upd_image u with
           | Some im => [("image", image_to_value im)]
           | None => []
           end
        ++ match upd_imageScale u with
           | Some n => [("imageScale", VNum n)]
           | None => []
           end
        ++ match upd_text u with Some t => [("text", VStr t)] | None => [] end
       )%list.

(** The page with the fields present in [u] replaced. *)
Definition apply_updates (u : PageUpdates) (p : StoryPage) : StoryPage :=
  {| page_id := default (page_id p) (upd_id u);
     page_image := default (page_image p) (upd_image u);
     page_imageScale := default (page_imageScale p) (upd_imageScale u);
     page_text := default (page_text p) (upd_text u) |}.

(** The mime type and the payload [generateImage] puts in the data URL of
    an inline image: [part.inlineData.mimeType || 'image/png'] and
    [part.inlineData.data], as the template literal prints it. *)
Definition mime_of (d : InlineData) : string :=
  match mimeType d with
  | Some m => if String.eqb m "" then "image/png" else m
  | None => "image/png"
  end.

Definition payload_of (d : InlineData) : string := default "undefined" (data d).

(** The regular expression of [analyzeBaseImages] matches the string. *)
Definition is_data_url (imageData : string) : bool :=
  match match_data_url imageData with Some _ => true | None => false end.

(** In the events [evs], the image [image] was drawn for the text
    [storyText]: the prompt derived from that text was given to
    [generateImage], and the image is what that call gave (none when it
    raised). *)
Definition drawn_from (evs : list Event) (storyText : string)
    (image : option string) : Prop :=
  exists prompt outcome,
    In (called_generateImagePrompt storyText (Ok prompt)) evs /\
    In (called_generateImage prompt outcome) evs /\
    image = image_of_outcome outcome.

(** A string made of white space only. *)
Definition blank (s : string) : Prop :=
  exists pieces,
    Forall (fun p => In p white_space) pieces /\
    s = fold_right String.append "" pieces.

Definition is_setIsGenerating (ev : Event) : bool :=
  match ev with setIsGenerating _ => true | _ => false end.

(** Concrete inputs: a collection of two books of which the first is being
    edited, a state with the pages of the first book, a clock that is read
    twice, and an update of the text of a page. *)
Definition app_editing : AppState :=
  {| mode := edit;
     books := [Book_to_value book_x; Book_to_value book_y];
     currentBookId := Some "x"; pages_ := [];
     title_ := "Momotaro, again"; coverData_ := emptyCover |}.

Definition app_pages : AppState :=
  {| mode := edit; books := [Book_to_value book_x]; currentBookId := Some "x";
     pages_ := List.map StoryPage_to_value (pages book_x);
     title_ := "Momotaro"; coverData_ := emptyCover |}.

Definition world_clock2 : Script :=
  script [1700000005000; 1700000006000]%Z [] [] [].

Definition text_update : PageUpdates :=
  {| upd_id := None; upd_image := None; upd_imageScale := None;
     upd_text := Some "Twice" |}.

Definition inline_jpeg : InlineData :=
  {| data := Some "QUJD"; mimeType := Some "image/jpeg" |}.

(* ===================================================================== *)
(** ** Import and export: properties *)
(* ===================================================================== *)

Ltac run :=
  unfold bind, ret, throw, get, of_result, try_catch in *; simpl in *.

Lemma JSON_parse_stringify_image (i : option string) :
  JSON_parse_stringify (image_to_value i) = image_to_value i.
Proof. destruct i; reflexivity. Qed.

Lemma JSON_parse_stringify_page (p : StoryPage) :
  valid_page p = true ->
  JSON_parse_stringify (StoryPage_to_value p) = StoryPage_to_value p.
Proof.
  unfold valid_page. intros H.
  destruct p as [i [im|] sc t]; simpl in *; rewrite H; reflexivity.
Qed.

Lemma JSON_parse_stringify_pages (ps : list StoryPage) :
  forallb valid_page ps = true ->
  List.map (fun x => match x with
                     | VUndefined => VNull
                     | _ => JSON_parse_stringify x
                     end) (List.map StoryPage_to_value ps)
  = List.map StoryPage_to_value ps.
Proof.
  induction ps as [|p ps IH]; simpl; [reflexivity|].
  intros H. apply andb_prop in H as [Hp Hps].
  rewrite IH by exact Hps. f_equal.
  change (JSON_parse_stringify (StoryPage_to_value p) = StoryPage_to_value p).
  apply JSON_parse_stringify_page, Hp.
Qed.

(** A book of the data model comes back from JSON as it went in. *)
Lemma JSON_parse_stringify_Book (b : Book) :
  valid_Book b = true ->
  JSON_parse_stringify (Book_to_value b) = Book_to_value b.
Proof.
  unfold valid_Book. intros H.
  apply andb_prop in H as [H Hu]. apply andb_prop in H as [H Hc].
  apply andb_prop in H as [Hcov Hps].
  destruct b as [i t [ci cs] ps ca ua]; simpl in *.
  rewrite Hu, Hc, Hcov, JSON_parse_stringify_pages by exact Hps.
  destruct ci; reflexivity.
Qed.

Lemma validateBook_Book (b : Book) : validateBook (Book_to_value b) = true.
Proof. destruct b as [i t [ci cs] ps ca ua]. reflexivity. Qed.

Lemma Book_to_value_inj (a b : Book) :
  Book_to_value a = Book_to_value b -> a = b.
Proof.
  destruct a as [i t [ci cs] ps ca ua], b as [i' t' [ci' cs'] ps' ca' ua'].
  unfold Book_to_value; simpl. intros H. injection H as -> -> Hci -> Hps -> ->.
  assert (ci = ci') as -> by (destruct ci, ci'; simpl in Hci; congruence).
  f_equal. revert ps' Hps.
  induction ps as [|[pi pim psc pt] ps IH]; intros [|[pi' pim' psc' pt'] ps'] Hps;
    simpl in Hps; try discriminate; [reflexivity|].
  injection Hps as -> Him -> -> Hps.
  assert (pim = pim') as -> by (destruct pim, pim'; simpl in Him; congruence).
  f_equal. apply IH, Hps.
Qed.

Lemma validateBook_inv (b : value) :
  validateBook b = true ->
  exists fs i, b = VObj fs /\ assoc "id" fs = Some (VStr i).
Proof.
  destruct b as [| |b|n|s|l|fs];
    try (intros H; vm_compute in H; discriminate).
  - destruct b; intros H; vm_compute in H; discriminate.
  - destruct n as [q| | |]; intros H; try (vm_compute in H; discriminate).
    unfold validateBook in H; simpl in H.
    destruct (negb (Qeq_bool q 0)); discriminate.
  - destruct s; intros H; vm_compute in H; discriminate.
  - unfold validateBook, prop; simpl. intros H.
  exists fs. destruct (assoc "id" fs) as [[| | | |i| |]|]; try discriminate.
  exists i. split; reflexivity.
Qed.

Lemma validateBook_truthy (b : value) : validateBook b = true -> truthy b = true.
Proof. intros H. apply validateBook_inv in H as (fs & i & -> & _). reflexivity. Qed.

Lemma getprop_id_valid (b : value) :
  validateBook b = true -> getprop b "id" = Ok (prop b "id").
Proof. intros H. apply validateBook_inv in H as (fs & i & -> & _). reflexivity. Qed.

Lemma prop_id_valid (b : value) :
  validateBook b = true -> exists i, prop b "id" = VStr i.
Proof.
  intros H. apply validateBook_inv in H as (fs & i & -> & Hi).
  exists i. unfold prop; simpl. rewrite Hi. reflexivity.
Qed.

Lemma SameValueZero_str (v : value) (x : string) :
  SameValueZero v (VStr x) = true <-> v = VStr x.
Proof.
  destruct v as [| |b|[q| | |]|s|l|fs]; simpl; try (split; discriminate).
  rewrite String.eqb_eq. split; congruence.
Qed.

Lemma Set_has_str (ids : list value) (x : string) :
  Set_has ids (VStr x) = true <-> In (VStr x) ids.
Proof.
  unfold Set_has. rewrite List.existsb_exists. split.
  - intros (v & Hin & Hv). apply SameValueZero_str in Hv. subst. exact Hin.
  - intros Hin. exists (VStr x). split; [exact Hin|]. apply SameValueZero_str.
    reflexivity.
Qed.

Lemma assoc_replace_same (k : string) (x : value)
    (fs : list (string * value)) :
  assoc k fs <> None -> assoc k (assoc_replace k x fs) = Some x.
Proof.
  induction fs as [|[k' v] fs IH]; cbn [assoc assoc_replace];
    [intros H; destruct H; reflexivity|].
  destruct (String.eqb k k') eqn:E; cbn [assoc]; rewrite E;
    [reflexivity|exact IH].
Qed.

Lemma assoc_replace_other (k k' : string) (x : value)
    (fs : list (string * value)) :
  k <> k' -> assoc k (assoc_replace k' x fs) = assoc k fs.
Proof.
  intros Hne. induction fs as [|[k0 v] fs IH]; [reflexivity|].
  cbn [assoc assoc_replace].
  destruct (String.eqb k' k0) eqn:E; cbn [assoc].
  - apply String.eqb_eq in E. subst k0.
    destruct (String.eqb k k') eqn:E'; [|reflexivity].
    apply String.eqb_eq in E'. contradiction.
  - rewrite IH. reflexivity.
Qed.

Lemma assoc_insert_index_same (n : N) (k : string) (x : value)
    (fs : list (string * value)) :
  assoc k fs = None -> assoc k (insert_index n k x fs) = Some x.
Proof.
  induction fs as [|[k' v] fs IH]; cbn [assoc insert_index].
  - rewrite String.eqb_refl. reflexivity.
  - destruct (String.eqb k k') eqn:E; [discriminate|]. intros Hnone.
    destruct (array_index k') as [m|];
      [destruct (N.ltb m n)|]; cbn [assoc];
      rewrite ?E, ?String.eqb_refl; [exact (IH Hnone)|reflexivity..].
Qed.

Lemma assoc_insert_index_other (n : N) (k k' : string) (x : value)
    (fs : list (string * value)) :
  k <> k' -> assoc k (insert_index n k' x fs) = assoc k fs.
Proof.
  intros Hne.
  assert (E : String.eqb k k' = false) by (apply String.eqb_neq; exact Hne).
  induction fs as [|[k0 v] fs IH]; cbn [assoc insert_index].
  - rewrite E. reflexivity.
  - destruct (array_index k0) as [m|];
      [destruct (N.ltb m n)|]; cbn [assoc]; rewrite ?E, ?IH; reflexivity.
Qed.

Lemma assoc_app_same (k : string) (x : value) (fs : list (string * value)) :
  assoc k fs = None -> assoc k (fs ++ [(k, x)]) = Some x.
Proof.
  induction fs as [|[k' v] fs IH]; cbn [assoc app].
  - rewrite String.eqb_refl. reflexivity.
  - destruct (String.eqb k k'); [discriminate|exact IH].
Qed.

Lemma assoc_app_other (k k' : string) (x : value)
    (fs : list (string * value)) :
  k <> k' -> assoc k (fs ++ [(k', x)]) = assoc k fs.
Proof.
  intros Hne. induction fs as [|[k0 v] fs IH]; cbn [assoc app].
  - apply String.eqb_neq in Hne. rewrite Hne. reflexivity.
  - rewrite IH. reflexivity.
Qed.

Lemma assoc_set_same (k : string) (x : value) (fs : list (string * value)) :
  assoc k (assoc_set k x fs) = Some x.
Proof.
  unfold assoc_set. destruct (assoc k fs) as [y|] eqn:E.
  - apply assoc_replace_same. rewrite E. discriminate.
  - destruct (array_index k) as [n|].
    + exact (assoc_insert_index_same n k x fs E).
    + exact (assoc_app_same k x fs E).
Qed.

Lemma assoc_set_other (k k' : string) (x : value) (fs : list (string * value)) :
  k <> k' -> assoc k (assoc_set k' x fs) = assoc k fs.
Proof.
  intros Hne. unfold assoc_set. destruct (assoc k' fs) as [y|].
  - exact (assoc_replace_other k k' x fs Hne).
  - destruct (array_index k') as [n|].
    + exact (assoc_insert_index_other n k k' x fs Hne).
    + exact (assoc_app_other k k' x fs Hne).
Qed.

(** A copy under a new id reads the new id, and every other field as before. *)
Lemma prop_spread_with_id (fs : list (string * value)) (i k : string) :
  prop (spread_with_id (VObj fs) i) k
  = if String.eqb k "id" then VStr i else prop (VObj fs) k.
Proof.
  unfold spread_with_id, spread_with, prop; simpl.
  destruct (String.eqb k "id") eqn:E.
  - apply String.eqb_eq in E. subst. rewrite assoc_set_same. reflexivity.
  - rewrite assoc_set_other; [reflexivity|].
    intros ->. rewrite String.eqb_refl in E. discriminate.
Qed.

Lemma validateBook_spread_with_id (b : value) (i : string) :
  validateBook b = true -> validateBook (spread_with_id b i) = true.
Proof.
  intros Hb. destruct (validateBook_inv b Hb) as (fs & j & -> & _).
  unfold validateBook in *. cbn [truthy typeof TypeTag_eqb negb orb] in *.
  rewrite !prop_spread_with_id. cbn [String.eqb Ascii.eqb Bool.eqb].
  apply andb_prop in Hb as [Hb Hu]. rewrite Hu.
  apply andb_prop in Hb as [Hb Hc]. rewrite Hc.
  apply andb_prop in Hb as [Hb Hp]. rewrite Hp.
  apply andb_prop in Hb as [Hb Hcov]. rewrite Hcov.
  apply andb_prop in Hb as [_ Ht]. rewrite Ht. reflexivity.
Qed.

Section BookExportFacts.
Context {W : Type} (P : Platform W).

Lemma mapM_get_id (bs : list value) (w : W) :
  valid_collection bs ->
  mapM (fun b => get b "id") bs w = (Ok (book_ids bs), w).
Proof.
  induction 1 as [|b bs Hb _ IH]; [reflexivity|].
  simpl. run. rewrite (getprop_id_valid b Hb). rewrite IH. reflexivity.
Qed.

(** The renaming step of the two imports. *)
Lemma rename_step (ids : list value) (book : value) (w : W) :
  validateBook book = true ->
  (let* book_id := get book "id" in
   if Set_has ids book_id then
     let* fresh := newId P in ret (spread_with_id book fresh)
   else ret book) w
  = (Ok (fst (renamed P ids book w)), snd (renamed P ids book w)).
Proof.
  intros Hb. unfold renamed, newId. run. rewrite (getprop_id_valid book Hb).
  destruct (Set_has ids (prop book "id")); [|reflexivity].
  destruct (Date_now P w) as [now w1].
  destruct (Math_random_toString36_slice2 P w1) as [suffix w2]. reflexivity.
Qed.

Lemma mapM_rename (ids : list value) (bs : list value) (w : W) :
  valid_collection bs ->
  mapM (fun book =>
          let* book_id := get book "id" in
          if Set_has ids book_id then
            let* fresh := newId P in ret (spread_with_id book fresh)
          else ret book) bs w
  = (Ok (fst (renamed_all P ids bs w)), snd (renamed_all P ids bs w)).
Proof.
  intros Hbs. revert w. induction Hbs as [|b bs Hb _ IH]; intros w.
  - reflexivity.
  - cbn [mapM renamed_all]. unfold bind at 1. rewrite (rename_step ids b w Hb).
    destruct (renamed P ids b w) as [b' w1]. cbn [fst snd].
    unfold bind at 1. rewrite IH.
    destruct (renamed_all P ids bs w1) as [r' w2]. reflexivity.
Qed.

Lemma bind_ret {S A B} (a : A) (k : A -> M S B) : bind (ret a) k = k a.
Proof. reflexivity. Qed.

Lemma bind_get {S B} (v x : value) (key : string) (k : value -> M S B) :
  getprop v key = Ok x -> bind (get v key) k = k x.
Proof. intros H. unfold get, of_result, bind. rewrite H. reflexivity. Qed.

(** The end of a single-book import: validation, then the renaming. *)
Lemma uploadSingleBook_tail (book : value) (existing : list value) (w : W) :
  (if negb (validateBook book) then
     throw (Error "本のデータ形式が正しくありません")
   else
     let* existingIds := mapM (fun b => get b "id") existing in
     let* book_id := get book "id" in
     let* importedBook :=
       if Set_has existingIds book_id then
         let* fresh := newId P in
         ret (spread_with_id book fresh)
       else ret book in
     ret {| si_books := importedBook :: existing;
            importedBook := importedBook |}) w
  = if validateBook book then
      match mapM (fun b => get b "id") existing w with
      | (Ok ids, w0) =>
          (Ok {| si_books := fst (renamed P ids book w0) :: existing;
                 importedBook := fst (renamed P ids book w0) |},
           snd (renamed P ids book w0))
      | (Throw e, w0) => (Throw e, w0)
      end
    else (Throw (Error "本のデータ形式が正しくありません"), w).
Proof.
  destruct (validateBook book) eqn:Hv; [|reflexivity]. cbn [negb].
  unfold bind at 1.
  destruct (mapM (fun b => get b "id") existing w) as [[ids|e] w0];
    [|reflexivity].
  rewrite (bind_get book (prop book "id") "id" _ (getprop_id_valid book Hv)).
  unfold bind at 1.
  pose proof (rename_step ids book w0 Hv) as Hr.
  rewrite (bind_get book (prop book "id") "id" _ (getprop_id_valid book Hv))
    in Hr.
  rewrite Hr. reflexivity.
Qed.

(** A single-book import, once the candidate book is known. *)
Lemma uploadSingleBook_candidate (doc book : value) (existing : list value)
    (w : W) :
  single_candidate doc book ->
  uploadSingleBook P (FileOf (JSONText doc)) existing w
  = if validateBook book then
      match mapM (fun b => get b "id") existing w with
      | (Ok ids, w0) =>
          (Ok {| si_books := fst (renamed P ids book w0) :: existing;
                 importedBook := fst (renamed P ids book w0) |},
           snd (renamed P ids book w0))
      | (Throw e, w0) => (Throw e, w0)
      end
    else (Throw (Error "本のデータ形式が正しくありません"), w).
Proof.
  intros (d & Hd & Hcase).
  unfold uploadSingleBook, readFileAsText, JSON_parse.
  rewrite !bind_ret, (bind_get doc d "book" _ Hd).
  destruct Hcase as [[Ht ->]|[Ht (rest & Hbs)]]; rewrite Ht.
  - rewrite bind_ret. apply uploadSingleBook_tail.
  - rewrite (bind_get doc (VArr (book :: rest)) "books" _ Hbs).
    cbn [truthy Array_isArray array_elems length Nat.eqb negb andb head default].
    rewrite bind_ret. apply uploadSingleBook_tail.
Qed.

Lemma filter_validateBook_valid (cands : list value) :
  valid_collection (List.filter validateBook cands).
Proof.
  unfold valid_collection. apply List.Forall_forall. intros b Hb.
  apply List.filter_In in Hb. tauto.
Qed.

Lemma renamed_all_length (ids bs : list value) (w : W) :
  length (fst (renamed_all P ids bs w)) = length bs.
Proof.
  revert w. induction bs as [|b bs IH]; intros w; [reflexivity|].
  cbn [renamed_all]. destruct (renamed P ids b w) as [b' w1].
  specialize (IH w1). destruct (renamed_all P ids bs w1) as [r' w2].
  simpl in *. congruence.
Qed.

(** A bookshelf import, once the [books] array of the document is known. *)
Lemma uploadBookshelf_books (doc : value) (cands existing : list value)
    (mode : ImportMode) (w : W) :
  getprop doc "books" = Ok (VArr cands) ->
  uploadBookshelf P (FileOf (JSONText doc)) existing mode w
  = let validBooks := List.filter validateBook cands in
    if Nat.eqb (length validBooks) 0 then
      (Throw (Error "有効な本のデータが見つかりませんでした"), w)
    else
      match mode with
      | replace =>
          (Ok {| bi_books := validBooks;
                 importedCount := length validBooks |}, w)
      | merge =>
          match mapM (fun b => get b "id") existing w with
          | (Ok ids, w0) =>
              (Ok {| bi_books := existing ++ fst (renamed_all P ids validBooks w0);
                     importedCount := length validBooks |},
               snd (renamed_all P ids validBooks w0))
          | (Throw e, w0) => (Throw e, w0)
          end
      end.
Proof.
  intros Hbooks. unfold uploadBookshelf, readFileAsText, JSON_parse.
  assert (Hmap := fun ids w0 =>
    mapM_rename ids (List.filter validateBook cands) w0
      (filter_validateBook_valid cands)).
  run. rewrite Hbooks. simpl.
  destruct (Nat.eqb (length (List.filter validateBook cands)) 0); [reflexivity|].
  destruct mode; [reflexivity|].
  unfold get, of_result.
  destruct (mapM (fun b s1 => (getprop b "id", s1)) existing w) as [[ids|e] w0];
    [|reflexivity].
  rewrite Hmap. rewrite renamed_all_length. reflexivity.
Qed.

Lemma exported_document (b : Book) (w : W) :
  valid_Book b = true ->
  exists d, downloadSingleBook P b w = (Ok d, snd (Date_now P w)) /\
    getprop (json d) "book" = Ok (Book_to_value b).
Proof.
  intros Hb. unfold downloadSingleBook.
  destruct (Date_now P w) as [now w1]. eexists. split; [reflexivity|].
  cbn [json]. pose proof (JSON_parse_stringify_Book b Hb) as Hj.
  unfold Book_to_value in *. cbn [JSON_parse_stringify] in *.
  rewrite Hj. reflexivity.
Qed.

(** C6. Exporting a valid book as a single-book document and importing that
    document into an empty collection gives a collection of exactly one
    book, equal to the exported book in every field, its id included. *)
Theorem export_import_roundtrip (b : Book) (w w' : W) :
  valid_Book b = true ->
  exists d,
    fst (downloadSingleBook P b w) = Ok d /\
    uploadSingleBook P (file_of_download d) [] w'
    = (Ok {| si_books := [Book_to_value b];
             importedBook := Book_to_value b |}, w').
Proof.
  intros Hb. destruct (exported_document b w Hb) as (d & Hd & Hbook).
  exists d. split; [rewrite Hd; reflexivity|].
  unfold file_of_download.
  rewrite (uploadSingleBook_candidate (json d) (Book_to_value b) [] w').
  - rewrite validateBook_Book. reflexivity.
  - exists (Book_to_value b). split; [exact Hbook|].
    left. split; reflexivity.
Qed.

Lemma renamed_all_Forall2 (ids bs : list value) (w : W) :
  Forall2 (fun c m => m = c \/ exists i, m = spread_with_id c i)
          bs (fst (renamed_all P ids bs w)).
Proof.
  revert w. induction bs as [|b bs IH]; intros w; [constructor|].
  cbn [renamed_all]. destruct (renamed P ids b w) as [b' w1] eqn:Hb.
  specialize (IH w1). destruct (renamed_all P ids bs w1) as [r' w2].
  simpl in *. constructor; [|exact IH].
  unfold renamed in Hb. destruct (Set_has ids (prop b "id")).
  - destruct (Date_now P w) as [now w0].
    destruct (Math_random_toString36_slice2 P w0) as [suffix w3].
    inversion Hb; subst. right. eexists. reflexivity.
  - inversion Hb; subst. left. reflexivity.
Qed.

(** C7 (amended). Merging an export that holds one valid book with id [x]
    into a collection of valid books: when [x] is already the id of a book
    of the collection, the result is the collection, unchanged, followed by
    a copy of the imported book under the newly generated id (the decimal
    clock reading followed by the random suffix, which is not compared with
    [x]: the new id differs from [x] whenever that string does) and equal to
    it in every other field; when [x] is not an id of the collection, the
    result is the collection followed by the imported book itself.  Either
    way one book is counted as imported. *)
Theorem merge_import_of_one_book (doc bk : value) (x : string)
    (existing : list value) (w : W) :
  getprop doc "books" = Ok (VArr [bk]) ->
  validateBook bk = true ->
  prop bk "id" = VStr x ->
  valid_collection existing ->
  (In (VStr x) (book_ids existing) ->
   forall now w1 suffix w2,
     Date_now P w = (now, w1) ->
     Math_random_toString36_slice2 P w1 = (suffix, w2) ->
     let imported := spread_with_id bk (pretty now +:+ suffix) in
     uploadBookshelf P (FileOf (JSONText doc)) existing merge w
     = (Ok {| bi_books := existing ++ [imported]; importedCount := 1 |}, w2)
     /\ prop imported "id" = VStr (pretty now +:+ suffix)
     /\ (pretty now +:+ suffix <> x -> prop imported "id" <> VStr x)
     /\ forall k, k <> "id" -> prop imported k = prop bk k)
  /\ (~ In (VStr x) (book_ids existing) ->
      uploadBookshelf P (FileOf (JSONText doc)) existing merge w
      = (Ok {| bi_books := existing ++ [bk]; importedCount := 1 |}, w)).
Proof.
  intros Hdoc Hbk Hid Hex.
  pose proof (uploadBookshelf_books doc [bk] existing merge w Hdoc) as Hup.
  cbn [List.filter] in Hup. rewrite Hbk in Hup. cbn [length Nat.eqb] in Hup.
  rewrite (mapM_get_id existing w Hex) in Hup.
  cbn [renamed_all] in Hup. unfold renamed in Hup. rewrite Hid in Hup.
  split.
  - intros Hin now w1 suffix w2 Hnow Hrnd imported.
    apply Set_has_str in Hin. rewrite Hin, Hnow, Hrnd in Hup.
    split; [exact Hup|].
    destruct (validateBook_inv bk Hbk) as (fs & i & -> & _).
    subst imported. split; [|split].
    + rewrite prop_spread_with_id. reflexivity.
    + rewrite prop_spread_with_id. cbn [String.eqb Ascii.eqb Bool.eqb].
      congruence.
    + intros k Hk. rewrite prop_spread_with_id.
      destruct (String.eqb k "id") eqn:E; [|reflexivity].
      apply String.eqb_eq in E. contradiction.
  - intros Hnin.
    destruct (Set_has (book_ids existing) (VStr x)) eqn:E.
    + apply Set_has_str in E. contradiction.
    + exact Hup.
Qed.

(** C9 (amended). In a bookshelf import whose document has a [books] array,
    the candidates that fail [validateBook] are dropped and exactly the
    valid ones are imported (as they are in replace mode; each as it is or
    as a copy under a new id in merge mode), provided at least one
    candidate is valid; when no candidate is valid the import fails with an
    error.  A single-book import whose candidate is invalid fails with an
    error. *)
Theorem import_keeps_exactly_valid_candidates (doc : value)
    (cands existing : list value) (w : W) :
  getprop doc "books" = Ok (VArr cands) ->
  let validBooks := List.filter validateBook cands in
  (validBooks <> [] ->
     uploadBookshelf P (FileOf (JSONText doc)) existing replace w
     = (Ok {| bi_books := validBooks; importedCount := length validBooks |}, w)
     /\ (valid_collection existing ->
         exists merged w',
           uploadBookshelf P (FileOf (JSONText doc)) existing merge w
           = (Ok {| bi_books := existing ++ merged;
                    importedCount := length validBooks |}, w')
           /\ Forall2 (fun c m => m = c \/ exists i, m = spread_with_id c i)
                      validBooks merged))
  /\ (validBooks = [] ->
      forall mode,
        uploadBookshelf P (FileOf (JSONText doc)) existing mode w
        = (Throw (Error "有効な本のデータが見つかりませんでした"), w))
  /\ (forall sdoc c,
        single_candidate sdoc c ->
        validateBook c = false ->
        uploadSingleBook P (FileOf (JSONText sdoc)) existing w
        = (Throw (Error "本のデータ形式が正しくありません"), w)).
Proof.
  intros Hdoc validBooks. split; [|split].
  - intros Hne.
    assert (Hlen : Nat.eqb (length validBooks) 0 = false).
    { destruct validBooks; [contradiction|reflexivity]. }
    split.
    + rewrite (uploadBookshelf_books doc cands existing replace w Hdoc).
      cbv zeta. fold validBooks. rewrite Hlen. reflexivity.
    + intros Hex.
      exists (fst (renamed_all P (book_ids existing) validBooks w)),
             (snd (renamed_all P (book_ids existing) validBooks w)).
      split; [|apply renamed_all_Forall2].
      rewrite (uploadBookshelf_books doc cands existing merge w Hdoc).
      cbv zeta. fold validBooks. rewrite Hlen.
      rewrite (mapM_get_id existing w Hex). reflexivity.
  - intros Hnil mode.
    rewrite (uploadBookshelf_books doc cands existing mode w Hdoc).
    cbv zeta. fold validBooks. rewrite Hnil. reflexivity.
  - intros sdoc c Hc Hinv.
    rewrite (uploadSingleBook_candidate sdoc c existing w Hc), Hinv.
    reflexivity.
Qed.

Lemma uploadSingleBook_found (doc book : value) (existing : list value)
    (w : W) :
  single_candidate doc book ->
  valid_collection existing ->
  uploadSingleBook P (FileOf (JSONText doc)) existing w
  = if validateBook book then
      (Ok {| si_books := fst (renamed P (book_ids existing) book w) :: existing;
             importedBook := fst (renamed P (book_ids existing) book w) |},
       snd (renamed P (book_ids existing) book w))
    else (Throw (Error "本のデータ形式が正しくありません"), w).
Proof.
  intros Hc Hex. rewrite (uploadSingleBook_candidate doc book existing w Hc).
  rewrite (mapM_get_id existing w Hex). reflexivity.
Qed.

Lemma uploadSingleBook_not_found (doc : value) (existing : list value)
    (w : W) :
  is_nullish doc = false ->
  book_present doc = false ->
  books_present doc = false ->
  uploadSingleBook P (FileOf (JSONText doc)) existing w
  = (Throw (Error "本のデータが見つかりませんでした"), w).
Proof.
  unfold book_present, books_present, uploadSingleBook, readFileAsText,
    JSON_parse.
  intros Hn Hb Hbs. run.
  destruct (getprop doc "book") as [d|e] eqn:Hd.
  - rewrite Hb.
    destruct (getprop doc "books") as [bs|e] eqn:Hbs'.
    + destruct bs as [| |b|n|s|l|fs]; try reflexivity.
      * destruct (truthy (VBool b)); reflexivity.
      * destruct (truthy (VNum n)); reflexivity.
      * destruct (truthy (VStr s)); reflexivity.
      * destruct l; [reflexivity|discriminate].
    + destruct doc; simpl in *; discriminate.
  - destruct doc; simpl in *; discriminate.
Qed.

(** C10 (amended). A single-book import of a document without a [book]
    field and with a non-empty [books] array takes the first element of that
    array as its candidate.  A candidate that fails the validation makes the
    import fail, with the error of a wrong format.  A valid candidate is
    imported in front of the collection: as it is when its id is not an id
    of the collection; otherwise as a copy under the newly generated id (the
    decimal clock reading followed by the random suffix), equal to it in
    every other field and valid as it is.  A single-book import fails
    exactly when the file gives no valid candidate; for a document that is
    not null it fails with the error of a missing book exactly when the
    document holds neither a book under [book] (a truthy value) nor a
    non-empty array under [books]. *)
Theorem single_import_reads_first_of_books (fs : list (string * value))
    (c : value) (rest existing : list value) (w : W) :
  assoc "book" fs = None ->
  assoc "books" fs = Some (VArr (c :: rest)) ->
  valid_collection existing ->
  (validateBook c = false ->
   uploadSingleBook P (FileOf (JSONText (VObj fs))) existing w
   = (Throw (Error "本のデータ形式が正しくありません"), w))
  /\ (validateBook c = true ->
      ~ In (prop c "id") (book_ids existing) ->
      uploadSingleBook P (FileOf (JSONText (VObj fs))) existing w
      = (Ok {| si_books := c :: existing; importedBook := c |}, w))
  /\ (validateBook c = true ->
      In (prop c "id") (book_ids existing) ->
      forall now w1 suffix w2,
        Date_now P w = (now, w1) ->
        Math_random_toString36_slice2 P w1 = (suffix, w2) ->
        let copy := spread_with_id c (pretty now +:+ suffix) in
        uploadSingleBook P (FileOf (JSONText (VObj fs))) existing w
        = (Ok {| si_books := copy :: existing; importedBook := copy |}, w2)
        /\ prop copy "id" = VStr (pretty now +:+ suffix)
        /\ (forall k, k <> "id" -> prop copy k = prop c k)
        /\ validateBook copy = true)
  /\ (forall file,
        (exists e w', uploadSingleBook P file existing w = (Throw e, w'))
        <-> ~ (exists doc book,
                 file = FileOf (JSONText doc) /\
                 single_candidate doc book /\ validateBook book = true))
  /\ (forall doc,
        uploadSingleBook P (FileOf (JSONText doc)) existing w
        = (Throw (Error "本のデータが見つかりませんでした"), w)
        <-> (is_nullish doc = false /\ book_present doc = false
             /\ books_present doc = false)).
Proof.
  intros Hbook Hbooks Hex.
  assert (Hcand : single_candidate (VObj fs) c).
  { exists VUndefined. split; [simpl; rewrite Hbook; reflexivity|].
    right. split; [reflexivity|]. exists rest. simpl. rewrite Hbooks.
    reflexivity. }
  pose proof (uploadSingleBook_found (VObj fs) c existing w Hcand Hex) as Hup.
  assert (Hdich : forall doc,
            is_nullish doc = false ->
            (exists book, single_candidate doc book)
            \/ (book_present doc = false /\ books_present doc = false)).
  { intros doc Hn. unfold single_candidate, book_present, books_present.
    assert (exists d, getprop doc "book" = Ok d) as [d Hd]
      by (destruct doc; try discriminate; eexists; reflexivity).
    rewrite Hd. destruct (truthy d) eqn:Ht.
    - left. exists d, d. split; [reflexivity|]. left. split; auto.
    - destruct (getprop doc "books") as [[| | | | |[|b l]|]|e] eqn:Hbs;
        try (right; split; reflexivity).
      left. exists b, d. split; [reflexivity|]. right. split; [exact Ht|].
      exists l. reflexivity. }
  split; [|split; [|split; [|split]]].
  - intros Hinv. rewrite Hinv in Hup. exact Hup.
  - intros Hv Hnin. rewrite Hv in Hup. unfold renamed in Hup.
    destruct (Set_has (book_ids existing) (prop c "id")) eqn:E;
      [|exact Hup].
    exfalso. apply Hnin.
    destruct (validateBook_inv c Hv) as (cfs & i & -> & Hi).
    assert (Hid : prop (VObj cfs) "id" = VStr i)
      by (unfold prop; simpl; rewrite Hi; reflexivity).
    rewrite Hid in *. apply Set_has_str. exact E.
  - intros Hv Hin now w1 suffix w2 Hnow Hrnd copy.
    destruct (validateBook_inv c Hv) as (cfs & i & -> & Hi).
    assert (Hid : prop (VObj cfs) "id" = VStr i)
      by (unfold prop; simpl; rewrite Hi; reflexivity).
    rewrite Hv in Hup. unfold renamed in Hup.
    rewrite Hid in Hin, Hup. apply Set_has_str in Hin.
    rewrite Hin, Hnow, Hrnd in Hup.
    split; [exact Hup|]. subst copy. split; [|split].
    + rewrite prop_spread_with_id. reflexivity.
    + intros k Hk. rewrite prop_spread_with_id.
      destruct (String.eqb k "id") eqn:E; [|reflexivity].
      apply String.eqb_eq in E. contradiction.
    + apply validateBook_spread_with_id. exact Hv.
  - intros file. split.
    + intros (e & w' & Hthrow) (doc & book & -> & Hc & Hv).
      rewrite (uploadSingleBook_found doc book existing w Hc Hex), Hv
        in Hthrow.
      discriminate.
    + intros Hnone. destruct file as [|[m|doc]].
      * eexists _, _. reflexivity.
      * eexists _, _. reflexivity.
      * destruct (is_nullish doc) eqn:Hn.
        { destruct doc; try discriminate; eexists _, _; reflexivity. }
        destruct (Hdich doc Hn) as [[book Hc]|[Hb Hbs]].
        -- rewrite (uploadSingleBook_found doc book existing w Hc Hex).
           destruct (validateBook book) eqn:Hv.
           ++ exfalso. apply Hnone. exists doc, book. auto.
           ++ eexists _, _. reflexivity.
        -- rewrite (uploadSingleBook_not_found doc existing w Hn Hb Hbs).
           eexists _, _. reflexivity.
  - intros doc. split.
    + intros Hres.
      destruct (is_nullish doc) eqn:Hn.
      { destruct doc; try discriminate; vm_compute in Hres; discriminate. }
      split; [reflexivity|].
      destruct (Hdich doc Hn) as [[book Hc]|[Hb Hbs]]; [|split; assumption].
      exfalso.
      rewrite (uploadSingleBook_found doc book existing w Hc Hex) in Hres.
      destruct (validateBook book); discriminate.
    + intros (Hn & Hb & Hbs). apply uploadSingleBook_not_found; assumption.
Qed.

End BookExportFacts.

(* ===================================================================== *)
(** ** The collection of the application: uniqueness of ids *)
(* ===================================================================== *)

Section Uniqueness.
Context {W : Type} (P : Platform W).

(** Where the ids of the renamed books come from. *)
Lemma renamed_all_ids_origin (ids bs : list value) :
  valid_collection bs ->
  forall (n : nat) (w : W) (m : value),
    length bs <= n ->
    In m (book_ids (fst (renamed_all P ids bs w))) ->
    (In m (book_ids bs) /\ ~ In m ids)
    \/ (exists g, In g (generated_ids P n w) /\ m = VStr g).
Proof.
  induction 1 as [|b bs Hb Hbs IH]; intros n w m Hlen Hin.
  - simpl in Hin. contradiction.
  - destruct n as [|n]; [simpl in Hlen; lia|].
    destruct (validateBook_inv b Hb) as (fs & i & -> & Hi).
    assert (Hid : prop (VObj fs) "id" = VStr i)
      by (unfold prop; simpl; rewrite Hi; reflexivity).
    cbn [renamed_all generated_ids] in *. unfold renamed in Hin.
    rewrite Hid in Hin.
    destruct (Set_has ids (VStr i)) eqn:E.
    + destruct (Date_now P w) as [now w1].
      destruct (Math_random_toString36_slice2 P w1) as [suffix w2].
      pose proof (IH n w2 m) as IH'.
      destruct (renamed_all P ids bs w2) as [r' w3]. cbn [fst book_ids List.map] in *.
      destruct Hin as [Hm|Hin].
      * right. exists (pretty now +:+ suffix). split; [left; reflexivity|].
        rewrite <- Hm, prop_spread_with_id. reflexivity.
      * destruct IH' as [[H1 H2]|(g & Hg & ->)]; [simpl in Hlen; lia|exact Hin| |].
        -- left. split; [right; exact H1|exact H2].
        -- right. exists g. split; [right; exact Hg|reflexivity].
    + pose proof (IH (S n) w m) as IH'.
      destruct (renamed_all P ids bs w) as [r' w3]. cbn [fst book_ids List.map] in *.
      destruct Hin as [Hm|Hin].
      * left. split; [left; exact Hm|]. rewrite <- Hm, Hid.
        intros Hc. apply Set_has_str in Hc. congruence.
      * destruct IH' as [[H1 H2]|(g & Hg & ->)]; [simpl in Hlen; lia|exact Hin| |].
        -- left. split; [right; exact H1|exact H2].
        -- right. exists g. split; [exact Hg|reflexivity].
Qed.

Lemma renamed_all_ids_NoDup (ids bs : list value) :
  valid_collection bs ->
  forall (n : nat) (w : W),
    length bs <= n ->
    List.NoDup (book_ids bs) ->
    List.NoDup (generated_ids P n w) ->
    (forall g, In g (generated_ids P n w) -> ~ In (VStr g) (book_ids bs)) ->
    List.NoDup (book_ids (fst (renamed_all P ids bs w))).
Proof.
  induction 1 as [|b bs Hb Hbs IH]; intros n w Hlen Hnd Hg Hfresh.
  - simpl. constructor.
  - destruct n as [|n]; [simpl in Hlen; lia|].
    assert (Hlen' : length bs <= n) by (simpl in Hlen; lia).
    pose proof (renamed_all_ids_origin ids bs Hbs) as Horigin.
    destruct (validateBook_inv b Hb) as (fs & i & -> & Hi).
    assert (Hid : prop (VObj fs) "id" = VStr i)
      by (unfold prop; simpl; rewrite Hi; reflexivity).
    cbn [book_ids List.map] in Hnd, Hfresh. rewrite Hid in Hnd, Hfresh.
    fold (book_ids bs) in Hnd, Hfresh.
    apply List.NoDup_cons_iff in Hnd as [Hnotin Hnd].
    cbn [renamed_all]. unfold renamed. rewrite Hid.
    destruct (Set_has ids (VStr i)) eqn:E.
    + cbn [generated_ids] in Hg, Hfresh.
      destruct (Date_now P w) as [now w1].
      destruct (Math_random_toString36_slice2 P w1) as [suffix w2].
      apply List.NoDup_cons_iff in Hg as [Hgn Hg].
      specialize (IH n w2 Hlen' Hnd Hg). specialize (Horigin n w2).
      destruct (renamed_all P ids bs w2) as [r' w3].
      cbn [fst book_ids List.map] in *.
      rewrite prop_spread_with_id. cbn [String.eqb Ascii.eqb Bool.eqb].
      apply List.NoDup_cons.
      * intros Hin. apply Horigin in Hin; [|exact Hlen'].
        destruct Hin as [[H1 _]|(g & Hgin & Heq)].
        -- apply (Hfresh (pretty now +:+ suffix)); [left; reflexivity|].
           right. exact H1.
        -- injection Heq as <-. contradiction.
      * apply IH. intros g Hgin Hc.
        apply (Hfresh g); [right; exact Hgin|]. right. exact Hc.
    + assert (Hlen2 : length bs <= S n) by lia.
      specialize (IH (S n) w Hlen2 Hnd Hg). specialize (Horigin (S n) w).
      destruct (renamed_all P ids bs w) as [r' w3].
      cbn [fst book_ids List.map] in *. rewrite Hid.
      apply List.NoDup_cons.
      * intros Hin. apply Horigin in Hin; [|exact Hlen2].
        destruct Hin as [[H1 _]|(g & Hgin & Heq)]; [contradiction|].
        apply (Hfresh g Hgin). left. exact Heq.
      * apply IH. intros g Hgin Hc. apply (Hfresh g Hgin). right. exact Hc.
Qed.

Lemma saveBooks_ok (bs : list value) (w : W) :
  exists w', saveBooks P bs w = (Ok tt, w').
Proof.
  unfold saveBooks, try_catch.
  destruct (localStorage_setItem P STORAGE_KEY (VArr bs) w) as [[[]|e] w'];
    eexists; reflexivity.
Qed.

Lemma handleUpdateBooks_ok (st : AppState) (bs : list value) (w : W) :
  exists st' w', handleUpdateBooks P st bs w = (Ok st', w') /\ books st' = bs.
Proof.
  unfold handleUpdateBooks, bind. destruct (saveBooks_ok bs w) as [w' ->].
  eexists _, _. split; reflexivity.
Qed.

(** An import handler always returns: with the collection of the import
    when the import succeeds, with the collection as it was otherwise. *)
Lemma handleUploadSingleBook_ok (st : AppState) (file : File) (w : W) :
  exists st' w',
    handleUploadSingleBook P st file w = (Ok st', w') /\
    (books st' = books st \/
     exists r w0, uploadSingleBook P file (books st) w = (Ok r, w0)
                  /\ books st' = si_books r).
Proof.
  unfold handleUploadSingleBook, try_catch, bind.
  destruct (uploadSingleBook P file (books st) w) as [[r|e] w0] eqn:Hup.
  - destruct (handleUpdateBooks_ok st (si_books r) w0) as (st' & w' & -> & Hb).
    exists st', w'. split; [reflexivity|]. right. exists r, w0. split; auto.
  - exists st, w0. split; [reflexivity|]. left. reflexivity.
Qed.

Lemma handleUploadBookshelf_ok (st : AppState) (file : File) (c : bool)
    (w : W) :
  exists st' w',
    handleUploadBookshelf P st file c w = (Ok st', w') /\
    (books st' = books st \/
     exists r w0,
       uploadBookshelf P file (books st) (if c then replace else merge) w
       = (Ok r, w0) /\ books st' = bi_books r).
Proof.
  unfold handleUploadBookshelf, try_catch, bind.
  destruct (uploadBookshelf P file (books st) (if c then replace else merge) w)
    as [[r|e] w0] eqn:Hup.
  - destruct (handleUpdateBooks_ok st (bi_books r) w0) as (st' & w' & -> & Hb).
    exists st', w'. split; [reflexivity|]. right. exists r, w0. split; auto.
  - exists st, w0. split; [reflexivity|]. left. reflexivity.
Qed.

Lemma candidate_dichotomy (doc : value) :
  is_nullish doc = false ->
  (exists book, single_candidate doc book)
  \/ (book_present doc = false /\ books_present doc = false).
Proof.
  intros Hn. unfold single_candidate, book_present, books_present.
  assert (exists d, getprop doc "book" = Ok d) as [d Hd]
    by (destruct doc; try discriminate; eexists; reflexivity).
  rewrite Hd. destruct (truthy d) eqn:Ht.
  - left. exists d, d. split; [reflexivity|]. left. split; auto.
  - destruct (getprop doc "books") as [[| | | | |[|b l]|]|e] eqn:Hbs;
      try (right; split; reflexivity).
    left. exists b, d. split; [reflexivity|]. right. split; [exact Ht|].
    exists l. reflexivity.
Qed.

(** A single-book import that succeeds has put a valid book, or its copy
    under a new id, in front of the collection. *)
Lemma uploadSingleBook_Ok_inv (file : File) (existing : list value)
    (w w0 : W) (r : SingleBookImport) :
  valid_collection existing ->
  uploadSingleBook P file existing w = (Ok r, w0) ->
  exists book,
    validateBook book = true /\
    si_books r = fst (renamed P (book_ids existing) book w) :: existing.
Proof.
  intros Hex Hup. destruct file as [|[m|doc]];
    try (vm_compute in Hup; discriminate).
  destruct (is_nullish doc) eqn:Hn.
  { destruct doc; try discriminate; vm_compute in Hup; discriminate. }
  destruct (candidate_dichotomy doc Hn) as [[book Hc]|[Hb Hbs]].
  - rewrite (uploadSingleBook_found P doc book existing w Hc Hex) in Hup.
    destruct (validateBook book) eqn:Hv; [|discriminate].
    exists book. split; [exact Hv|]. inversion Hup; subst. reflexivity.
  - rewrite (uploadSingleBook_not_found P doc existing w Hn Hb Hbs) in Hup.
    discriminate.
Qed.

Lemma book_ids_newBook (now : Z) (t : string) (c : value) (ps bs : list value) :
  book_ids (newBook now t c ps :: bs) = VStr (pretty now) :: book_ids bs.
Proof. reflexivity. Qed.

(** C8 (amended). Each operation that adds books to the collection keeps the
    ids of the collection pairwise distinct provided the ids it brings in
    are new: for a saved or a generated book, the decimal string of the
    clock reading is not yet an id of the collection; for an import into a
    collection of valid books, the valid books of the file have pairwise
    distinct ids, and the ids generated for the books whose id is taken are
    pairwise distinct and occur neither in the collection nor in the
    file. *)
Theorem additions_keep_ids_unique (st : AppState) (w : W) :
  unique_ids (books st) ->
  (is_editing st = None ->
   ~ In (VStr (pretty (fst (Date_now P w)))) (book_ids (books st)) ->
   exists st' w',
     handleSaveBook P st w = (Ok st', w') /\
     length (books st') = S (length (books st)) /\ unique_ids (books st'))
  /\ (forall t c ps,
       ~ In (VStr (pretty (fst (Date_now P w)))) (book_ids (books st)) ->
       exists st' w',
         handleAIGenerateComplete P st t c ps w = (Ok st', w') /\
         length (books st') = S (length (books st)) /\ unique_ids (books st'))
  /\ (forall file,
       valid_collection (books st) ->
       (forall g, In g (generated_ids P 1 w) ->
                  ~ In (VStr g) (book_ids (books st))) ->
       exists st' w',
         handleUploadSingleBook P st file w = (Ok st', w') /\
         unique_ids (books st'))
  /\ (forall doc cands confirm_replace,
       valid_collection (books st) ->
       getprop doc "books" = Ok (VArr cands) ->
       let validBooks := List.filter validateBook cands in
       let fresh := generated_ids P (length validBooks) w in
       unique_ids validBooks ->
       List.NoDup fresh ->
       (forall g, In g fresh ->
                  ~ In (VStr g) (book_ids (books st))
                  /\ ~ In (VStr g) (book_ids validBooks)) ->
       exists st' w',
         handleUploadBookshelf P st (FileOf (JSONText doc)) confirm_replace w
         = (Ok st', w') /\
         unique_ids (books st')).
Proof.
  intros Huniq. split; [|split; [|split]].
  - intros Hnew Hfresh. unfold handleSaveBook, now_, bind. rewrite Hnew.
    destruct (Date_now P w) as [now w1]. cbn [fst] in Hfresh.
    destruct (saveBooks_ok
                (newBook now (title_ st) (coverData_ st) (pages_ st) :: books st)
                w1) as [w' ->].
    eexists _, _. split; [reflexivity|]. cbn [books]. split; [reflexivity|].
    unfold unique_ids. rewrite book_ids_newBook.
    apply List.NoDup_cons; assumption.
  - intros t c ps Hfresh. unfold handleAIGenerateComplete, now_, bind.
    destruct (Date_now P w) as [now w1]. cbn [fst] in Hfresh.
    destruct (saveBooks_ok
                (newBook now t (CoverData_to_value c)
                   (List.map StoryPage_to_value ps) :: books st)
                w1) as [w' ->].
    eexists _, _. split; [reflexivity|]. cbn [books]. split; [reflexivity|].
    unfold unique_ids. rewrite book_ids_newBook.
    apply List.NoDup_cons; assumption.
  - intros file Hex Hfresh.
    destruct (handleUploadSingleBook_ok st file w)
      as (st' & w' & Hrun & [Hsame|(r & w0 & Hup & Hb)]);
      exists st', w'; (split; [exact Hrun|]).
    + rewrite Hsame. exact Huniq.
    + rewrite Hb.
      destruct (uploadSingleBook_Ok_inv file (books st) w w0 r Hex Hup)
        as (book & Hv & ->).
      unfold unique_ids. cbn [book_ids List.map].
      apply List.NoDup_cons; [|exact Huniq].
      assert (Horigin := renamed_all_ids_origin (book_ids (books st)) [book]
                (List.Forall_cons _ book [] Hv (List.Forall_nil _)) 1 w
                (prop (fst (renamed P (book_ids (books st)) book w)) "id")
                (le_n 1)).
      cbn [renamed_all] in Horigin.
      destruct (renamed P (book_ids (books st)) book w) as [b' w1].
      cbn [fst book_ids List.map] in *.
      destruct Horigin as [[_ H]|(g & Hg & Heq)]; [left; reflexivity|exact H|].
      rewrite Heq. apply Hfresh, Hg.
  - intros doc cands c Hex Hdoc validBooks fresh Hv Hnd Hfresh.
    destruct (handleUploadBookshelf_ok st (FileOf (JSONText doc)) c w)
      as (st' & w' & Hrun & [Hsame|(r & w0 & Hup & Hb)]);
      exists st', w'; (split; [exact Hrun|]).
    + rewrite Hsame. exact Huniq.
    + rewrite Hb.
      rewrite (uploadBookshelf_books P doc cands (books st) _ w Hdoc) in Hup.
      cbv zeta in Hup. fold validBooks in Hup.
      destruct (Nat.eqb (length validBooks) 0); [discriminate|].
      destruct c.
      * inversion Hup; subst. exact Hv.
      * rewrite (mapM_get_id (books st) w Hex) in Hup.
        inversion Hup; subst. cbn [bi_books].
        unfold unique_ids, book_ids. rewrite List.map_app.
        fold (book_ids (books st)).
        fold (book_ids (fst (renamed_all P (book_ids (books st)) validBooks w))).
        apply List.NoDup_app.
        -- exact Huniq.
        -- apply (renamed_all_ids_NoDup (book_ids (books st)) validBooks
                    (filter_validateBook_valid cands) (length validBooks) w
                    (le_n _) Hv Hnd).
           intros g Hg. apply (Hfresh g Hg).
        -- intros m Hm Hin.
           apply (renamed_all_ids_origin (book_ids (books st)) validBooks
                    (filter_validateBook_valid cands) (length validBooks) w m
                    (le_n _)) in Hin.
           destruct Hin as [[_ H]|(g & Hg & ->)]; [contradiction|].
           destruct (Hfresh g Hg) as [H1 _]. exact (H1 Hm).
Qed.

End Uniqueness.

(* ===================================================================== *)
(** ** The generation client and the pipeline: properties *)
(* ===================================================================== *)

Section GenerationFacts.
Context {W : Type} (P : Platform W).

Lemma bind_emit {A} (e : Event) (k : unit -> M (Run W) A) (st : Run W) :
  bind (emit e) k st
  = k tt {| world := world st; trace := (trace st ++ [e])%list |}.
Proof. reflexivity. Qed.

Lemma bind_call {A B} (record : Result A -> Event) (m : M W A)
    (k : A -> M (Run W) B) (st : Run W) :
  bind (call record m) k st
  = match m (world st) with
    | (Ok a, w) =>
        k a {| world := w; trace := (trace st ++ [record (Ok a)])%list |}
    | (Throw e, w) =>
        (Throw e,
         {| world := w; trace := (trace st ++ [record (Throw e)])%list |})
    end.
Proof.
  unfold bind, call. destruct (m (world st)) as [[a|e] w]; reflexivity.
Qed.

Lemma pageImage_run (apiKey : string) (s : AIGeneratorState) (p : string)
    (st : Run W) :
  exists img w',
    pageImage P apiKey s p st
    = (Ok (image_of_outcome img),
       {| world := w';
          trace := (trace st ++ [called_generateImage p img])%list |}).
Proof.
  unfold pageImage, try_catch. rewrite bind_call.
  destruct (generateImage P apiKey p (imageModel s) (world st)) as [[url|e] w1].
  - exists (Ok url), w1. reflexivity.
  - exists (Throw e). eexists. reflexivity.
Qed.

Lemma coverImage_run (apiKey : string) (s : AIGeneratorState)
    (descs : list string) (st : Run W) :
  exists img evs w',
    coverImage P apiKey s descs st
    = (Ok img, {| world := w'; trace := (trace st ++ evs)%list |})
    /\ cover_trace s img evs.
Proof.
  unfold coverImage, try_catch. rewrite bind_call.
  destruct (generateImagePrompt P apiKey (theme s) (coverStory s) descs
              (textModel s) (world st)) as [[p|e] w1].
  - rewrite bind_call. cbn [world trace].
    destruct (generateImage P apiKey p (imageModel s) w1) as [[url|e] w2].
    + exists (Some url). eexists. exists w2. split.
      * unfold ret. rewrite <- List.app_assoc. reflexivity.
      * apply (cover_drawn s p (Ok url)).
    + exists None. eexists. eexists. split.
      * unfold bind, log_error, lift, ret. cbn [world trace].
        rewrite <- List.app_assoc. reflexivity.
      * apply (cover_drawn s p (Throw e)).
  - exists None. eexists. eexists. split.
    + unfold bind, log_error, lift, ret. cbn [world trace]. reflexivity.
    + apply cover_prompt_failed.
Qed.

Lemma Date_now_run (st : Run W) :
  exists now w',
    Date_now_ P st = (Ok now, {| world := w'; trace := trace st |}).
Proof.
  unfold Date_now_, lift. destruct (Date_now P (world st)) as [now w'].
  exists now, w'. reflexivity.
Qed.

Lemma page_tail_run {A} (apiKey : string) (s : AIGeneratorState)
    (p : string) (k : option string -> Z -> M (Run W) A) (st : Run W) :
  exists img now w',
    (let* imageData := pageImage P apiKey s p in
     let* now := Date_now_ P in
     k imageData now) st
    = k (image_of_outcome img) now
        {| world := w';
           trace := (trace st ++ [called_generateImage p img])%list |}.
Proof.
  unfold bind at 1.
  destruct (pageImage_run apiKey s p st) as (img & w3 & ->).
  unfold bind at 1.
  match goal with |- context [Date_now_ P ?st0] =>
    destruct (Date_now_run st0) as (now & w4 & ->) end.
  exists img, now, w4. reflexivity.
Qed.

(** The page loop emits a trace of the loop. *)
Lemma generatePages_trace (apiKey : string) (s : AIGeneratorState)
    (descs : list string) (n : nat) :
  forall (i : nat) (pages : list StoryPage) (texts : list string)
         (st : Run W),
  exists evs,
    trace (snd (generatePages P apiKey s n i pages texts descs st))
    = (trace st ++ evs)%list /\
    pages_trace s n i pages texts
      (fst (generatePages P apiKey s n i pages texts descs st)) evs.
Proof.
  induction n as [|n IH]; intros i pages texts st.
  - exists []. split; [simpl; rewrite List.app_nil_r; reflexivity|constructor].
  - cbn [generatePages]. rewrite bind_emit, bind_call. cbn [world trace].
    destruct (generateStoryText P apiKey (theme s) i (pageCount s) texts
                (textModel s) (world st)) as [[t|e] w1].
    2:{ eexists. split; [cbn [snd trace]; rewrite <- List.app_assoc; reflexivity|].
        cbn [fst]. apply pages_text_failed. }
    rewrite bind_emit, bind_call. cbn [world trace].
    destruct (generateImagePrompt P apiKey (theme s) t descs (textModel s) w1)
      as [[p|e] w2].
    2:{ eexists. split;
          [cbn [snd trace]; rewrite <- !List.app_assoc; reflexivity|].
        cbn [fst]. apply pages_prompt_failed. }
    match goal with |- context [bind (pageImage P apiKey s p) _ ?st0] =>
      destruct (page_tail_run apiKey s p
                  (fun imageData now =>
                     generatePages P apiKey s n (S i)
                       (pages ++ [newPage now i imageData t])%list
                       (texts ++ [t])%list descs) st0)
        as (img & now & w4 & Heq) end.
    cbv beta in Heq. rewrite Heq. cbn [world trace].
    match goal with |- context [generatePages P apiKey s n (S i) ?ps ?ts descs ?st0] =>
      destruct (IH (S i) ps ts st0) as (evs & Htr & Hpt) end.
    exists ([setProgress (writingStory s i);
             called_generateStoryText i (pageCount s) texts (Ok t);
             setProgress (drawingPage s i);
             called_generateImagePrompt t (Ok p);
             called_generateImage p img] ++ evs)%list.
    split.
    + rewrite Htr. cbn [trace]. rewrite <- !List.app_assoc. reflexivity.
    + apply (pages_next s n i pages texts t p img now). exact Hpt.
Qed.

Lemma generatePages_run (apiKey : string) (s : AIGeneratorState)
    (descs : list string) (n i : nat) (pages : list StoryPage)
    (texts : list string) (st : Run W) :
  exists r evs w',
    generatePages P apiKey s n i pages texts descs st
    = (r, {| world := w'; trace := (trace st ++ evs)%list |})
    /\ pages_trace s n i pages texts r evs.
Proof.
  destruct (generatePages_trace apiKey s descs n i pages texts st)
    as (evs & Htr & Hpt).
  destruct (generatePages P apiKey s n i pages texts descs st) as [r [w' tr]].
  cbn [fst snd trace] in *. subst tr. exists r, evs, w'. split; auto.
Qed.

(** The analysis of the reference images never raises. *)
Lemma analyzeBaseImages_loop_ok (apiKey modelName : string)
    (images : list string) :
  forall (descriptions : list string) (w : W),
  exists ds w',
    analyzeBaseImages_loop P apiKey images modelName descriptions w
    = (Ok ds, w').
Proof.
  induction images as [|imageData rest IH]; intros descriptions w.
  - exists descriptions, w. reflexivity.
  - cbn [analyzeBaseImages_loop].
    destruct (match_data_url imageData) as [[mime base64Data]|]; [|apply IH].
    unfold bind at 1. unfold try_catch, bind at 1.
    destruct (GenerativeModel_generateContent P apiKey modelName _ w)
      as [[text|e] w1]; apply IH.
Qed.

Lemma generateBook_run (apiKey : string) (s : AIGeneratorState)
    (st : Run W) :
  exists r evs w',
    generateBook P apiKey s st
    = (r, {| world := w'; trace := (trace st ++ evs)%list |})
    /\ book_trace s r evs.
Proof.
  unfold generateBook.
  assert (Hpre : exists descs w1,
    (if Nat.ltb 0 (length (baseImages s)) then
       let* _ := emit (setProgress (analyzing s)) in
       lift (analyzeBaseImages P apiKey (baseImages s) (textModel s))
     else ret []) st
    = (Ok descs,
       {| world := w1;
          trace := (trace st ++ (if Nat.ltb 0 (length (baseImages s))
                                 then [setProgress (analyzing s)]
                                 else []))%list |})).
  { destruct (Nat.ltb 0 (length (baseImages s))).
    - rewrite bind_emit. unfold lift, analyzeBaseImages. cbn [world trace].
      destruct (analyzeBaseImages_loop_ok apiKey (textModel s) (baseImages s)
                  [] (world st)) as (ds & w1 & ->).
      exists ds, w1. reflexivity.
    - exists [], (world st). unfold ret. rewrite List.app_nil_r.
      destruct st; reflexivity. }
  destruct Hpre as (descs & w1 & Hpre).
  unfold bind at 1. rewrite Hpre.
  unfold bind at 1.
  match goal with |- context [generatePages P apiKey s _ 1 [] [] descs ?st0] =>
    destruct (generatePages_run apiKey s descs (pageCount s) 1 [] [] st0)
      as (r & evs & w2 & -> & Hpt) end.
  cbn [world trace]. destruct r as [pages|e].
  - rewrite bind_emit. cbn [world trace]. unfold bind at 1.
    match goal with |- context [coverImage P apiKey s descs ?st0] =>
      destruct (coverImage_run apiKey s descs st0)
        as (img & cevs & w3 & -> & Hct) end.
    rewrite bind_emit. unfold emit. cbn [world trace].
    eexists (Ok tt), _, w3. split.
    + rewrite <- !List.app_assoc. reflexivity.
    + apply (book_done s pages evs img cevs Hpt Hct).
  - eexists (Throw e), _, w2. split.
    + rewrite <- !List.app_assoc. reflexivity.
    + apply (book_failed s e evs Hpt).
Qed.

(** Every run of [handleGenerate] returns, and its events are those of a
    run. *)
Lemma handleGenerate_run (getApiKey : option string) (s : AIGeneratorState)
    (w : W) :
  exists evs w',
    handleGenerate P getApiKey s (start w)
    = (Ok tt, {| world := w'; trace := evs |})
    /\ run_trace s getApiKey evs.
Proof.
  unfold handleGenerate, start.
  destruct getApiKey as [apiKey|].
  2:{ eexists _, _. split; [reflexivity|]. apply run_no_key. left. reflexivity. }
  destruct (String.eqb apiKey "") eqn:Hk.
  { apply String.eqb_eq in Hk. subst.
    eexists _, _. split; [reflexivity|]. apply run_no_key. right. reflexivity. }
  assert (Hne : apiKey <> "").
  { intros ->. discriminate. }
  destruct (trim_is_empty (theme s)) eqn:Ht.
  { eexists _, _. split; [reflexivity|]. apply run_no_theme; assumption. }
  rewrite !bind_emit. cbn [world trace List.app].
  unfold bind at 1. unfold try_catch.
  match goal with |- context [generateBook P apiKey s ?st0] =>
    destruct (generateBook_run apiKey s st0) as (r & evs & w1 & -> & Hbt) end.
  cbn [trace]. destruct r as [[]|e].
  - unfold emit. cbn [world trace]. eexists _, _. split; [reflexivity|].
    rewrite <- List.app_assoc.
    apply (run_completed s apiKey evs Hne Ht Hbt).
  - unfold bind, log_error, lift, emit. cbn [world trace].
    eexists _, _. split; [reflexivity|].
    rewrite <- !List.app_assoc.
    apply (run_failed s apiKey e evs Hne Ht Hbt).
Qed.

End GenerationFacts.

(* ===================================================================== *)
(** ** Traces of the page loop *)
(* ===================================================================== *)

Lemma snapshots_app (a b : list Event) :
  snapshots (a ++ b) = (snapshots a ++ snapshots b)%list.
Proof.
  induction a as [|[] a IH]; simpl; try exact IH; [reflexivity|].
  rewrite IH. reflexivity.
Qed.

Lemma story_calls_app (a b : list Event) :
  story_calls (a ++ b) = (story_calls a ++ story_calls b)%list.
Proof.
  induction a as [|[] a IH]; simpl; try exact IH; [reflexivity|].
  rewrite IH. reflexivity.
Qed.

Lemma currents_app (a b : list Event) :
  currents (a ++ b) = (currents a ++ currents b)%list.
Proof. unfold currents. rewrite snapshots_app, List.map_app. reflexivity. Qed.

(** The loop neither completes the run nor reports an error. *)
Lemma pages_trace_quiet s n i pages texts r evs :
  pages_trace s n i pages texts r evs ->
  forall ev, In ev evs ->
    match ev with
    | onGenerate _ _ _ | setError _ | setIsGenerating _ => False
    | _ => True
    end.
Proof.
  induction 1 as [| | |n i pages texts t p img now res evs _ IH];
    intros ev Hin; simpl in Hin.
  - contradiction.
  - destruct Hin as [<-|[<-|[]]]; exact I.
  - destruct Hin as [<-|[<-|[<-|[<-|[]]]]]; exact I.
  - destruct Hin as [<-|[<-|[<-|[<-|[<-|Hin]]]]]; try exact I.
    apply IH, Hin.
Qed.

(** A loop that ends well has seen no call of the text model raise. *)
Lemma pages_trace_Ok_text s n i pages texts ps evs :
  pages_trace s n i pages texts (Ok ps) evs ->
  forallb text_call_succeeded evs = true.
Proof.
  remember (Ok ps) as r eqn:Hr. induction 1; try discriminate.
  - reflexivity.
  - simpl. auto.
Qed.

(** A loop that raises has stopped at a call of the text model that raised,
    and raises what that call raised. *)
Lemma pages_trace_Throw_text s n i pages texts e evs :
  pages_trace s n i pages texts (Throw e) evs ->
  forallb text_call_succeeded evs = false /\
  forall j m prev e',
    In (called_generateStoryText j m prev (Throw e')) evs -> e' = e.
Proof.
  remember (Throw e) as r eqn:Hr.
  induction 1 as [| | |n i pages texts t p img now res evs _ IH];
    try discriminate.
  - injection Hr as ->. split; [reflexivity|].
    intros j m prev e' [Hin|[Hin|[]]]; congruence.
  - injection Hr as ->. split; [reflexivity|].
    intros j m prev e' [Hin|[Hin|[Hin|[Hin|[]]]]]; congruence.
  - destruct (IH Hr) as [IH1 IH2]. split; [simpl; exact IH1|].
    intros j m prev e' Hin. simpl in Hin.
    destruct Hin as [Hin|[Hin|[Hin|[Hin|[Hin|Hin]]]]]; try congruence.
    eapply IH2, Hin.
Qed.

(** The calls of [generateStoryText] of the loop are for the pages [i] to
    [i + n - 1], out of [pageCount] pages. *)
Lemma pages_trace_story_index s n i pages texts r evs :
  pages_trace s n i pages texts r evs ->
  forall j m prev o,
    In (called_generateStoryText j m prev o) evs ->
    i <= j < i + n /\ m = pageCount s.
Proof.
  induction 1 as [| | |n i pages texts t p img now res evs _ IH];
    intros j m prev o Hin; simpl in Hin.
  - contradiction.
  - destruct Hin as [Hin|[Hin|[]]]; try discriminate.
    injection Hin as <- <- _ _. split; [lia|reflexivity].
  - destruct Hin as [Hin|[Hin|[Hin|[Hin|[]]]]]; try discriminate.
    injection Hin as <- <- _ _. split; [lia|reflexivity].
  - destruct Hin as [Hin|[Hin|[Hin|[Hin|[Hin|Hin]]]]]; try discriminate.
    + injection Hin as <- <- _ _. split; [lia|reflexivity].
    + destruct (IH j m prev o Hin) as [Hj Hm]. split; [lia|exact Hm].
Qed.

(** The pages a loop that ends well returns: the pages it started from, then
    one page per iteration, whose texts the calls of [generateStoryText]
    returned in order, each call being given the texts before it. *)
Lemma pages_trace_Ok_pages s n i pages texts ps evs :
  pages_trace s n i pages texts (Ok ps) evs ->
  exists new,
    ps = (pages ++ new)%list /\ length new = n /\
    story_calls evs = expected_story_calls (pageCount s) i texts new /\
    (forallb image_call_failed evs = true ->
     Forall (fun p => page_image p = None) new).
Proof.
  remember (Ok ps) as r eqn:Hr.
  induction 1 as [| | |n i pages texts t p img now res evs _ IH];
    try discriminate.
  - injection Hr as ->. exists []. rewrite List.app_nil_r.
    repeat split. constructor.
  - destruct (IH Hr) as (new & -> & Hlen & Hcalls & Himg).
    exists (newPage now i (image_of_outcome img) t :: new).
    rewrite <- List.app_assoc. repeat split.
    + simpl. rewrite Hlen. reflexivity.
    + simpl. rewrite Hcalls. reflexivity.
    + intros Hfail. simpl in Hfail.
      destruct img as [url|e]; [discriminate|].
      constructor; [reflexivity|]. apply Himg, Hfail.
Qed.

Lemma expected_story_calls_lookup (N : nat) (new : list StoryPage) :
  forall (i : nat) (prev : list string) (k : nat) (p : StoryPage),
    new !! k = Some p ->
    expected_story_calls N i prev new !! k
    = Some (called_generateStoryText (i + k) N
              (prev ++ List.map page_text (take k new)) (Ok (page_text p))).
Proof.
  induction new as [|q new IH]; intros i prev k p Hk; [discriminate|].
  destruct k as [|k]; simpl in *.
  - injection Hk as ->. rewrite List.app_nil_r, Nat.add_0_r. reflexivity.
  - rewrite (IH (S i) (prev ++ [page_text q])%list k p Hk).
    rewrite <- List.app_assoc, Nat.add_succ_r. reflexivity.
Qed.

Lemma expected_story_calls_length (N : nat) (new : list StoryPage) :
  forall (i : nat) (prev : list string),
    length (expected_story_calls N i prev new) = length new.
Proof.
  induction new as [|q new IH]; intros i prev; simpl; [reflexivity|].
  rewrite IH. reflexivity.
Qed.

Lemma chain_nil (lo hi : nat) : chain lo hi [].
Proof. split; constructor. Qed.

Lemma chain_cons (lo hi x : nat) (l : list nat) :
  lo <= x -> x <= hi -> chain x hi l -> chain lo hi (x :: l).
Proof.
  intros Hlo Hhi [Hs Hb]. split.
  - constructor; [exact Hs|].
    apply List.Forall_forall. intros c Hc.
    pose proof (proj1 (List.Forall_forall _ _) Hb c Hc). simpl in *. lia.
  - constructor; [lia|].
    apply List.Forall_forall. intros c Hc.
    pose proof (proj1 (List.Forall_forall _ _) Hb c Hc). simpl in *. lia.
Qed.

Lemma chain_weaken (lo hi lo' hi' : nat) (l : list nat) :
  lo' <= lo -> hi <= hi' -> chain lo hi l -> chain lo' hi' l.
Proof.
  intros Hlo Hhi [Hs Hb]. split; [exact Hs|].
  apply List.Forall_forall. intros c Hc.
  pose proof (proj1 (List.Forall_forall _ _) Hb c Hc). simpl in *. lia.
Qed.

Lemma chain_app (a b c d : nat) (l1 l2 : list nat) :
  a <= c -> b <= c -> b <= d ->
  chain a b l1 -> chain c d l2 -> chain a d (l1 ++ l2).
Proof.
  intros Hac Hbc Hbd [Hs1 Hb1] H2. induction l1 as [|x l1 IH].
  - simpl. apply (chain_weaken c d); [lia|lia|exact H2].
  - inversion Hs1 as [|? ? Hs1' Hx]; subst.
    inversion Hb1 as [|? ? Hxb Hb1']; subst.
    specialize (IH Hs1' Hb1'). destruct IH as [IHs IHb].
    split; simpl.
    + constructor; [exact IHs|].
      apply List.Forall_app. split; [exact Hx|].
      destruct H2 as [_ Hb2].
      apply List.Forall_forall. intros y Hy.
      pose proof (proj1 (List.Forall_forall _ _) Hb2 y Hy). simpl in *. lia.
    + constructor; [lia|exact IHb].
Qed.

(** The snapshots of the loop: their [current] fields do not decrease and
    are page indices of the loop; their [total] is [pageCount + 2]. *)
Lemma pages_trace_progress s n i pages texts r evs :
  pages_trace s n i pages texts r evs ->
  chain i (i + n - 1) (currents evs) /\
  Forall (fun p => total p = pageCount s + 2) (snapshots evs).
Proof.
  induction 1 as [| | |n i pages texts t p img now res evs _ [IHc IHt]];
    unfold currents in *; simpl.
  - split; [apply chain_nil|constructor].
  - split; [|repeat constructor].
    apply chain_cons; [lia|lia|apply chain_nil].
  - split; [|repeat constructor].
    apply chain_cons; [lia|lia|].
    apply chain_cons; [lia|lia|apply chain_nil].
  - split.
    + apply chain_cons; [lia|lia|].
      apply chain_cons; [lia|lia|].
      apply (chain_weaken (S i) (S i + n - 1)); [lia|lia|exact IHc].
    + repeat constructor. exact IHt.
Qed.

Lemma cover_trace_silent s img evs :
  cover_trace s img evs ->
  snapshots evs = [] /\ story_calls evs = [] /\
  forall t c ps, ~ In (onGenerate t c ps) evs.
Proof.
  destruct 1; repeat split; intros t c ps Hin; simpl in Hin;
    intuition discriminate.
Qed.

(** A run whose [try] block raised: no book is handed over, and a call of
    [generateStoryText] that raised is the one that ended the run. *)
Lemma book_trace_Throw s e evs :
  book_trace s (Throw e) evs ->
  (forall t c ps, ~ In (onGenerate t c ps) evs) /\
  (forall j m prev e',
     In (called_generateStoryText j m prev (Throw e')) evs ->
     e' = e /\ 1 <= j <= pageCount s) /\
  forallb text_call_succeeded evs = false.
Proof.
  inversion 1 as [e0 pevs Hpt|]; subst. split; [|split].
  - intros t c ps Hin. apply List.in_app_iff in Hin as [Hin|Hin].
    + destruct (Nat.ltb 0 (length (baseImages s))); simpl in Hin;
        intuition discriminate.
    + apply (pages_trace_quiet _ _ _ _ _ _ _ Hpt) in Hin. exact Hin.
  - intros j m prev e' Hin. apply List.in_app_iff in Hin as [Hin|Hin].
    + destruct (Nat.ltb 0 (length (baseImages s))); simpl in Hin;
        intuition discriminate.
    + split.
      * eapply (proj2 (pages_trace_Throw_text _ _ _ _ _ _ _ Hpt)), Hin.
      * pose proof (pages_trace_story_index _ _ _ _ _ _ _ Hpt _ _ _ _ Hin).
        lia.
  - rewrite List.forallb_app.
    rewrite (proj1 (pages_trace_Throw_text _ _ _ _ _ _ _ Hpt)).
    apply Bool.andb_false_r.
Qed.

(** A run whose [try] block completed: every call of [generateStoryText]
    returned, and the one book handed over holds the pages of the loop. *)
Lemma book_trace_Ok s evs :
  book_trace s (Ok tt) evs ->
  exists pages pevs cover cevs,
    pages_trace s (pageCount s) 1 [] [] (Ok pages) pevs /\
    cover_trace s cover cevs /\
    story_calls evs = story_calls pevs /\
    snapshots evs
    = ((if Nat.ltb 0 (length (baseImages s)) then [analyzing s] else [])
       ++ snapshots pevs ++ [drawingCover s; completed s])%list /\
    In (onGenerate (theme s)
          {| cover_image := cover; cover_imageScale := Finite 1 |} pages) evs /\
    (forall t c ps,
       In (onGenerate t c ps) evs ->
       t = theme s /\ ps = pages /\
       c = {| cover_image := cover; cover_imageScale := Finite 1 |}) /\
    (forallb image_call_failed evs = true ->
     forallb image_call_failed pevs = true
     /\ forallb image_call_failed cevs = true) /\
    (forallb text_call_succeeded evs = true ->
     forallb text_call_succeeded cevs = true).
Proof.
  inversion 1 as [|pages pevs cover cevs Hpt Hct]; subst.
  exists pages, pevs, cover, cevs.
  destruct (cover_trace_silent _ _ _ Hct) as (Hcs & Hcc & Hcg).
  split; [exact Hpt|]. split; [exact Hct|].
  split; [|split; [|split; [|split; [|split]]]].
  - rewrite !story_calls_app, Hcc.
    destruct (Nat.ltb 0 (length (baseImages s))); simpl;
      rewrite List.app_nil_r; reflexivity.
  - rewrite !snapshots_app, Hcs.
    destruct (Nat.ltb 0 (length (baseImages s))); reflexivity.
  - rewrite !List.in_app_iff. right. right. right. right. right. left.
    reflexivity.
  - intros t c ps Hin. rewrite !List.in_app_iff in Hin.
    destruct Hin as [Hin|[Hin|[Hin|[Hin|Hin]]]].
    + destruct (Nat.ltb 0 (length (baseImages s))); simpl in Hin;
        intuition discriminate.
    + apply (pages_trace_quiet _ _ _ _ _ _ _ Hpt) in Hin. contradiction.
    + simpl in Hin. intuition discriminate.
    + apply Hcg in Hin. contradiction.
    + simpl in Hin. destruct Hin as [Hin|[Hin|[]]]; [discriminate|].
      injection Hin as <- <- <-. auto.
  - rewrite !List.forallb_app, !Bool.andb_true_iff. tauto.
  - rewrite !List.forallb_app, !Bool.andb_true_iff. tauto.
Qed.

(* ===================================================================== *)
(** ** Traces of a run *)
(* ===================================================================== *)

Lemma In_story_calls (ev : Event) (evs : list Event) :
  In ev (story_calls evs) ->
  In ev evs.
Proof.
  induction evs as [|[] evs IH]; simpl; tauto.
Qed.

Lemma story_calls_In (j m : nat) (prev : list string) (o : Result string)
    (evs : list Event) :
  In (called_generateStoryText j m prev o) evs ->
  In (called_generateStoryText j m prev o) (story_calls evs).
Proof.
  induction evs as [|ev evs IH]; simpl; [tauto|].
  intros [H|H].
  - subst ev. left. reflexivity.
  - destruct ev; try (apply IH, H). right. apply IH, H.
Qed.

Lemma chain_bounds (lo hi T : nat) (l : list GenerationProgress) :
  chain lo hi (List.map current l) ->
  Forall (fun p => total p = T) l ->
  hi <= T ->
  Forall (fun p => current p <= total p) l.
Proof.
  intros [_ Hb] Ht Hhi. induction l as [|p l IH]; [constructor|].
  inversion Hb; subst. inversion Ht; subst. constructor; [lia|].
  apply IH; assumption.
Qed.

(** The snapshots of the [try] block. *)
Lemma book_trace_progress s r evs :
  book_trace s r evs ->
  chain 0 (pageCount s + 2) (currents evs) /\
  Forall (fun p => total p = pageCount s + 2) (snapshots evs) /\
  (r = Ok tt -> last (snapshots evs) = Some (completed s)).
Proof.
  inversion 1 as [e pevs Hpt|pages pevs cover cevs Hpt Hct]; subst.
  - destruct (pages_trace_progress _ _ _ _ _ _ _ Hpt) as [Hc Ht].
    rewrite currents_app, snapshots_app. split; [|split; [|discriminate]].
    + apply (chain_app 0 0 1 (pageCount s + 2)); [lia|lia|lia| |].
      * destruct (Nat.ltb 0 (length (baseImages s)));
          [apply chain_cons; [lia|simpl; lia|apply chain_nil]|apply chain_nil].
      * apply (chain_weaken 1 (1 + pageCount s - 1)); [lia|lia|exact Hc].
    + apply List.Forall_app. split; [|exact Ht].
      destruct (Nat.ltb 0 (length (baseImages s))); repeat constructor.
  - destruct (pages_trace_progress _ _ _ _ _ _ _ Hpt) as [Hc Ht].
    destruct (cover_trace_silent _ _ _ Hct) as (Hcs & _ & _).
    unfold currents. rewrite !snapshots_app, Hcs. cbn [snapshots List.app].
    rewrite !List.map_app. split; [|split].
    + apply (chain_app 0 0 1 (pageCount s + 2)); [lia|lia|lia| |].
      * destruct (Nat.ltb 0 (length (baseImages s)));
          [apply chain_cons; [lia|simpl; lia|apply chain_nil]|apply chain_nil].
      * apply (chain_app 1 (pageCount s) (pageCount s + 1) (pageCount s + 2));
          [lia|lia|lia| |].
        -- apply (chain_weaken 1 (1 + pageCount s - 1)); [lia|lia|exact Hc].
        -- simpl. apply chain_cons; [lia|lia|].
           apply chain_cons; [lia|lia|apply chain_nil].
    + apply List.Forall_app. split;
        [destruct (Nat.ltb 0 (length (baseImages s))); repeat constructor|].
      apply List.Forall_app. split; [exact Ht|repeat constructor].
    + intros _. rewrite !last_app. reflexivity.
Qed.

(** The snapshots of a run do not decrease in [current], which never exceeds
    [total]; a run that hands a book over ends them with the final one. *)
Lemma run_trace_progress s k evs :
  run_trace s k evs ->
  StronglySorted le (currents evs) /\
  Forall (fun p => current p <= total p) (snapshots evs) /\
  (forall t c ps,
     In (onGenerate t c ps) evs -> last (snapshots evs) = Some (completed s)).
Proof.
  inversion 1 as [k0 Hk|apiKey Hk Ht|apiKey e bevs Hk Ht Hbt
                 |apiKey bevs Hk Ht Hbt]; subst.
  - repeat split; try constructor. intros t c ps [Hin|[]]. discriminate.
  - repeat split; try constructor. intros t c ps [Hin|[]]. discriminate.
  - destruct (book_trace_progress _ _ _ Hbt) as (Hc & Htot & _).
    destruct (book_trace_Throw _ _ _ Hbt) as (Hno & _ & _).
    assert (Hchain : chain 0 (pageCount s + 2)
              (currents ([setIsGenerating true; setError None;
                          setProgress (preparing s)] ++ bevs ++
                         [setError (Some (message_or e
                            "AI生成中にエラーが発生しました"));
                          setIsGenerating false]))).
    { rewrite !currents_app. unfold currents at 1 3. cbn [snapshots List.map].
      rewrite List.app_nil_r. simpl.
      apply chain_cons; [lia|lia|exact Hc]. }
    split; [exact (proj1 Hchain)|]. split.
    + apply (chain_bounds 0 (pageCount s + 2) (pageCount s + 2));
        [exact Hchain| |lia].
      rewrite !snapshots_app. cbn [snapshots]. rewrite List.app_nil_r. simpl.
      constructor; [reflexivity|exact Htot].
    + intros t c ps Hin. exfalso. simpl in Hin.
      destruct Hin as [Hin|[Hin|[Hin|Hin]]]; try discriminate.
      apply List.in_app_iff in Hin as [Hin|Hin]; [exact (Hno _ _ _ Hin)|].
      simpl in Hin. intuition discriminate.
  - destruct (book_trace_progress _ _ _ Hbt) as (Hc & Htot & Hlast).
    assert (Hchain : chain 0 (pageCount s + 2)
              (currents ([setIsGenerating true; setError None;
                          setProgress (preparing s)] ++ bevs ++
                         [setIsGenerating false]))).
    { rewrite !currents_app. unfold currents at 1 3. cbn [snapshots List.map].
      rewrite List.app_nil_r. simpl.
      apply chain_cons; [lia|lia|exact Hc]. }
    split; [exact (proj1 Hchain)|]. split.
    + apply (chain_bounds 0 (pageCount s + 2) (pageCount s + 2));
        [exact Hchain| |lia].
      rewrite !snapshots_app. cbn [snapshots]. rewrite List.app_nil_r. simpl.
      constructor; [reflexivity|exact Htot].
    + intros t c ps _. rewrite !snapshots_app. cbn [snapshots].
      rewrite List.app_nil_r. cbn [List.app]. rewrite last_cons.
      rewrite (Hlast eq_refl). reflexivity.
Qed.

(** A call of [generateStoryText] that raised ends the run: no book is handed
    over, the message of the error is reported, and the run is closed. *)
Lemma run_trace_text_failure s k evs i m prev e :
  run_trace s k evs ->
  In (called_generateStoryText i m prev (Throw e)) evs ->
  1 <= i <= pageCount s /\
  (forall t c ps, ~ In (onGenerate t c ps) evs) /\
  In (setError (Some (message_or e "AI生成中にエラーが発生しました"))) evs /\
  last evs = Some (setIsGenerating false).
Proof.
  inversion 1 as [k0 Hk|apiKey Hk Ht|apiKey e0 bevs Hk Ht Hbt
                 |apiKey bevs Hk Ht Hbt]; subst; intros Hin.
  - destruct Hin as [Hin|[]]. discriminate.
  - destruct Hin as [Hin|[]]. discriminate.
  - destruct (book_trace_Throw _ _ _ Hbt) as (Hno & Hst & _).
    simpl in Hin. destruct Hin as [Hin|[Hin|[Hin|Hin]]]; try discriminate.
    apply List.in_app_iff in Hin as [Hin|Hin];
      [|simpl in Hin; intuition discriminate].
    destruct (Hst _ _ _ _ Hin) as [-> Hi].
    split; [exact Hi|]. split; [|split].
    + intros t c ps Hg. simpl in Hg.
      destruct Hg as [Hg|[Hg|[Hg|Hg]]]; try discriminate.
      apply List.in_app_iff in Hg as [Hg|Hg]; [exact (Hno _ _ _ Hg)|].
      simpl in Hg. intuition discriminate.
    + rewrite !List.in_app_iff. right. right. left. reflexivity.
    + rewrite !last_app. reflexivity.
  - exfalso.
    destruct (book_trace_Ok _ _ Hbt)
      as (pages & pevs & cover & cevs & Hpt & _ & Hsc & _).
    simpl in Hin. destruct Hin as [Hin|[Hin|[Hin|Hin]]]; try discriminate.
    apply List.in_app_iff in Hin as [Hin|Hin];
      [|simpl in Hin; intuition discriminate].
    apply story_calls_In in Hin. rewrite Hsc in Hin.
    apply In_story_calls in Hin.
    pose proof (pages_trace_Ok_text _ _ _ _ _ _ _ Hpt) as Hok.
    rewrite List.forallb_forall in Hok. specialize (Hok _ Hin).
    discriminate.
Qed.

(** When every call of [generateImage] raised and every call of the text
    model returned, the run hands over a book of [pageCount] pages, none of
    which has an image, under a cover without image, and reports no error. *)
Lemma run_trace_images_fail s apiKey evs :
  run_trace s (Some apiKey) evs ->
  apiKey <> "" ->
  trim_is_empty (theme s) = false ->
  forallb image_call_failed evs = true ->
  forallb text_call_succeeded evs = true ->
  exists ps,
    In (onGenerate (theme s)
          {| cover_image := None; cover_imageScale := Finite 1 |} ps) evs /\
    length ps = pageCount s /\
    Forall (fun p => page_image p = None) ps /\
    (forall m, ~ In (setError (Some m)) evs).
Proof.
  inversion 1 as [k0 Hk|apiKey0 Hk Ht|apiKey0 e0 bevs Hk Ht Hbt
                 |apiKey0 bevs Hk Ht Hbt]; subst; intros Hne Htheme Himg Htxt.
  - destruct Hk as [Hk|Hk]; [discriminate|]. injection Hk as ->. contradiction.
  - congruence.
  - exfalso. destruct (book_trace_Throw _ _ _ Hbt) as (_ & _ & Hf).
    rewrite !List.forallb_app, !Bool.andb_true_iff in Htxt.
    destruct Htxt as (_ & Hb & _). congruence.
  - destruct (book_trace_Ok _ _ Hbt)
      as (pages & pevs & cover & cevs & Hpt & Hct & _ & _ & Hin & Honly
          & Hi & Ht').
    rewrite !List.forallb_app, !Bool.andb_true_iff in Himg, Htxt.
    destruct Himg as (_ & Himg & _). destruct Htxt as (_ & Htxt & _).
    destruct (Hi Himg) as [Hip Hic]. specialize (Ht' Htxt).
    destruct (pages_trace_Ok_pages _ _ _ _ _ _ _ Hpt)
      as (new & Hps & Hlen & _ & Hnone).
    simpl in Hps. subst pages.
    assert (Hcover : cover = None).
    { destruct Hct as [e|p img]; [reflexivity|].
      destruct img as [url|e]; [simpl in Hic; discriminate|reflexivity]. }
    subst cover. exists new. split; [|split; [exact Hlen|split]].
    + rewrite !List.in_app_iff. right. left. exact Hin.
    + apply Hnone, Hip.
    + intros m Hm. simpl in Hm.
      destruct Hm as [Hm|[Hm|[Hm|Hm]]]; try discriminate.
      apply List.in_app_iff in Hm as [Hm|Hm];
        [|simpl in Hm; intuition discriminate].
      inversion Hbt as [|pages' pevs' cover' cevs' Hpt' Hct']; subst.
      rewrite !List.in_app_iff in Hm.
      destruct Hm as [Hm|[Hm|[Hm|[Hm|Hm]]]].
      * destruct (Nat.ltb 0 (length (baseImages s))); simpl in Hm;
          intuition discriminate.
      * apply (pages_trace_quiet _ _ _ _ _ _ _ Hpt') in Hm. exact Hm.
      * simpl in Hm. intuition discriminate.
      * destruct Hct'; simpl in Hm; intuition discriminate.
      * simpl in Hm. intuition discriminate.
Qed.

(** A run that hands a book over hands over [pageCount] pages under the
    theme as title, and its calls of [generateStoryText] are those that
    produce the texts of these pages in order. *)
Lemma run_trace_success s k evs t c ps :
  run_trace s k evs ->
  In (onGenerate t c ps) evs ->
  t = theme s /\ length ps = pageCount s /\
  story_calls evs = expected_story_calls (pageCount s) 1 [] ps.
Proof.
  inversion 1 as [k0 Hk|apiKey Hk Ht|apiKey e0 bevs Hk Ht Hbt
                 |apiKey bevs Hk Ht Hbt]; subst; intros Hin.
  - destruct Hin as [Hin|[]]. discriminate.
  - destruct Hin as [Hin|[]]. discriminate.
  - exfalso. destruct (book_trace_Throw _ _ _ Hbt) as (Hno & _ & _).
    simpl in Hin. destruct Hin as [Hin|[Hin|[Hin|Hin]]]; try discriminate.
    apply List.in_app_iff in Hin as [Hin|Hin]; [exact (Hno _ _ _ Hin)|].
    simpl in Hin. intuition discriminate.
  - destruct (book_trace_Ok _ _ Hbt)
      as (pages & pevs & cover & cevs & Hpt & _ & Hsc & _ & _ & Honly & _).
    simpl in Hin. destruct Hin as [Hin|[Hin|[Hin|Hin]]]; try discriminate.
    apply List.in_app_iff in Hin as [Hin|Hin];
      [|simpl in Hin; intuition discriminate].
    destruct (Honly _ _ _ Hin) as (-> & -> & _).
    destruct (pages_trace_Ok_pages _ _ _ _ _ _ _ Hpt)
      as (new & Hps & Hlen & Hcalls & _).
    simpl in Hps. subst pages. split; [reflexivity|]. split; [exact Hlen|].
    rewrite !story_calls_app. cbn [story_calls List.app].
    rewrite List.app_nil_r, Hsc. exact Hcalls.
Qed.

(* ===================================================================== *)
(** ** The generation client and the pipeline: the claims *)
(* ===================================================================== *)

Lemma first_inline_image_shape (ps : list Part) (url : string) :
  first_inline_image ps = Some url ->
  exists mime payload,
    url = "data:" +:+ mime +:+ ";base64," +:+ payload /\ mime <> "".
Proof.
  induction ps as [|part rest IH]; simpl; [discriminate|].
  destruct (inlineData part) as [d|]; [|exact IH].
  intros H. injection H as <-.
  destruct (mimeType d) as [m|].
  - destruct (String.eqb m "") eqn:E.
    + eexists "image/png", _. split; [reflexivity|discriminate].
    + exists m. eexists. split; [reflexivity|].
      intros ->. discriminate.
  - eexists "image/png", _. split; [reflexivity|discriminate].
Qed.

Section PipelineClaims.
Context {W : Type} (P : Platform W).

(** C1. If, in a generation run, the call of the text-generation operation
    for a page [i] raises, then [i] is one of the pages [1] to [pageCount],
    the run hands no book over (the completion callback is not invoked, no
    pages are returned), the message of the error is surfaced through
    [setError], and the run ends. *)
Theorem text_failure_fails_the_run (getApiKey : option string)
    (s : AIGeneratorState) (w : W) (i m : nat) (prev : list string)
    (e : Thrown) :
  let out := handleGenerate P getApiKey s (start w) in
  In (called_generateStoryText i m prev (Throw e)) (trace (snd out)) ->
  1 <= i <= pageCount s /\
  fst out = Ok tt /\
  (forall t c ps, ~ In (onGenerate t c ps) (trace (snd out))) /\
  In (setError (Some (message_or e "AI生成中にエラーが発生しました")))
     (trace (snd out)) /\
  last (trace (snd out)) = Some (setIsGenerating false).
Proof.
  destruct (handleGenerate_run P getApiKey s w) as (evs & w' & Hrun & Htr).
  cbv zeta. rewrite Hrun. cbn [fst snd trace]. intros Hin.
  destruct (run_trace_text_failure s getApiKey evs i m prev e Htr Hin)
    as (Hi & Hno & Herr & Hlast).
  repeat split; try assumption; lia.
Qed.

(** C2. In a generation run (with an API key and a theme) in which every
    call of the image-generation operation raises, while the calls of the
    text model return, the run completes: it hands over exactly
    [pageCount] pages, each without image, and a cover without image, and
    reports no error. *)
Theorem image_failures_are_not_fatal (apiKey : string)
    (s : AIGeneratorState) (w : W) :
  apiKey <> "" ->
  trim_is_empty (theme s) = false ->
  let out := handleGenerate P (Some apiKey) s (start w) in
  forallb image_call_failed (trace (snd out)) = true ->
  forallb text_call_succeeded (trace (snd out)) = true ->
  fst out = Ok tt /\
  exists ps,
    In (onGenerate (theme s)
          {| cover_image := None; cover_imageScale := Finite 1 |} ps)
       (trace (snd out)) /\
    length ps = pageCount s /\
    Forall (fun p => page_image p = None) ps /\
    (forall m, ~ In (setError (Some m)) (trace (snd out))).
Proof.
  intros Hk Ht.
  destruct (handleGenerate_run P (Some apiKey) s w)
    as (evs & w' & Hrun & Htr).
  cbv zeta. rewrite Hrun. cbn [fst snd trace]. intros Himg Htxt.
  split; [reflexivity|].
  exact (run_trace_images_fail s apiKey evs Htr Hk Ht Himg Htxt).
Qed.

(** C3 (amended). A generation run that completes hands over exactly
    [pageCount] pages, in the order of their creation: there are exactly
    [pageCount] calls of the text-generation operation, the call number
    [k + 1] is for page [k + 1], it is given exactly the texts of the pages
    [1] to [k] as prior context, and the text of page [k + 1] is the string
    it returned, whatever that string is. *)
Theorem completed_run_pages (getApiKey : option string)
    (s : AIGeneratorState) (w : W) (t : string) (c : CoverData)
    (ps : list StoryPage) :
  let tr := trace (snd (handleGenerate P getApiKey s (start w))) in
  In (onGenerate t c ps) tr ->
  length ps = pageCount s /\
  length (story_calls tr) = pageCount s /\
  forall k p,
    ps !! k = Some p ->
    story_calls tr !! k
    = Some (called_generateStoryText (S k) (pageCount s)
              (List.map page_text (take k ps)) (Ok (page_text p))).
Proof.
  destruct (handleGenerate_run P getApiKey s w) as (evs & w' & Hrun & Htr).
  cbv zeta. rewrite Hrun. cbn [snd trace]. intros Hin.
  destruct (run_trace_success s getApiKey evs t c ps Htr Hin)
    as (_ & Hlen & Hcalls).
  split; [exact Hlen|]. rewrite Hcalls. split.
  - rewrite expected_story_calls_length. exact Hlen.
  - intros k p Hk.
    rewrite (expected_story_calls_lookup (pageCount s) ps 1 [] k p Hk).
    reflexivity.
Qed.

(** C4. In every generation run, the progress snapshots delivered to the
    observer never decrease in [current], [current] never exceeds [total],
    and when the run completes the last snapshot has
    [current = total = pageCount + 2]. *)
Theorem progress_is_monotone (getApiKey : option string)
    (s : AIGeneratorState) (w : W) :
  let tr := trace (snd (handleGenerate P getApiKey s (start w))) in
  StronglySorted le (currents tr) /\
  Forall (fun p => current p <= total p) (snapshots tr) /\
  (forall t c ps,
     In (onGenerate t c ps) tr ->
     exists p, last (snapshots tr) = Some p /\
               current p = pageCount s + 2 /\ total p = pageCount s + 2).
Proof.
  destruct (handleGenerate_run P getApiKey s w) as (evs & w' & Hrun & Htr).
  cbv zeta. rewrite Hrun. cbn [snd trace].
  destruct (run_trace_progress s getApiKey evs Htr) as (Hs & Hb & Hl).
  split; [exact Hs|]. split; [exact Hb|].
  intros t c ps Hin. exists (completed s). split; [eapply Hl, Hin|].
  split; reflexivity.
Qed.

(** C5 (amended). The image-generation operation returns an encoded image
    (a data URL made of a mime type and a payload) when the reply of the
    model carries one, and signals every failure by raising: a rejected
    request raises what the request raised, and a reply without an inline
    image raises an error.  It is its caller in the page loop that turns a
    raised error into a null image. *)
Theorem generateImage_returns_or_raises (apiKey prompt modelName : string)
    (w : W) :
  (forall e w',
     GoogleGenAI_models_generateContent P apiKey
       (imageModelConfig prompt modelName) w = (Throw e, w') ->
     generateImage P apiKey prompt modelName w = (Throw e, w'))
  /\ (forall response w',
        GoogleGenAI_models_generateContent P apiKey
          (imageModelConfig prompt modelName) w = (Ok response, w') ->
        inline_image_of response = None ->
        generateImage P apiKey prompt modelName w
        = (Throw (Error "画像データが見つかりません"), w'))
  /\ (forall response w' url,
        GoogleGenAI_models_generateContent P apiKey
          (imageModelConfig prompt modelName) w = (Ok response, w') ->
        inline_image_of response = Some url ->
        generateImage P apiKey prompt modelName w = (Ok url, w') /\
        exists mime payload,
          url = "data:" +:+ mime +:+ ";base64," +:+ payload /\ mime <> "")
  /\ (forall (s : AIGeneratorState) (st : Run W),
        fst (pageImage P apiKey s prompt st)
        = Ok (image_of_outcome
                (fst (generateImage P apiKey prompt (imageModel s)
                        (world st))))).
Proof.
  split; [|split; [|split]].
  - intros e w' H. unfold generateImage, bind. rewrite H. reflexivity.
  - intros response w' H Hnone. unfold generateImage, bind.
    rewrite H, Hnone. reflexivity.
  - intros response w' url H Hsome. unfold generateImage, bind.
    rewrite H, Hsome. split; [reflexivity|].
    unfold inline_image_of in Hsome.
    destruct (first_candidate_parts response) as [ps|]; [|discriminate].
    exact (first_inline_image_shape ps url Hsome).
  - intros s st. unfold pageImage, try_catch. rewrite bind_call.
    destruct (generateImage P apiKey prompt (imageModel s) (world st))
      as [[url|e] w1]; reflexivity.
Qed.

End PipelineClaims.

(* ===================================================================== *)
(** ** The claims on concrete inputs *)
(* ===================================================================== *)

Ltac in_list := vm_compute; repeat (first [left; reflexivity | right]).

Lemma export_import_roundtrip_witness :
  valid_Book book_x = true /\
  exists d,
    fst (downloadSingleBook scripted book_x world_z) = Ok d /\
    uploadSingleBook scripted (file_of_download d) [] world_y
    = (Ok {| si_books := [Book_to_value book_x];
             importedBook := Book_to_value book_x |}, world_y).
Proof.
  split; [reflexivity|].
  apply (export_import_roundtrip scripted book_x world_z world_y).
  reflexivity.
Defined.

Lemma text_failure_fails_the_run_witness :
  let out := handleGenerate scripted (Some "key") generator3
               (start world_text_fails) in
  In (called_generateStoryText 2 3 ["text 1"]
        (Throw (Error "503 Service Unavailable"))) (trace (snd out)) /\
  (forall t c ps, ~ In (onGenerate t c ps) (trace (snd out))) /\
  In (setError (Some "503 Service Unavailable")) (trace (snd out)).
Proof.
  assert (Hin : In (called_generateStoryText 2 3 ["text 1"]
                      (Throw (Error "503 Service Unavailable")))
                   (trace (snd (handleGenerate scripted (Some "key") generator3
                                  (start world_text_fails)))))
    by in_list.
  pose proof (text_failure_fails_the_run scripted (Some "key") generator3
                world_text_fails 2 3 ["text 1"]
                (Error "503 Service Unavailable") Hin)
    as (_ & _ & Hno & Herr & _).
  split; [exact Hin|]. split; [exact Hno|exact Herr].
Defined.

Lemma image_failures_are_not_fatal_witness :
  let out := handleGenerate scripted (Some "key") generator2
               (start world_no_images) in
  exists ps,
    In (onGenerate "rabbit"
          {| cover_image := None; cover_imageScale := Finite 1 |} ps)
       (trace (snd out)) /\
    length ps = 2 /\
    Forall (fun p => page_image p = None) ps.
Proof.
  destruct (image_failures_are_not_fatal scripted "key" generator2
              world_no_images)
    as (_ & ps & Hin & Hlen & Hnone & _).
  - discriminate.
  - reflexivity.
  - vm_compute. reflexivity.
  - vm_compute. reflexivity.
  - exists ps. split; [exact Hin|]. split; [exact Hlen|exact Hnone].
Defined.

Lemma completed_run_pages_witness :
  let tr := trace (snd (handleGenerate scripted (Some "key") generator2
                          (start world_no_images))) in
  let ps := [newPage 11 1 None "text 1"; newPage 12 2 None "text 2"] in
  In (onGenerate "rabbit"
        {| cover_image := None; cover_imageScale := Finite 1 |} ps) tr /\
  length (story_calls tr) = 2 /\
  story_calls tr !! 1
  = Some (called_generateStoryText 2 2 ["text 1"] (Ok "text 2")).
Proof.
  cbv zeta.
  assert (Hin : In (onGenerate "rabbit"
                      {| cover_image := None; cover_imageScale := Finite 1 |}
                      [newPage 11 1 None "text 1"; newPage 12 2 None "text 2"])
                   (trace (snd (handleGenerate scripted (Some "key") generator2
                                  (start world_no_images)))))
    by in_list.
  pose proof (completed_run_pages scripted (Some "key") generator2
                world_no_images _ _ _ Hin) as (_ & Hcalls & Hlookup).
  split; [exact Hin|]. split; [exact Hcalls|].
  exact (Hlookup 1 (newPage 12 2 None "text 2") eq_refl).
Defined.

Lemma progress_is_monotone_witness :
  let tr := trace (snd (handleGenerate scripted (Some "key") generator2
                          (start world_no_images))) in
  StronglySorted le (currents tr) /\
  Forall (fun p => current p <= total p) (snapshots tr) /\
  exists p, last (snapshots tr) = Some p /\ current p = 4 /\ total p = 4.
Proof.
  cbv zeta.
  pose proof (progress_is_monotone scripted (Some "key") generator2
                world_no_images) as (Hs & Hb & Hl).
  split; [exact Hs|]. split; [exact Hb|].
  apply (Hl "rabbit" {| cover_image := None; cover_imageScale := Finite 1 |}
            [newPage 11 1 None "text 1"; newPage 12 2 None "text 2"]).
  in_list.
Defined.

Lemma generateImage_returns_or_raises_witness :
  generateImage scripted "key" "a rabbit" "gemini-2.5-flash-image"
    (script [] [] [] [Ok (image_reply "image/jpeg" "QUJD")])
  = (Ok "data:image/jpeg;base64,QUJD", script [] [] [] []).
Proof.
  pose proof (generateImage_returns_or_raises scripted "key" "a rabbit"
                "gemini-2.5-flash-image"
                (script [] [] [] [Ok (image_reply "image/jpeg" "QUJD")]))
    as (_ & _ & Hok & _).
  apply (Hok (image_reply "image/jpeg" "QUJD") (script [] [] [] [])
             "data:image/jpeg;base64,QUJD"); reflexivity.
Defined.

Lemma merge_import_of_one_book_witness :
  validateBook (Book_to_value book_x) = true /\
  In (VStr "x") (book_ids [Book_to_value book_x]) /\
  uploadBookshelf scripted
    (FileOf (JSONText (bookshelf_doc [Book_to_value book_x])))
    [Book_to_value book_x] merge world_z
  = (Ok {| bi_books :=
             [Book_to_value book_x;
              spread_with_id (Book_to_value book_x) "1700000003000k3v9"];
           importedCount := 1 |}, script [] [] [] []).
Proof.
  split; [reflexivity|]. split; [left; reflexivity|].
  destruct (merge_import_of_one_book scripted
              (bookshelf_doc [Book_to_value book_x]) (Book_to_value book_x) "x"
              [Book_to_value book_x] world_z) as [Hcollide _].
  - reflexivity.
  - reflexivity.
  - reflexivity.
  - repeat constructor.
  - destruct (Hcollide (or_introl eq_refl) 1700000003000%Z
                (script [] ["k3v9"] [] []) "k3v9" (script [] [] [] [])
                eq_refl eq_refl) as (Hres & _).
    exact Hres.
Defined.

Lemma additions_keep_ids_unique_witness :
  unique_ids (books app_x) /\
  exists st' w',
    handleSaveBook scripted app_x world_z = (Ok st', w') /\
    length (books st') = 2 /\ unique_ids (books st').
Proof.
  assert (Hu : unique_ids (books app_x)).
  { repeat constructor. intros []. }
  split; [exact Hu|].
  destruct (additions_keep_ids_unique scripted app_x world_z Hu)
    as (Hsave & _).
  apply Hsave; [reflexivity|].
  intros [H|[]]. discriminate.
Defined.

Lemma import_keeps_exactly_valid_candidates_witness :
  getprop (bookshelf_doc [VNull; Book_to_value book_x; VObj [("id", VStr "z")]])
    "books"
  = Ok (VArr [VNull; Book_to_value book_x; VObj [("id", VStr "z")]]) /\
  uploadBookshelf scripted
    (FileOf (JSONText
       (bookshelf_doc [VNull; Book_to_value book_x; VObj [("id", VStr "z")]])))
    [] replace world_z
  = (Ok {| bi_books := [Book_to_value book_x]; importedCount := 1 |}, world_z).
Proof.
  split; [reflexivity|].
  destruct (import_keeps_exactly_valid_candidates scripted
              (bookshelf_doc [VNull; Book_to_value book_x;
                              VObj [("id", VStr "z")]])
              [VNull; Book_to_value book_x; VObj [("id", VStr "z")]]
              [] world_z eq_refl) as (Hvalid & _).
  destruct Hvalid as [Hrep _]; [discriminate|exact Hrep].
Defined.

Lemma single_import_reads_first_of_books_witness :
  assoc "book" [("version", VStr "1.0");
                ("books", VArr [Book_to_value book_x; Book_to_value book_y])]
  = None /\
  In (prop (Book_to_value book_x) "id") (book_ids [Book_to_value book_x]) /\
  uploadSingleBook scripted
    (FileOf (JSONText
       (VObj [("version", VStr "1.0");
              ("books", VArr [Book_to_value book_x; Book_to_value book_y])])))
    [Book_to_value book_x] world_z
  = (Ok {| si_books :=
             [spread_with_id (Book_to_value book_x) "1700000003000k3v9";
              Book_to_value book_x];
           importedBook :=
             spread_with_id (Book_to_value book_x) "1700000003000k3v9" |},
     script [] [] [] []) /\
  prop (spread_with_id (Book_to_value book_x) "1700000003000k3v9") "id"
  = VStr "1700000003000k3v9".
Proof.
  assert (Hin : In (prop (Book_to_value book_x) "id")
                   (book_ids [Book_to_value book_x]))
    by (left; reflexivity).
  split; [reflexivity|]. split; [exact Hin|].
  destruct (single_import_reads_first_of_books scripted
              [("version", VStr "1.0");
               ("books", VArr [Book_to_value book_x; Book_to_value book_y])]
              (Book_to_value book_x) [Book_to_value book_y]
              [Book_to_value book_x] world_z)
    as (_ & _ & Hcopy & _).
  - reflexivity.
  - reflexivity.
  - repeat constructor.
  - destruct (Hcopy eq_refl Hin 1700000003000%Z (script [] ["k3v9"] [] [])
                "k3v9" (script [] [] [] []) eq_refl eq_refl)
      as (Hres & Hid & _).
    split; [exact Hres|exact Hid].
Defined.

(** A single-book import can fail although the document holds a non-empty
    array under [books] (its first element is not a valid book), and can
    fail for want of a book although the document has a [book] field (the
    field holds null). *)
Lemma single_import_fails_with_books_present :
  assoc "book" [("version", VStr "1.0");
                ("books", VArr [VObj [("id", VStr "x")]])] = None /\
  books_present (VObj [("version", VStr "1.0");
                       ("books", VArr [VObj [("id", VStr "x")]])]) = true /\
  uploadSingleBook scripted
    (FileOf (JSONText
       (VObj [("version", VStr "1.0");
              ("books", VArr [VObj [("id", VStr "x")]])])))
    [] world_z
  = (Throw (Error "本のデータ形式が正しくありません"), world_z) /\
  assoc "book" [("book", VNull); ("books", VArr [])] = Some VNull /\
  uploadSingleBook scripted
    (FileOf (JSONText (VObj [("book", VNull); ("books", VArr [])])))
    [] world_z
  = (Throw (Error "本のデータが見つかりませんでした"), world_z).
Proof. repeat split. Qed.

(** The text of a page of a completed run can be the empty string: the run
    below completes with one page whose text is empty. *)
Lemma completed_run_with_empty_text :
  let tr := trace (snd (handleGenerate scripted (Some "key") generator1
                          (start world_empty_text))) in
  let p := newPage 11 1 (Some "data:image/jpeg;base64,QUJD") "" in
  In (onGenerate "rabbit"
        {| cover_image := Some "data:image/png;base64,REVG";
           cover_imageScale := Finite 1 |} [p]) tr /\
  page_text p = "".
Proof. cbv zeta. split; [in_list|reflexivity]. Qed.

(** [generateImage] signals a reply without image by raising. *)
Lemma generateImage_raises :
  generateImage scripted "key" "a rabbit" "gemini-2.5-flash-image"
    world_no_candidate
  = (Throw (Error "画像データが見つかりません"), script [] [] [] []).
Proof. reflexivity. Qed.

(** A merge can give the imported book the id it collided with: here the
    generated id is again the id of the book of the collection. *)
Lemma merge_import_can_repeat_the_id :
  exists imported,
    uploadBookshelf scripted
      (FileOf (JSONText (bookshelf_doc [Book_to_value book_y])))
      [Book_to_value book_y] merge world_y
    = (Ok {| bi_books := [Book_to_value book_y; imported];
             importedCount := 1 |}, script [] [] [] [])
    /\ prop imported "id" = prop (Book_to_value book_y) "id".
Proof. exists (Book_to_value book_y). split; reflexivity. Qed.

(** An import in replace mode of a file that holds the same id twice leaves
    a collection in which two books share an id. *)
Lemma replace_import_can_duplicate_ids :
  unique_ids (books app_empty) /\
  exists st' w',
    handleUploadBookshelf scripted app_empty
      (FileOf (JSONText (bookshelf_doc [Book_to_value book_x;
                                        Book_to_value book_x])))
      true world_z
    = (Ok st', w') /\
    length (books st') = 2 /\ ~ unique_ids (books st').
Proof.
  split; [constructor|]. eexists _, _. split; [reflexivity|].
  split; [reflexivity|]. intros H. inversion H as [|a l Hnotin _]; subst.
  apply Hnotin. left. reflexivity.
Qed.

(** A bookshelf import fails when its only candidate is invalid. *)
Lemma import_fails_without_valid_candidate :
  validateBook (VObj [("id", VStr "x")]) = false /\
  uploadBookshelf scripted
    (FileOf (JSONText (bookshelf_doc [VObj [("id", VStr "x")]])))
    [] replace world_z
  = (Throw (Error "有効な本のデータが見つかりませんでした"), world_z).
Proof. split; reflexivity. Qed.

(* ===================================================================== *)
(** ** Further properties: import and export *)
(* ===================================================================== *)

Lemma getprop_prop (v : value) (k : string) :
  is_nullish v = false -> getprop v k = Ok (prop v k).
Proof. destruct v; try discriminate; reflexivity. Qed.

Lemma renamed_copies_valid (cs ms : list value) :
  Forall2 (fun c m => m = c \/ exists i, m = spread_with_id c i) cs ms ->
  valid_collection cs -> valid_collection ms.
Proof.
  induction 1 as [|c m cs ms Hcm _ IH]; intros Hv; [constructor|].
  inversion Hv; subst. constructor; [|apply IH; assumption].
  destruct Hcm as [->|[i ->]]; [assumption|].
  apply validateBook_spread_with_id. assumption.
Qed.

Section ImportExtras.
Context {W : Type} (P : Platform W).

Lemma uploadBookshelf_rejected (file : File) (existing : list value)
    (mode : ImportMode) (w : W) :
  rejected_bookshelf_file file ->
  exists e, uploadBookshelf P file existing mode w = (Throw e, w).
Proof.
  intros [->|[[m ->]|(doc & -> & Hdoc)]].
  - eexists. reflexivity.
  - eexists. reflexivity.
  - destruct Hdoc as [Hn|(b & Hb & Hbad)].
    + destruct doc; try discriminate; eexists; reflexivity.
    + unfold uploadBookshelf, readFileAsText, JSON_parse.
      rewrite !bind_ret, (bind_get doc b "books" _ Hb).
      destruct Hbad as [Harr|Hnone].
      * rewrite Harr, Bool.orb_true_r. eexists. reflexivity.
      * destruct (negb (truthy b) || negb (Array_isArray b));
          [eexists; reflexivity|].
        rewrite Hnone. eexists. reflexivity.
Qed.

(** X1. A bookshelf file that is unreadable, is not JSON, is null, has no
    array under [books], or holds no valid book is refused in both modes,
    and the handler of the Home screen then leaves the application state
    and the world exactly as they were; every other file is accepted in
    replace mode. *)
Theorem rejected_bookshelf_files (st : AppState) (file : File)
    (confirm_replace : bool) (w : W) :
  (rejected_bookshelf_file file ->
   (exists e, uploadBookshelf P file (books st)
                (if confirm_replace then replace else merge) w = (Throw e, w))
   /\ handleUploadBookshelf P st file confirm_replace w = (Ok st, w))
  /\ (~ rejected_bookshelf_file file ->
      exists r, uploadBookshelf P file (books st) replace w = (Ok r, w)).
Proof.
  split.
  - intros Hrej.
    destruct (uploadBookshelf_rejected file (books st)
                (if confirm_replace then replace else merge) w Hrej) as [e He].
    split; [exists e; exact He|].
    unfold handleUploadBookshelf, try_catch, bind. rewrite He. reflexivity.
  - intros Hok. destruct file as [|[m|doc]].
    + exfalso. apply Hok. left. reflexivity.
    + exfalso. apply Hok. right. left. exists m. reflexivity.
    + destruct (is_nullish doc) eqn:Hn.
      { exfalso. apply Hok. right. right. exists doc. split; [reflexivity|].
        left. exact Hn. }
      pose proof (getprop_prop doc "books" Hn) as Hb.
      destruct (prop doc "books") as [| | | | |cands|] eqn:Hp;
        try (exfalso; apply Hok; right; right; exists doc;
             split; [reflexivity|]; right; eexists; split; [exact Hb|];
             left; reflexivity).
      rewrite (uploadBookshelf_books P doc cands (books st) replace w Hb).
      cbv zeta.
      destruct (List.filter validateBook cands) as [|v vs] eqn:Hf.
      { exfalso. apply Hok. right. right. exists doc. split; [reflexivity|].
        right. exists (VArr cands). split; [exact Hb|]. right. exact Hf. }
      eexists. reflexivity.
Qed.

(** An import that succeeds has read a JSON document with an array under
    [books]. *)
Lemma uploadBookshelf_Ok_inv (file : File) (existing : list value)
    (mode : ImportMode) (w w' : W) (r : BookshelfImport) :
  uploadBookshelf P file existing mode w = (Ok r, w') ->
  exists doc cands,
    file = FileOf (JSONText doc) /\ getprop doc "books" = Ok (VArr cands).
Proof.
  intros Hup. destruct file as [|[m|doc]]; try (vm_compute in Hup; discriminate).
  destruct (is_nullish doc) eqn:Hn.
  { destruct doc; try discriminate; vm_compute in Hup; discriminate. }
  pose proof (getprop_prop doc "books" Hn) as Hb.
  destruct (prop doc "books") as [| | | | |cands|] eqn:Hp;
    try (destruct (uploadBookshelf_rejected (FileOf (JSONText doc)) existing
                     mode w) as [e He];
         [right; right; exists doc; split; [reflexivity|]; right;
          eexists; split; [exact Hb|]; left; reflexivity
         |rewrite He in Hup; discriminate]).
  exists doc, cands. split; [reflexivity|exact Hb].
Qed.

(** X2. Whenever a bookshelf import succeeds, it has imported at least one
    book.  In replace mode the new collection is made of the imported books
    only (their number is the reported count), whatever the existing
    collection is, and neither the clock nor the random generator is used;
    in merge mode the new collection is the existing one, unchanged and in
    front, followed by as many books as the reported count. *)
Theorem bookshelf_import_shape (file : File) (existing : list value)
    (mode : ImportMode) (w w' : W) (r : BookshelfImport) :
  uploadBookshelf P file existing mode w = (Ok r, w') ->
  1 <= importedCount r /\
  match mode with
  | replace =>
      length (bi_books r) = importedCount r /\ w' = w /\
      forall other,
        uploadBookshelf P file other replace w = (Ok r, w)
  | merge =>
      exists imported,
        bi_books r = (existing ++ imported)%list /\
        length imported = importedCount r
  end.
Proof.
  intros Hup.
  destruct (uploadBookshelf_Ok_inv file existing mode w w' r Hup)
    as (doc & cands & -> & Hb).
  pose proof Hup as Hup'.
  rewrite (uploadBookshelf_books P doc cands existing mode w Hb) in Hup'.
  cbv zeta in Hup'.
  destruct (Nat.eqb (length (List.filter validateBook cands)) 0) eqn:Hlen;
    [discriminate|].
  apply Nat.eqb_neq in Hlen. destruct mode.
  - inversion Hup'; subst. cbn [importedCount bi_books].
    split; [lia|]. split; [reflexivity|]. split; [reflexivity|].
    intros other.
    rewrite (uploadBookshelf_books P doc cands other replace w' Hb).
    cbv zeta.
    destruct (Nat.eqb (length (List.filter validateBook cands)) 0) eqn:Hlen';
      [apply Nat.eqb_eq in Hlen'; contradiction|reflexivity].
  - destruct (mapM (fun b => get b "id") existing w) as [[ids|e] w0];
      [|discriminate].
    inversion Hup'; subst. cbn [importedCount bi_books].
    split; [lia|]. eexists. split; [reflexivity|].
    apply renamed_all_length.
Qed.

Lemma uploadBookshelf_valid (file : File) (existing : list value)
    (mode : ImportMode) (w w' : W) (r : BookshelfImport) :
  valid_collection existing ->
  uploadBookshelf P file existing mode w = (Ok r, w') ->
  valid_collection (bi_books r).
Proof.
  intros Hex Hup.
  destruct (uploadBookshelf_Ok_inv file existing mode w w' r Hup)
    as (doc & cands & -> & Hb).
  rewrite (uploadBookshelf_books P doc cands existing mode w Hb) in Hup.
  cbv zeta in Hup.
  destruct (Nat.eqb (length (List.filter validateBook cands)) 0);
    [discriminate|].
  destruct mode.
  - inversion Hup; subst. apply filter_validateBook_valid.
  - rewrite (mapM_get_id existing w Hex) in Hup. inversion Hup; subst.
    cbn [bi_books]. apply List.Forall_app. split; [exact Hex|].
    apply (renamed_copies_valid (List.filter validateBook cands));
      [apply renamed_all_Forall2|apply filter_validateBook_valid].
Qed.

Lemma uploadSingleBook_valid (file : File) (existing : list value)
    (w w' : W) (r : SingleBookImport) :
  valid_collection existing ->
  uploadSingleBook P file existing w = (Ok r, w') ->
  valid_collection (si_books r) /\ validateBook (importedBook r) = true.
Proof.
  intros Hex Hup.
  destruct (uploadSingleBook_Ok_inv P file existing w w' r Hex Hup)
    as (book & Hv & Hbooks).
  assert (Hren : validateBook (fst (renamed P (book_ids existing) book w))
                 = true).
  { unfold renamed. destruct (Set_has (book_ids existing) (prop book "id")).
    - destruct (Date_now P w) as [now w1].
      destruct (Math_random_toString36_slice2 P w1) as [suffix w2].
      apply validateBook_spread_with_id, Hv.
    - exact Hv. }
  assert (Himp : importedBook r = fst (renamed P (book_ids existing) book w)).
  { destruct file as [|[m|doc]]; try (vm_compute in Hup; discriminate).
    destruct (is_nullish doc) eqn:Hn.
    { destruct doc; try discriminate; vm_compute in Hup; discriminate. }
    destruct (candidate_dichotomy doc Hn) as [[book' Hc]|[Hnb Hnbs]].
    - rewrite (uploadSingleBook_found P doc book' existing w Hc Hex) in Hup.
      destruct (validateBook book'); [|discriminate].
      inversion Hup; subst. cbn [si_books importedBook] in *.
      injection Hbooks as Heq. exact Heq.
    - rewrite (uploadSingleBook_not_found P doc existing w Hn Hnb Hnbs)
        in Hup.
      discriminate. }
  split.
  - rewrite Hbooks. constructor; [exact Hren|exact Hex].
  - rewrite Himp. exact Hren.
Qed.

(** X3. Imports keep the collection valid: when every book of the existing
    collection passes [validateBook], so does every book of the collection a
    successful bookshelf import (in either mode) or single-book import
    returns, renamed copies included. *)
Theorem imports_keep_books_valid (file : File) (existing : list value)
    (w : W) :
  valid_collection existing ->
  (forall mode r w',
     uploadBookshelf P file existing mode w = (Ok r, w') ->
     valid_collection (bi_books r))
  /\ (forall r w',
        uploadSingleBook P file existing w = (Ok r, w') ->
        valid_collection (si_books r)
        /\ validateBook (importedBook r) = true).
Proof.
  intros Hex. split.
  - intros mode r w' Hup.
    exact (uploadBookshelf_valid file existing mode w w' r Hex Hup).
  - intros r w' Hup.
    exact (uploadSingleBook_valid file existing w w' r Hex Hup).
Qed.

End ImportExtras.

Lemma JSON_parse_stringify_Books (Bs : list Book) :
  Forall (fun b => valid_Book b = true) Bs ->
  List.map (fun x => match x with
                     | VUndefined => VNull
                     | _ => JSON_parse_stringify x
                     end) (List.map Book_to_value Bs)
  = List.map Book_to_value Bs.
Proof.
  induction 1 as [|b Bs Hb _ IH]; [reflexivity|].
  cbn [List.map]. rewrite IH. f_equal.
  change (JSON_parse_stringify (Book_to_value b) = Book_to_value b).
  apply JSON_parse_stringify_Book, Hb.
Qed.

Lemma filter_validateBook_all (bs : list value) :
  valid_collection bs -> List.filter validateBook bs = bs.
Proof.
  induction 1 as [|b bs Hb _ IH]; [reflexivity|].
  cbn [List.filter]. rewrite Hb, IH. reflexivity.
Qed.

Lemma Books_valid_collection (Bs : list Book) :
  valid_collection (List.map Book_to_value Bs).
Proof.
  induction Bs as [|b Bs IH]; constructor; [apply validateBook_Book|exact IH].
Qed.

Lemma string_forall_app (p : ascii -> bool) (a b : string) :
  string_forall p (a +:+ b) = string_forall p a && string_forall p b.
Proof.
  induction a as [|c a IH]; [reflexivity|].
  simpl. rewrite IH, Bool.andb_assoc. reflexivity.
Qed.

Section ExportExtras.
Context {W : Type} (P : Platform W).

(** X4. No download is made of an empty collection.  Of a non-empty
    collection of valid books, the backup that is downloaded, imported in
    replace mode over any collection whatever, gives back exactly the
    exported collection: the same books in the same order, all counted. *)
Theorem bookshelf_export_import_roundtrip (Bs : list Book)
    (toISOString : string) (existing : list value) (w w' : W) :
  Bs <> [] ->
  Forall (fun b => valid_Book b = true) Bs ->
  handleDownloadBookshelf P [] toISOString w = (Ok None, w) /\
  exists d,
    handleDownloadBookshelf P (List.map Book_to_value Bs) toISOString w
    = (Ok (Some d), snd (Date_now P w)) /\
    uploadBookshelf P (file_of_download d) existing replace w'
    = (Ok {| bi_books := List.map Book_to_value Bs;
             importedCount := length Bs |}, w').
Proof.
  intros Hne Hv. split; [reflexivity|].
  unfold handleDownloadBookshelf, downloadBookshelf, bind.
  rewrite length_map.
  destruct Bs as [|b0 Bs0]; [contradiction|]. cbn [length Nat.eqb].
  destruct (Date_now P w) as [now w1]. eexists. split; [reflexivity|].
  unfold file_of_download. cbn [json snd].
  rewrite (uploadBookshelf_books P _ (List.map Book_to_value (b0 :: Bs0))
             existing replace w').
  - cbv zeta.
    rewrite (filter_validateBook_all _ (Books_valid_collection (b0 :: Bs0))).
    rewrite length_map. reflexivity.
  - cbn [JSON_parse_stringify is_finite].
    rewrite (JSON_parse_stringify_Books (b0 :: Bs0) Hv). reflexivity.
Qed.

Lemma renamed_all_colliding (ids bs : list value) :
  valid_collection bs ->
  (forall b, In b bs -> In (prop b "id") ids) ->
  forall w,
    fst (renamed_all P ids bs w)
    = zip_with spread_with_id bs (generated_ids P (length bs) w).
Proof.
  induction 1 as [|b bs Hb _ IH]; intros Hin w; [reflexivity|].
  cbn [renamed_all generated_ids length]. unfold renamed.
  destruct (prop_id_valid b Hb) as [i Hi].
  assert (Hhas : Set_has ids (prop b "id") = true).
  { rewrite Hi. apply Set_has_str. rewrite <- Hi. apply Hin. left. reflexivity. }
  rewrite Hhas.
  destruct (Date_now P w) as [now w1].
  destruct (Math_random_toString36_slice2 P w1) as [suffix w2].
  specialize (IH (fun b' Hb' => Hin b' (or_intror Hb')) w2).
  destruct (renamed_all P ids bs w2) as [r' w3]. cbn [fst] in *.
  rewrite IH. reflexivity.
Qed.

(** X5. Merging a backup into the very collection it was taken from
    duplicates the collection: every book of the file collides, so the
    result is the collection followed by a copy of each of its books, in
    order, each under the next generated id. *)
Theorem merging_own_backup_duplicates (doc : value) (existing : list value)
    (w : W) :
  valid_collection existing ->
  existing <> [] ->
  getprop doc "books" = Ok (VArr existing) ->
  exists w',
    uploadBookshelf P (FileOf (JSONText doc)) existing merge w
    = (Ok {| bi_books :=
               existing ++
               zip_with spread_with_id existing
                 (generated_ids P (length existing) w);
             importedCount := length existing |}, w').
Proof.
  intros Hex Hne Hdoc.
  rewrite (uploadBookshelf_books P doc existing existing merge w Hdoc).
  cbv zeta. rewrite (filter_validateBook_all existing Hex).
  destruct existing as [|b0 bs0]; [contradiction|]. cbn [length Nat.eqb].
  rewrite (mapM_get_id (b0 :: bs0) w Hex).
  rewrite (renamed_all_colliding (book_ids (b0 :: bs0)) (b0 :: bs0) Hex).
  - eexists. reflexivity.
  - intros b Hb. unfold book_ids. apply (List.in_map (fun b => prop b "id")).
    exact Hb.
Qed.

Lemma safe_title_is_safe (t : string) :
  string_forall (fun c => negb (unsafe_filename_char c))
    (string_map (fun c => if unsafe_filename_char c then "-"%char else c) t)
  = true.
Proof.
  induction t as [|c t IH]; [reflexivity|].
  cbn [string_map string_forall]. rewrite IH, Bool.andb_true_r.
  destruct (unsafe_filename_char c) eqn:E; [reflexivity|].
  rewrite E. reflexivity.
Qed.

(** X6. The name of the file a single-book download is saved under never
    holds one of the characters a file name cannot hold (slash, backslash,
    question mark, percent, star, colon, bar, double quote, angle brackets),
    whatever the title of the book is; it ends in .json, and a book without
    title is saved as the untitled book. *)
Theorem download_filename_is_safe (book : Book) (w : W) :
  exists d safeTitle,
    fst (downloadSingleBook P book w) = Ok d /\
    filename d = safeTitle +:+ ".json" /\
    String.length safeTitle
    = String.length (if String.eqb (title book) "" then "無題の本"
                     else title book) /\
    string_forall (fun c => negb (unsafe_filename_char c)) (filename d)
    = true /\
    (title book = "" -> filename d = "無題の本.json").
Proof.
  unfold downloadSingleBook. destruct (Date_now P w) as [now w1].
  eexists. eexists. split; [reflexivity|]. cbn [filename].
  split; [reflexivity|]. split; [|split].
  - generalize (if String.eqb (title book) "" then "無題の本" else title book).
    intros t. induction t as [|c t IH]; [reflexivity|].
    cbn [string_map String.length]. rewrite IH. reflexivity.
  - rewrite string_forall_app, safe_title_is_safe. reflexivity.
  - intros ->. reflexivity.
Qed.

End ExportExtras.

(* ===================================================================== *)
(** ** Further properties: the handlers of the application *)
(* ===================================================================== *)

Lemma pretty_N_go_nonempty (x : N) (s : string) :
  s <> "" -> pretty_N_go x s <> "".
Proof.
  revert s. induction (N.lt_wf_0 x) as [x _ IH]; intros s Hs.
  assert (x = 0 \/ 0 < x)%N as [->|Hx] by lia.
  - rewrite pretty_N_go_0. exact Hs.
  - rewrite pretty_N_go_step by exact Hx. apply IH.
    + apply N.div_lt; [exact Hx|reflexivity].
    + discriminate.
Qed.

(** The decimal string of a clock reading is never empty. *)
Lemma pretty_Z_nonempty (z : Z) : pretty z <> "".
Proof.
  destruct z as [|p|p]; [discriminate| |discriminate].
  unfold pretty, pretty_Z, pretty, pretty_positive, pretty, pretty_N.
  destruct (decide (N.pos p = 0%N)) as [H|_]; [discriminate|].
  rewrite pretty_N_go_step by reflexivity.
  apply pretty_N_go_nonempty. discriminate.
Qed.

Lemma valid_no_nullish (bs : list value) : valid_collection bs -> no_nullish bs.
Proof.
  induction 1 as [|b bs Hb _ IH]; constructor; [|exact IH].
  apply validateBook_inv in Hb as (fs & i & -> & _). reflexivity.
Qed.

Lemma filter_out_id_pure {S} (id : string) (l : list value) (s : S) :
  no_nullish l ->
  filter_out_id id l s
  = (Ok (List.filter (fun x => negb (has_id id x)) l), s).
Proof.
  induction 1 as [|x l Hx _ IH]; [reflexivity|].
  cbn [filter_out_id List.filter].
  rewrite (bind_get x (prop x "id") "id" _ (getprop_prop x "id" Hx)).
  unfold bind at 1. rewrite IH. unfold has_id.
  destruct (SameValueZero (prop x "id") (VStr id)); reflexivity.
Qed.

Lemma mapM_update_by_id {S} (id : string) (f : value -> value)
    (l : list value) (s : S) :
  no_nullish l ->
  mapM (fun x => let* x_id := get x "id" in
                 if SameValueZero x_id (VStr id) then ret (f x) else ret x) l s
  = (Ok (List.map (fun x => if has_id id x then f x else x) l), s).
Proof.
  induction 1 as [|x l Hx _ IH]; [reflexivity|].
  cbn [mapM List.map].
  unfold bind at 1.
  rewrite (bind_get x (prop x "id") "id" _ (getprop_prop x "id" Hx)).
  unfold has_id.
  destruct (SameValueZero (prop x "id") (VStr id));
    unfold ret at 1; unfold bind at 1; rewrite IH; reflexivity.
Qed.

Lemma has_id_In (id : string) (l : list value) (x : value) :
  In x l -> has_id id x = true -> In (VStr id) (book_ids l).
Proof.
  intros Hin Hid. apply SameValueZero_str in Hid. rewrite <- Hid.
  unfold book_ids. apply (List.in_map (fun b => prop b "id")). exact Hin.
Qed.

Lemma map_unless_has_id (id : string) (f : value -> value) (l : list value) :
  ~ In (VStr id) (book_ids l) ->
  List.map (fun x => if has_id id x then f x else x) l = l.
Proof.
  intros Hnot. rewrite <- (List.map_id l) at 2. apply List.map_ext_in.
  intros x Hx. destruct (has_id id x) eqn:E; [|reflexivity].
  exfalso. apply Hnot. exact (has_id_In id l x Hx E).
Qed.

Lemma filter_unless_has_id (id : string) (l : list value) :
  ~ In (VStr id) (book_ids l) ->
  List.filter (fun x => negb (has_id id x)) l = l.
Proof.
  induction l as [|x l IH]; intros Hnot; [reflexivity|].
  cbn [List.filter]. destruct (has_id id x) eqn:E.
  - exfalso. apply Hnot. apply (has_id_In id (x :: l) x); [left; reflexivity|].
    exact E.
  - cbn [negb]. rewrite IH; [reflexivity|].
    intros Hin. apply Hnot. right. exact Hin.
Qed.

Lemma NoDup_ids_filter (p : value -> bool) (l : list value) :
  unique_ids l -> unique_ids (List.filter p l).
Proof.
  unfold unique_ids, book_ids. induction l as [|x l IH]; intros Hnd;
    [constructor|].
  cbn [List.map List.filter] in *. apply List.NoDup_cons_iff in Hnd as [Hx Hnd].
  destruct (p x); [|apply IH, Hnd].
  cbn [List.map]. apply List.NoDup_cons; [|apply IH, Hnd].
  intros Hin. apply Hx. apply List.in_map_iff in Hin as (y & Hy & Hin).
  apply List.filter_In in Hin as [Hin _].
  rewrite <- Hy. apply (List.in_map (fun b => prop b "id")). exact Hin.
Qed.

(** The rewriting of an edited book leaves its id alone. *)
Lemma prop_id_edited (st : AppState) (now : Z) (fs : list (string * value)) :
  prop (edited st now (VObj fs)) "id" = prop (VObj fs) "id".
Proof.
  unfold edited, spread_with, prop. cbn [own_props fold_left fst snd getprop].
  rewrite !assoc_set_other by discriminate. reflexivity.
Qed.

Section AppExtras.
Context {W : Type} (P : Platform W).

(** X7. Deleting a book by id (the collection holding no null) removes
    every book with that id and nothing else: the other books stay, in
    order; no book with that id is left; distinct ids stay distinct; and an
    id that no book has leaves the collection as it is.  The book being
    edited is not reset, even when it is the deleted one. *)
Theorem deleting_a_book (st : AppState) (id : string) (w : W) :
  no_nullish (books st) ->
  exists st' w',
    handleDeleteBook P st id w = (Ok st', w') /\
    books st' = List.filter (fun b => negb (has_id id b)) (books st) /\
    ~ In (VStr id) (book_ids (books st')) /\
    (unique_ids (books st) -> unique_ids (books st')) /\
    (~ In (VStr id) (book_ids (books st)) -> books st' = books st) /\
    currentBookId st' = currentBookId st.
Proof.
  intros Hnn. unfold handleDeleteBook. unfold bind at 1.
  rewrite (filter_out_id_pure id (books st) w Hnn). unfold bind at 1.
  destruct (saveBooks_ok P (List.filter (fun b => negb (has_id id b)) (books st))
              w) as [w' ->].
  eexists _, w'. split; [reflexivity|]. cbn [books currentBookId].
  split; [reflexivity|]. split; [|split; [|split; [|reflexivity]]].
  - intros Hin. unfold book_ids in Hin.
    apply List.in_map_iff in Hin as (b & Hb & Hin).
    apply List.filter_In in Hin as [_ Hf].
    assert (has_id id b = true) as E
      by (unfold has_id; rewrite Hb; apply SameValueZero_str; reflexivity).
    rewrite E in Hf. discriminate.
  - apply NoDup_ids_filter.
  - apply filter_unless_has_id.
Qed.

Lemma updateCurrent_pure (st : AppState) (cur : string) (now : Z) (w : W) :
  no_nullish (books st) ->
  updateCurrent st cur now w
  = (Ok (List.map (fun b => if has_id cur b then edited st now b else b)
                  (books st)), w).
Proof.
  intros Hnn. unfold updateCurrent.
  exact (mapM_update_by_id cur (edited st now) (books st) w Hnn).
Qed.

(** X8. Saving while a book is being edited (in a collection of valid
    books) rewrites the books with the id of the edited book and no other:
    the collection keeps its length, its order and all its ids; and when no
    book has that id any more, the save stores the collection as it was: the
    edited content is added nowhere. *)
Theorem saving_an_edit (st : AppState) (cur : string) (w : W) :
  is_editing st = Some cur ->
  valid_collection (books st) ->
  exists st' w',
    handleSaveBook P st w = (Ok st', w') /\
    books st'
    = List.map (fun b => if has_id cur b
                         then edited st (fst (Date_now P w)) b else b)
               (books st) /\
    length (books st') = length (books st) /\
    book_ids (books st') = book_ids (books st) /\
    (~ In (VStr cur) (book_ids (books st)) -> books st' = books st).
Proof.
  intros Hed Hv. unfold handleSaveBook, now_. unfold bind at 1.
  destruct (Date_now P w) as [now w1]. cbn [fst]. rewrite Hed.
  unfold bind at 1.
  rewrite (updateCurrent_pure st cur now w1 (valid_no_nullish _ Hv)).
  unfold bind at 1.
  destruct (saveBooks_ok P
              (List.map (fun b => if has_id cur b then edited st now b else b)
                        (books st)) w1) as [w' ->].
  eexists _, w'. split; [reflexivity|]. cbn [books].
  split; [reflexivity|]. split; [apply length_map|]. split.
  - unfold book_ids. rewrite List.map_map. apply List.map_ext_in.
    intros b Hb. destruct (has_id cur b); [|reflexivity].
    pose proof (proj1 (List.Forall_forall _ _) Hv b Hb) as Hvb. cbv beta in Hvb.
    apply validateBook_inv in Hvb as (fs & i & -> & _).
    apply prop_id_edited.
  - apply map_unless_has_id.
Qed.

(** X9. Saving a new book twice in a row creates one book, not two: the
    first save puts the new book in front of the collection and makes it the
    edited book, the second rewrites that book in place.  After both, the
    collection is the earlier one (of valid books, none of which has the new
    id) behind a single new book, created at the first clock reading and
    updated at the second; its title is then the title as typed, empty if
    nothing was typed (only the first save puts the untitled-book title). *)
Theorem saving_twice_adds_one_book (st : AppState) (w : W) :
  is_editing st = None ->
  valid_collection (books st) ->
  ~ In (VStr (pretty (fst (Date_now P w)))) (book_ids (books st)) ->
  exists st1 w1 st2 w2,
    handleSaveBook P st w = (Ok st1, w1) /\
    handleSaveBook P st1 w1 = (Ok st2, w2) /\
    books st1
    = newBook (fst (Date_now P w)) (title_ st) (coverData_ st) (pages_ st)
      :: books st /\
    books st2
    = VObj [("id", VStr (pretty (fst (Date_now P w))));
            ("title", VStr (title_ st));
            ("coverData", coverData_ st);
            ("pages", VArr (pages_ st));
            ("createdAt", VNum (number_of_Z (fst (Date_now P w))));
            ("updatedAt", VNum (number_of_Z (fst (Date_now P w1))))]
      :: books st.
Proof.
  intros Hnew Hv Hfresh.
  destruct (Date_now P w) as [now1 wa] eqn:Hnow1. cbn [fst] in *.
  destruct (saveBooks_ok P
              (newBook now1 (title_ st) (coverData_ st) (pages_ st) :: books st)
              wa) as [w1 Hsave1].
  set (st1 := {| mode := mode st;
                 books := newBook now1 (title_ st) (coverData_ st) (pages_ st)
                          :: books st;
                 currentBookId := Some (pretty now1); pages_ := pages_ st;
                 title_ := title_ st; coverData_ := coverData_ st |}).
  assert (H1 : handleSaveBook P st w = (Ok st1, w1)).
  { unfold handleSaveBook, now_. unfold bind at 1. rewrite Hnow1, Hnew.
    unfold bind at 1. rewrite Hsave1. reflexivity. }
  assert (Hed : is_editing st1 = Some (pretty now1)).
  { unfold is_editing. cbn [currentBookId st1].
    destruct (String.eqb (pretty now1) "") eqn:E; [|reflexivity].
    apply String.eqb_eq in E. destruct (pretty_Z_nonempty now1 E). }
  assert (Hv1 : no_nullish (books st1)).
  { constructor; [reflexivity|apply valid_no_nullish, Hv]. }
  exists st1, w1.
  destruct (Date_now P w1) as [now2 wb] eqn:Hnow2. cbn [fst].
  destruct (saveBooks_ok P
              (List.map (fun b => if has_id (pretty now1) b
                                  then edited st1 now2 b else b) (books st1))
              wb) as [w2 Hsave2].
  eexists _, w2. split; [exact H1|]. split; [|split; [reflexivity|]].
  - unfold handleSaveBook, now_. unfold bind at 1. rewrite Hnow2, Hed.
    unfold bind at 1. rewrite (updateCurrent_pure st1 (pretty now1) now2 wb Hv1).
    unfold bind at 1. rewrite Hsave2. reflexivity.
  - cbn [books st1 List.map].
    rewrite (map_unless_has_id (pretty now1) (edited st1 now2) (books st) Hfresh).
    f_equal. unfold has_id, newBook, prop.
    cbn [getprop assoc String.eqb Ascii.eqb Bool.eqb default].
    assert (E : SameValueZero (VStr (pretty now1)) (VStr (pretty now1)) = true)
      by (apply SameValueZero_str; reflexivity).
    unfold Datatypes.id. rewrite E. reflexivity.
Qed.

End AppExtras.

Lemma validateBook_fields (b : value) :
  validateBook b = true ->
  exists fs i t c ps,
    b = VObj fs /\ assoc "id" fs = Some (VStr i) /\
    assoc "title" fs = Some (VStr t) /\
    assoc "coverData" fs = Some c /\ is_undefined c = false /\
    assoc "pages" fs = Some (VArr ps).
Proof.
  intros Hb. destruct (validateBook_inv b Hb) as (fs & i & -> & Hi).
  unfold validateBook, prop in Hb.
  cbn [truthy typeof TypeTag_eqb negb orb getprop] in Hb.
  rewrite Hi in Hb. cbn [default typeof TypeTag_eqb andb] in Hb.
  unfold default in Hb. cbn [Datatypes.id] in Hb.
  destruct (assoc "title" fs) as [[| | | |t| |]|] eqn:Ht; try discriminate.
  destruct (assoc "coverData" fs) as [c|] eqn:Hcd; [|discriminate].
  destruct (is_undefined c) eqn:Hc; [discriminate|].
  destruct (assoc "pages" fs) as [[| | | | |ps|]|] eqn:Hps; try discriminate.
  exists fs, i, t, c, ps. repeat split; try reflexivity; assumption.
Qed.

Lemma assoc_set_id (k : string) (x : value) (fs : list (string * value)) :
  assoc k fs = Some x -> assoc_set k x fs = fs.
Proof.
  intros H. unfold assoc_set. rewrite H. revert H.
  induction fs as [|[k' v] fs IH]; [discriminate|].
  cbn [assoc assoc_replace]. destruct (String.eqb k k') eqn:E.
  - intros [= ->]. reflexivity.
  - intros H. rewrite (IH H). reflexivity.
Qed.

Lemma same_id_same_book (l : list value) (x y : value) :
  unique_ids l -> In x l -> In y l -> prop x "id" = prop y "id" -> x = y.
Proof.
  unfold unique_ids, book_ids. induction l as [|z l IH]; [contradiction|].
  cbn [List.map]. intros Hnd Hx Hy Heq.
  apply List.NoDup_cons_iff in Hnd as [Hz Hnd].
  destruct Hx as [->|Hx], Hy as [->|Hy].
  - reflexivity.
  - exfalso. apply Hz. rewrite Heq.
    apply (List.in_map (fun b => prop b "id")). exact Hy.
  - exfalso. apply Hz. rewrite <- Heq.
    apply (List.in_map (fun b => prop b "id")). exact Hx.
  - exact (IH Hnd Hx Hy Heq).
Qed.

Lemma validateBook_newBook (now : Z) (t : string) (cover : value)
    (ps : list value) :
  is_undefined cover = false -> validateBook (newBook now t cover ps) = true.
Proof.
  intros Hc. unfold validateBook, newBook, prop.
  cbn [truthy typeof TypeTag_eqb negb orb getprop assoc String.eqb Ascii.eqb
       Bool.eqb default andb Array_isArray].
  unfold default. cbn [Datatypes.id typeof TypeTag_eqb andb Array_isArray].
  rewrite Hc. reflexivity.
Qed.

Lemma validateBook_edited (st : AppState) (now : Z) (b : value) :
  is_undefined (coverData_ st) = false ->
  validateBook b = true -> validateBook (edited st now b) = true.
Proof.
  intros Hc Hb. destruct (validateBook_inv b Hb) as (fs & j & -> & Hj).
  unfold validateBook in *. cbn [truthy typeof TypeTag_eqb negb orb] in *.
  unfold edited, spread_with, prop in *.
  cbn [own_props fold_left fst snd getprop] in *.
  rewrite !assoc_set_same.
  repeat (rewrite assoc_set_other by discriminate; rewrite ?assoc_set_same).
  rewrite Hj. unfold default. cbn [Datatypes.id typeof TypeTag_eqb andb
                                   Array_isArray].
  rewrite Hc. cbn [negb andb].
  rewrite Hj in Hb. unfold default in Hb.
  cbn [Datatypes.id typeof TypeTag_eqb andb] in Hb.
  apply andb_prop in Hb as [Hb _]. apply andb_prop in Hb as [_ Hcr].
  cbn [truthy negb orb]. rewrite Hcr. reflexivity.
Qed.

Section AppSteps.
Context {W : Type} (P : Platform W).

(** X10. Opening a book of the collection (of valid books with distinct
    ids) and saving at once changes nothing but the update time of that
    book: every other book, and every other field of the book, stays as it
    was.  The exception is a book whose id is the empty string: the save
    takes it for a new book and puts a copy of it in front of the
    collection. *)
Theorem opening_then_saving (st : AppState) (book : value) (w : W) :
  In book (books st) ->
  valid_collection (books st) ->
  unique_ids (books st) ->
  exists i st1 st2 w',
    prop book "id" = VStr i /\
    handleOpenBook st book = Some st1 /\
    handleSaveBook P st1 w = (Ok st2, w') /\
    (i <> "" ->
     currentBookId st2 = Some i /\
     books st2
     = List.map (fun b =>
                   if has_id i b
                   then spread_with b
                          [("updatedAt",
                            VNum (number_of_Z (fst (Date_now P w))))]
                   else b) (books st)) /\
    (i = "" ->
     books st2
     = newBook (fst (Date_now P w)) (title_ st1) (coverData_ st1) (pages_ st1)
       :: books st).
Proof.
  intros Hin Hv Hu.
  pose proof (proj1 (List.Forall_forall _ _) Hv book Hin) as Hb.
  cbv beta in Hb.
  destruct (validateBook_fields book Hb)
    as (fs & i & t & c & ps & -> & Hi & Ht & Hc & Hcu & Hps).
  set (st1 := {| mode := view; books := books st; currentBookId := Some i;
                 pages_ := ps; title_ := t; coverData_ := c |}).
  assert (Hopen : handleOpenBook st (VObj fs) = Some st1).
  { unfold handleOpenBook, prop. cbn [getprop]. rewrite Hi, Ht, Hps, Hc.
    reflexivity. }
  assert (Hid : prop (VObj fs) "id" = VStr i).
  { unfold prop. cbn [getprop]. rewrite Hi. reflexivity. }
  destruct (Date_now P w) as [now w1] eqn:Hnow. cbn [fst].
  destruct (String.eqb i "") eqn:E.
  - apply String.eqb_eq in E. subst i.
    destruct (saveBooks_ok P (newBook now t c ps :: books st) w1)
      as [w' Hsave].
    exists "", st1. eexists. exists w'.
    split; [exact Hid|]. split; [exact Hopen|]. split; [|split].
    + unfold handleSaveBook, now_. unfold bind at 1. rewrite Hnow.
      unfold is_editing, st1.
      cbn [currentBookId String.eqb title_ coverData_ pages_ books].
      unfold bind at 1. rewrite Hsave. reflexivity.
    + intros Hne. destruct Hne. reflexivity.
    + intros _. reflexivity.
  - assert (Hed : is_editing st1 = Some i).
    { unfold is_editing, st1. cbn [currentBookId]. rewrite E. reflexivity. }
    destruct (saveBooks_ok P
                (List.map (fun b => if has_id i b then edited st1 now b else b)
                          (books st1)) w1) as [w' Hsave].
    exists i, st1. eexists. exists w'.
    split; [exact Hid|]. split; [exact Hopen|]. split; [|split].
    + unfold handleSaveBook, now_. unfold bind at 1. rewrite Hnow, Hed.
      unfold bind at 1.
      rewrite (updateCurrent_pure st1 i now w1 (valid_no_nullish _ Hv)).
      unfold bind at 1. rewrite Hsave. reflexivity.
    + intros _. split; [reflexivity|]. unfold st1 at 1. cbn [books].
      apply List.map_ext_in. intros b Hbin.
      destruct (has_id i b) eqn:Hh; [|reflexivity].
      assert (b = VObj fs) as ->.
      { apply (same_id_same_book (books st) b (VObj fs) Hu Hbin Hin).
        apply SameValueZero_str in Hh. rewrite Hh, Hid. reflexivity. }
      unfold edited, spread_with, st1.
      cbn [own_props fold_left fst snd title_ coverData_ pages_].
      rewrite (assoc_set_id "title" (VStr t) fs Ht).
      rewrite (assoc_set_id "coverData" c fs Hc).
      rewrite (assoc_set_id "pages" (VArr ps) fs Hps). reflexivity.
    + intros ->. discriminate.
Qed.

(** X11. Finishing saves exactly as saving does (and then shows the
    viewer) whenever a book is being edited or there is at least one page.
    A new book without pages is the exception: finishing stores nothing,
    even if a title was typed, where saving would store the book. *)
Theorem finishing_saves_like_saving (st : AppState) (w : W) :
  (is_editing st <> None \/ pages_ st <> [] ->
   handleFinish P st w
   = (let* saved := handleSaveBook P st in ret (in_view saved)) w)
  /\ (is_editing st = None -> pages_ st = [] ->
      handleFinish P st w = (Ok (in_view st), snd (Date_now P w))
      /\ exists st' w',
           handleSaveBook P st w = (Ok st', w') /\
           books st'
           = newBook (fst (Date_now P w)) (title_ st) (coverData_ st) []
             :: books st).
Proof.
  split.
  - intros Hsome. unfold handleFinish, handleSaveBook, now_, bind, ret.
    destruct (Date_now P w) as [now w1].
    destruct (is_editing st) as [cur|].
    + destruct (updateCurrent st cur now w1) as [[bs|e] w2]; [|reflexivity].
      destruct (saveBooks P bs w2) as [[[]|e] w3]; reflexivity.
    + destruct Hsome as [H|H]; [destruct H; reflexivity|].
      destruct (pages_ st) as [|p ps] eqn:Hp; [destruct H; reflexivity|].
      cbn [length Nat.ltb Nat.leb].
      destruct (saveBooks P _ w1) as [[[]|e] w3]; reflexivity.
  - intros Hnone Hp. split.
    + unfold handleFinish, now_, bind, ret, in_view.
      destruct (Date_now P w) as [now w1]. rewrite Hnone, Hp. reflexivity.
    + unfold handleSaveBook, now_. unfold bind at 1.
      destruct (Date_now P w) as [now w1]. rewrite Hnone, Hp. cbn [fst].
      destruct (saveBooks_ok P (newBook now (title_ st) (coverData_ st) []
                                :: books st) w1) as [w' Hsave].
      unfold bind at 1. rewrite Hsave. eexists _, w'.
      split; reflexivity.
Qed.

Lemma handleSaveBook_well_formed (st st' : AppState) (w w' : W) :
  well_formed st -> handleSaveBook P st w = (Ok st', w') -> well_formed st'.
Proof.
  intros [Hv Hc]. unfold handleSaveBook, now_. unfold bind at 1.
  destruct (Date_now P w) as [now w1].
  destruct (is_editing st) as [cur|].
  - unfold bind at 1.
    rewrite (updateCurrent_pure st cur now w1 (valid_no_nullish _ Hv)).
    unfold bind at 1. destruct (saveBooks_ok P
      (List.map (fun b => if has_id cur b then edited st now b else b)
                (books st)) w1) as [w2 ->].
    intros [= <- <-]. split; [|exact Hc]. cbn [books].
    apply List.Forall_forall. intros b Hb.
    apply List.in_map_iff in Hb as (b0 & <- & Hb0).
    pose proof (proj1 (List.Forall_forall _ _) Hv b0 Hb0) as Hv0.
    cbv beta in Hv0.
    destruct (has_id cur b0); [|exact Hv0].
    exact (validateBook_edited st now b0 Hc Hv0).
  - cbv zeta. unfold bind at 1.
    destruct (saveBooks_ok P (newBook now (title_ st) (coverData_ st)
                                (pages_ st) :: books st) w1) as [w2 ->].
    intros [= <- <-]. split; [|exact Hc]. cbn [books].
    constructor; [|exact Hv]. exact (validateBook_newBook _ _ _ _ Hc).
Qed.

Lemma handleFinish_well_formed (st st' : AppState) (w w' : W) :
  well_formed st -> handleFinish P st w = (Ok st', w') -> well_formed st'.
Proof.
  intros [Hv Hc]. unfold handleFinish, now_. unfold bind at 1.
  destruct (Date_now P w) as [now w1].
  destruct (is_editing st) as [cur|].
  - unfold bind at 1.
    rewrite (updateCurrent_pure st cur now w1 (valid_no_nullish _ Hv)).
    unfold bind at 1. destruct (saveBooks_ok P
      (List.map (fun b => if has_id cur b then edited st now b else b)
                (books st)) w1) as [w2 ->].
    intros [= <- <-]. split; [|exact Hc]. cbn [books].
    apply List.Forall_forall. intros b Hb.
    apply List.in_map_iff in Hb as (b0 & <- & Hb0).
    pose proof (proj1 (List.Forall_forall _ _) Hv b0 Hb0) as Hv0.
    cbv beta in Hv0.
    destruct (has_id cur b0); [|exact Hv0].
    exact (validateBook_edited st now b0 Hc Hv0).
  - destruct (Nat.ltb 0 (length (pages_ st))).
    + cbv zeta. unfold bind at 1.
      destruct (saveBooks_ok P (newBook now (title_ st) (coverData_ st)
                                  (pages_ st) :: books st) w1) as [w2 ->].
      intros [= <- <-]. split; [|exact Hc]. cbn [books].
      constructor; [|exact Hv]. exact (validateBook_newBook _ _ _ _ Hc).
    + intros [= <- <-]. split; [exact Hv|exact Hc].
Qed.

Lemma app_step_well_formed (x y : AppState * W) :
  app_step P x y -> well_formed (fst x) -> well_formed (fst y).
Proof.
  intros Hstep.
  destruct Hstep as
    [st w st' w' H|st w st' w' H|st t c ps w st' w' H|st id w st' w' H
    |st book w st' Hin H|st w|st w|st image imageScale text w st' w' H
    |st id w st' w' H|st id updates w st' w' H|st newPages w
    |st file confirm_replace w st' w' H|st file w st' w' H];
    cbn [fst]; intros Hwf.
  - exact (handleSaveBook_well_formed st st' w w' Hwf H).
  - exact (handleFinish_well_formed st st' w w' Hwf H).
  - destruct Hwf as [Hv _]. revert H.
    unfold handleAIGenerateComplete, now_. cbv zeta. unfold bind at 1.
    destruct (Date_now P w) as [now w1]. unfold bind at 1.
    destruct (saveBooks_ok P
                (newBook now t (CoverData_to_value c)
                   (List.map StoryPage_to_value ps) :: books st) w1)
      as [w2 ->].
    intros [= <- <-]. split; [|reflexivity]. cbn [books].
    constructor; [|exact Hv]. apply validateBook_newBook. reflexivity.
  - destruct Hwf as [Hv Hc]. revert H. unfold handleDeleteBook.
    unfold bind at 1.
    rewrite (filter_out_id_pure id (books st) w (valid_no_nullish _ Hv)).
    unfold bind at 1.
    destruct (saveBooks_ok P
                (List.filter (fun b => negb (has_id id b)) (books st)) w)
      as [w2 ->].
    intros [= <- <-]. split; [|exact Hc]. cbn [books].
    apply List.Forall_forall. intros b Hb.
    apply List.filter_In in Hb as [Hb _].
    exact (proj1 (List.Forall_forall _ _) Hv b Hb).
  - destruct Hwf as [Hv _].
    pose proof (proj1 (List.Forall_forall _ _) Hv book Hin) as Hb.
    cbv beta in Hb.
    destruct (validateBook_fields book Hb)
      as (fs & i & t & c & ps & -> & Hi & Ht & Hc & Hcu & Hps).
    revert H. unfold handleOpenBook, prop. cbn [getprop].
    rewrite Hi, Ht, Hps, Hc. cbn [default]. intros [= <-].
    split; [exact Hv|exact Hcu].
  - destruct Hwf as [Hv _]. split; [exact Hv|reflexivity].
  - destruct Hwf as [Hv _]. split; [exact Hv|reflexivity].
  - revert H. unfold handleAddPage, now_. unfold bind at 1.
    destruct (Date_now P w) as [now w1]. intros [= <- <-]. exact Hwf.
  - revert H. unfold handleDeletePage. unfold bind at 1.
    destruct (filter_out_id id (pages_ st) w) as [[ps|e] w1];
      [|discriminate].
    intros [= <- <-]. exact Hwf.
  - revert H. unfold handleUpdatePage. unfold bind at 1.
    destruct (mapM _ (pages_ st) w) as [[ps|e] w1]; [|discriminate].
    intros [= <- <-]. exact Hwf.
  - exact Hwf.
  - destruct Hwf as [Hv Hc]. revert H.
    unfold handleUploadBookshelf, try_catch. unfold bind at 1.
    destruct (uploadBookshelf P file (books st)
                (if confirm_replace then replace else merge) w)
      as [[r|e] w1] eqn:Hup.
    + unfold handleUpdateBooks. unfold bind at 1.
      destruct (saveBooks_ok P (bi_books r) w1) as [w2 ->].
      intros [= <- <-]. split; [|exact Hc]. cbn [books].
      exact (uploadBookshelf_valid P file (books st) _ w w1 r Hv Hup).
    + intros [= <- <-]. split; [exact Hv|exact Hc].
  - destruct Hwf as [Hv Hc]. revert H.
    unfold handleUploadSingleBook, try_catch. unfold bind at 1.
    destruct (uploadSingleBook P file (books st) w) as [[r|e] w1] eqn:Hup.
    + unfold handleUpdateBooks. unfold bind at 1.
      destruct (saveBooks_ok P (si_books r) w1) as [w2 ->].
      intros [= <- <-]. split; [|exact Hc]. cbn [books].
      exact (proj1 (uploadSingleBook_valid P file (books st) w w1 r Hv Hup)).
    + intros [= <- <-]. split; [exact Hv|exact Hc].
Qed.

(** X12. The collection stays valid: from a state whose books all pass
    [validateBook] and whose cover is defined, no sequence of handlers of
    the application (save, finish, completion of an AI run, deletion,
    opening a book of the collection, new book, page edits, imports of the
    Home screen, in any order and on any platform) leads to a state with an
    invalid book or an undefined cover. *)
Theorem books_stay_valid (x y : AppState * W) :
  app_steps P x y -> well_formed (fst x) -> well_formed (fst y).
Proof.
  induction 1 as [x|x y z Hstep _ IH]; intros Hwf; [exact Hwf|].
  apply IH. exact (app_step_well_formed x y Hstep Hwf).
Qed.

End AppSteps.

(* ===================================================================== *)
(** ** Further properties: pages, stored books and base images *)
(* ===================================================================== *)

Lemma filter_out_app (id : string) (l r : list value) :
  ~ In (VStr id) (book_ids l) ->
  List.filter (fun x => negb (has_id id x)) (l ++ r)
  = (l ++ List.filter (fun x => negb (has_id id x)) r)%list.
Proof.
  intros Hnot. rewrite List.filter_app.
  rewrite (filter_unless_has_id id l Hnot). reflexivity.
Qed.

Lemma has_id_StoryPage (id : string) (p : StoryPage) :
  has_id id (StoryPage_to_value p) = String.eqb (page_id p) id.
Proof. reflexivity. Qed.

Lemma no_nullish_pages (ps : list StoryPage) :
  no_nullish (List.map StoryPage_to_value ps).
Proof.
  induction ps as [|p ps IH]; constructor; [reflexivity|exact IH].
Qed.

Lemma no_nullish_app (l r : list value) :
  no_nullish l -> no_nullish r -> no_nullish (l ++ r).
Proof. intros Hl Hr. apply List.Forall_app. split; assumption. Qed.

Lemma pretty_Z_eqb (a b : Z) :
  String.eqb (pretty a) (pretty b) = Z.eqb a b.
Proof.
  destruct (Z.eqb a b) eqn:E.
  - apply Z.eqb_eq in E. subst b. apply String.eqb_refl.
  - apply String.eqb_neq. intros H. apply Z.eqb_neq in E. apply E.
    exact (pretty_Z_inj a b H).
Qed.

Section PageExtras.
Context {W : Type} (P : Platform W).

(** X13. A page added by hand gets the clock reading as its id, and
    deleting by that id (when no earlier page has it) gives back the pages
    as they were.  Ids are not checked for freshness: of two pages added at
    the same clock reading, deleting the first deletes both; at different
    readings, the second stays. *)
Theorem deleting_an_added_page (st : AppState) (image1 image2 : option string)
    (scale1 scale2 : number) (text1 text2 : string) (w : W) :
  no_nullish (pages_ st) ->
  ~ In (VStr (pretty (fst (Date_now P w)))) (book_ids (pages_ st)) ->
  exists st1 st1' st2 st3,
    handleAddPage P st image1 scale1 text1 w
    = (Ok st1, snd (Date_now P w)) /\
    handleDeletePage st1 (pretty (fst (Date_now P w))) (snd (Date_now P w))
    = (Ok st1', snd (Date_now P w)) /\
    pages_ st1' = pages_ st /\
    handleAddPage P st1 image2 scale2 text2 (snd (Date_now P w))
    = (Ok st2, snd (Date_now P (snd (Date_now P w)))) /\
    handleDeletePage st2 (pretty (fst (Date_now P w)))
      (snd (Date_now P (snd (Date_now P w))))
    = (Ok st3, snd (Date_now P (snd (Date_now P w)))) /\
    pages_ st3
    = (pages_ st ++
       if Z.eqb (fst (Date_now P (snd (Date_now P w)))) (fst (Date_now P w))
       then []
       else [StoryPage_to_value
               {| page_id := pretty (fst (Date_now P (snd (Date_now P w))));
                  page_image := image2; page_imageScale := scale2;
                  page_text := text2 |}])%list.
Proof.
  intros Hnn Hfresh.
  destruct (Date_now P w) as [now1 w1] eqn:Hnow1. cbn [fst snd] in *.
  destruct (Date_now P w1) as [now2 w2] eqn:Hnow2. cbn [fst snd].
  set (p1 := StoryPage_to_value
               {| page_id := pretty now1; page_image := image1;
                  page_imageScale := scale1; page_text := text1 |}).
  set (p2 := StoryPage_to_value
               {| page_id := pretty now2; page_image := image2;
                  page_imageScale := scale2; page_text := text2 |}).
  assert (Hnn1 : no_nullish (pages_ st ++ [p1])).
  { apply no_nullish_app; [exact Hnn|]. constructor; [reflexivity|constructor]. }
  assert (Hnn2 : no_nullish ((pages_ st ++ [p1]) ++ [p2])).
  { apply no_nullish_app; [exact Hnn1|].
    constructor; [reflexivity|constructor]. }
  assert (Hp1 : has_id (pretty now1) p1 = true).
  { unfold p1. rewrite has_id_StoryPage. apply String.eqb_refl. }
  assert (Hp2 : has_id (pretty now1) p2 = Z.eqb now2 now1).
  { unfold p2. rewrite has_id_StoryPage. apply pretty_Z_eqb. }
  eexists _, _, _, _. split; [|split; [|split; [|split; [|split]]]].
  - unfold handleAddPage, now_. unfold bind at 1. rewrite Hnow1. reflexivity.
  - unfold handleDeletePage. unfold bind at 1. cbn [pages_].
    rewrite (filter_out_id_pure (pretty now1) _ w1 Hnn1). reflexivity.
  - cbn [pages_]. rewrite (filter_out_app _ _ _ Hfresh).
    cbn [List.filter]. fold p1. rewrite Hp1. cbn [negb]. apply app_nil_r.
  - unfold handleAddPage, now_. unfold bind at 1. rewrite Hnow2. reflexivity.
  - unfold handleDeletePage. unfold bind at 1. cbn [pages_].
    fold p1 p2. rewrite (filter_out_id_pure (pretty now1) _ w2 Hnn2).
    reflexivity.
  - cbn [pages_]. fold p1 p2. rewrite <- app_assoc.
    rewrite (filter_out_app _ _ _ Hfresh). cbn [List.filter app].
    rewrite Hp1, Hp2. cbn [negb]. destruct (Z.eqb now2 now1); reflexivity.
Qed.

(** X14. Updating a page keeps the pages pages: on a list of pages of the
    data model, an update with any subset of the fields of a page replaces
    those fields in the pages that have the given id and leaves all other
    pages, their number and their order as they are; it never fails and
    touches neither the books nor the world.  With an id that no page has,
    nothing changes. *)
Theorem updating_a_page (st : AppState) (ps : list StoryPage) (id : string)
    (u : PageUpdates) (w : W) :
  pages_ st = List.map StoryPage_to_value ps ->
  exists st',
    handleUpdatePage st id (PageUpdates_to_value u) w = (Ok st', w) /\
    pages_ st'
    = List.map StoryPage_to_value
        (List.map (fun p => if String.eqb (page_id p) id
                            then apply_updates u p else p) ps) /\
    books st' = books st /\ currentBookId st' = currentBookId st /\
    (~ In id (List.map page_id ps) -> pages_ st' = pages_ st).
Proof.
  intros Hps. unfold handleUpdatePage. unfold bind at 1.
  rewrite (mapM_update_by_id id
             (fun p => spread_with p (own_props (PageUpdates_to_value u)))
             (pages_ st) w)
    by (rewrite Hps; apply no_nullish_pages).
  eexists. split; [reflexivity|]. cbn [pages_ books currentBookId].
  assert (Heq : List.map (fun x => if has_id id x
                          then spread_with x
                                 (own_props (PageUpdates_to_value u))
                          else x) (pages_ st)
                = List.map StoryPage_to_value
                    (List.map (fun p => if String.eqb (page_id p) id
                                        then apply_updates u p else p) ps)).
  { rewrite Hps, !List.map_map. apply List.map_ext. intros p.
    rewrite has_id_StoryPage. destruct (String.eqb (page_id p) id);
      [|reflexivity].
    destruct u as [[i|] [im|] [n|] [t|]]; reflexivity. }
  split; [exact Heq|]. split; [reflexivity|]. split; [reflexivity|].
  intros Hnot. rewrite Heq, Hps. f_equal.
  rewrite <- (List.map_id ps) at 2. apply List.map_ext_in. intros p Hp.
  destruct (String.eqb (page_id p) id) eqn:E; [|reflexivity].
  exfalso. apply Hnot. apply String.eqb_eq in E. rewrite <- E.
  apply List.in_map. exact Hp.
Qed.

End PageExtras.

(** X15. Loading the stored books never raises, whatever the storage does:
    a storage that raises, holds nothing, or holds a text that is not JSON
    gives the empty collection.  A stored JSON document is returned as it
    is, without any check that it is an array of books. *)
Theorem loadBooks_never_raises {S : Type} (getItem : M S (option Text))
    (s : S) :
  exists v,
    loadBooks getItem s = (Ok v, snd (getItem s)) /\
    match fst (getItem s) with
    | Ok (Some (JSONText doc)) => v = doc
    | _ => v = VArr []
    end.
Proof.
  unfold loadBooks, try_catch, bind.
  destruct (getItem s) as [[[[m|doc]|]|e] s1]; cbn [fst snd];
    eexists; split; reflexivity.
Qed.

Lemma take_2_snoc (A : Type) (l : list A) (y : A) :
  take 2 (take 2 l ++ [y]) = take 2 (l ++ [y]).
Proof. destruct l as [|a [|b l]]; reflexivity. Qed.

Lemma handleImageUpload_take (base loaded : list string) :
  length base < 3 ->
  take 2 (handleImageUpload base loaded) = take 2 (base ++ loaded).
Proof.
  intros Hlt. unfold handleImageUpload.
  assert (Nat.leb 3 (length base) = false) as -> by (apply Nat.leb_gt; lia).
  induction loaded as [|y l IH] using List.rev_ind.
  - rewrite app_nil_r. reflexivity.
  - rewrite List.fold_left_app. cbn [fold_left]. unfold addBaseImage at 1.
    rewrite take_2_snoc.
    rewrite app_assoc.
    rewrite <- (take_2_snoc _ (base ++ l) y), <- IH.
    rewrite take_2_snoc. reflexivity.
Qed.

(** X16. Base images are capped at three.  With three images already,
    choosing files changes nothing.  With fewer, the images after a choice
    of files are the first two of the earlier images followed by the loaded
    ones, and then the file loaded last: every loaded file in between is
    dropped. *)
Theorem image_upload_keeps_three (base : list string) :
  (forall loaded,
     length base <= 3 -> length (handleImageUpload base loaded) <= 3)
  /\ (forall loaded, 3 <= length base -> handleImageUpload base loaded = base)
  /\ (forall loaded result,
        length base < 3 ->
        handleImageUpload base (loaded ++ [result])
        = (take 2 (base ++ loaded) ++ [result])%list).
Proof.
  assert (Hlast : forall loaded result,
            length base < 3 ->
            handleImageUpload base (loaded ++ [result])
            = (take 2 (base ++ loaded) ++ [result])%list).
  { intros loaded result Hlt.
    rewrite <- (handleImageUpload_take base loaded Hlt).
    unfold handleImageUpload.
    assert (Nat.leb 3 (length base) = false) as -> by (apply Nat.leb_gt; lia).
    rewrite List.fold_left_app. reflexivity. }
  assert (Hfull : forall loaded,
            3 <= length base -> handleImageUpload base loaded = base).
  { intros loaded Hge. unfold handleImageUpload.
    assert (Nat.leb 3 (length base) = true) as -> by (apply Nat.leb_le; lia).
    induction loaded as [|y l IH] using List.rev_ind; [reflexivity|].
    rewrite List.fold_left_app. exact IH. }
  split; [|split; [exact Hfull|exact Hlast]].
  intros loaded Hle.
  destruct (Nat.eq_dec (length base) 3) as [H3|H3].
  - rewrite Hfull by lia. lia.
  - destruct loaded as [|y l] using List.rev_ind.
    + unfold handleImageUpload. cbn [fold_left]. exact Hle.
    + rewrite Hlast by lia. rewrite length_app, length_take. cbn [length]. lia.
Qed.

Lemma map_snd_imap (A : Type) (g : nat -> nat) (l : list A) :
  List.map snd (imap (fun i x => (g i, x)) l) = l.
Proof.
  revert g. induction l as [|x l IH]; intros g; [reflexivity|].
  cbn [imap List.map snd]. f_equal. exact (IH (fun i => g (S i))).
Qed.

Lemma filter_keeps_all (A : Type) (f : A -> bool) (l : list A) :
  (forall x, In x l -> f x = true) -> List.filter f l = l.
Proof.
  induction l as [|x l IH]; intros H; [reflexivity|].
  cbn [List.filter]. rewrite (H x) by (left; reflexivity).
  rewrite IH; [reflexivity|]. intros y Hy. apply H. right. exact Hy.
Qed.

Lemma filter_keeps_none (A : Type) (f : A -> bool) (l : list A) :
  (forall x, In x l -> f x = false) -> List.filter f l = [].
Proof.
  induction l as [|x l IH]; intros H; [reflexivity|].
  cbn [List.filter]. rewrite (H x) by (left; reflexivity).
  apply IH. intros y Hy. apply H. right. exact Hy.
Qed.

Lemma removeImage_shift (k index : nat) (prev : list string) :
  List.map snd
    (List.filter (fun ix : nat * string => negb (Nat.eqb (fst ix) (k + index)))
                 (imap (fun i x => (k + i, x)) prev))
  = (take index prev ++ drop (S index) prev)%list.
Proof.
  revert k index. induction prev as [|x l IH]; intros k index.
  - destruct index; reflexivity.
  - cbn [imap List.filter fst].
    rewrite (imap_ext _ (fun i y => (S k + i, y)) l)
      by (intros i y _; cbn; f_equal; lia).
    destruct index as [|index].
    + rewrite Nat.eqb_refl. cbn [negb take drop app].
      rewrite filter_keeps_all; [apply map_snd_imap|].
      intros [i y] Hin. cbn [fst].
      apply list_elem_of_In, elem_of_lookup_imap in Hin as (j & z & Heq & Hj).
      injection Heq as -> ->.
      apply Bool.negb_true_iff, Nat.eqb_neq. lia.
    + assert (Nat.eqb (k + 0) (k + S index) = false) as ->
        by (apply Nat.eqb_neq; lia).
      cbn [negb List.map snd take drop app]. f_equal.
      replace (k + S index) with (S k + index) by lia. apply IH.
Qed.

(** X17. Removing a base image removes the image at the given position and
    no other: the images before it and after it stay, in order; a position
    beyond the last image removes nothing. *)
Theorem removeImage_removes_one (index : nat) (prev : list string) :
  removeImage index prev = (take index prev ++ drop (S index) prev)%list
  /\ (index < length prev -> S (length (removeImage index prev)) = length prev)
  /\ (length prev <= index -> removeImage index prev = prev).
Proof.
  assert (H : removeImage index prev
              = (take index prev ++ drop (S index) prev)%list).
  { unfold removeImage. exact (removeImage_shift 0 index prev). }
  split; [exact H|]. split.
  - intros Hlt. rewrite H, length_app, length_take, length_drop. lia.
  - intros Hle. rewrite H. rewrite take_ge, drop_ge by lia. apply app_nil_r.
Qed.

(* ===================================================================== *)
(** ** Further properties: the generation client *)
(* ===================================================================== *)

Lemma substring_all (s : string) : String.substring 0 (String.length s) s = s.
Proof.
  induction s as [|c s IH]; [reflexivity|].
  cbn [String.substring String.length]. f_equal. exact IH.
Qed.

Lemma strip_prefix_app (p s : string) : strip_prefix p (p +:+ s) = Some s.
Proof.
  unfold strip_prefix.
  assert (Hp : String.prefix p (p +:+ s) = true).
  { induction p as [|c p IH]; [destruct s; reflexivity|]. simpl.
    destruct (ascii_dec c c) as [_|Hne]; [exact IH|destruct Hne; reflexivity]. }
  rewrite Hp. f_equal. induction p as [|c p IH].
  - simpl. rewrite Nat.sub_0_r. apply substring_all.
  - simpl in *. apply IH.
    destruct (ascii_dec c c) as [_|Hne]; [exact Hp|destruct Hne; reflexivity].
Qed.

Lemma split_base64_none (s : string) :
  string_forall not_semicolon s = true ->
  forall acc, split_base64 acc s = None.
Proof.
  induction s as [|c r IH]; intros Hs acc; [reflexivity|].
  cbn [string_forall] in Hs. apply andb_prop in Hs as [Hc Hr].
  cbn [split_base64]. rewrite (IH Hr).
  unfold strip_prefix. cbn [String.prefix].
  destruct (ascii_dec ";" c) as [<-|_]; [discriminate|reflexivity].
Qed.

Lemma split_base64_here (acc payload : string) :
  acc <> "" -> payload <> "" ->
  string_forall not_semicolon payload = true ->
  split_base64 acc (";base64," +:+ payload) = Some (acc, payload).
Proof.
  intros Ha Hp Hs.
  change (";base64," +:+ payload) with (String ";" ("base64," +:+ payload)).
  cbn [split_base64].
  rewrite split_base64_none
    by (rewrite string_forall_app, Hs; reflexivity).
  change (String ";" ("base64," +:+ payload)) with (";base64," +:+ payload).
  rewrite strip_prefix_app.
  apply String.eqb_neq in Ha, Hp. rewrite Ha, Hp. reflexivity.
Qed.

Lemma append_nil_r (s : string) : s +:+ "" = s.
Proof.
  induction s as [|c s IH]; [reflexivity|].
  change (String c (s +:+ "") = String c s). f_equal. exact IH.
Qed.

Lemma append_assoc (a b c : string) : (a +:+ b) +:+ c = a +:+ (b +:+ c).
Proof.
  induction a as [|x a IH]; [reflexivity|].
  change (String x ((a +:+ b) +:+ c) = String x (a +:+ (b +:+ c))).
  f_equal. exact IH.
Qed.

Lemma split_base64_mime (payload : string) :
  payload <> "" ->
  string_forall not_semicolon payload = true ->
  forall mime acc,
    acc +:+ mime <> "" ->
    split_base64 acc (mime +:+ ";base64," +:+ payload)
    = Some (acc +:+ mime, payload).
Proof.
  intros Hp Hs. induction mime as [|c m IH]; intros acc Hne.
  - rewrite append_nil_r in Hne. rewrite append_nil_r.
    exact (split_base64_here acc payload Hne Hp Hs).
  - change (String c m +:+ ";base64," +:+ payload)
      with (String c (m +:+ ";base64," +:+ payload)).
    cbn [split_base64]. rewrite IH.
    + rewrite append_assoc. reflexivity.
    + rewrite append_assoc. simpl. destruct acc; discriminate.
Qed.

Lemma first_inline_image_skip (before rest : list Part) :
  Forall (fun p => inlineData p = None) before ->
  first_inline_image (before ++ rest) = first_inline_image rest.
Proof.
  induction 1 as [|p before Hp _ IH]; [reflexivity|].
  cbn [app first_inline_image]. rewrite Hp. exact IH.
Qed.

Lemma mime_of_nonempty (d : InlineData) : mime_of d <> "".
Proof.
  unfold mime_of. destruct (mimeType d) as [m|]; [|discriminate].
  destruct (String.eqb m "") eqn:E; [discriminate|].
  apply String.eqb_neq. exact E.
Qed.

Section ClientExtras.
Context {W : Type} (P : Platform W).

(** X18. The image [generateImage] takes from a reply is the first part
    that carries inline data; parts before it carry none, parts after it are
    ignored.  The data URL it builds can be used again as a base image: when
    the payload is not empty and holds no semicolon (as in base64), and the
    mime type and the payload hold no line terminator, the expression of
    [analyzeBaseImages] takes the URL apart into the same mime type and
    payload, and these are what is sent for analysis. *)
Theorem generated_image_parses_back (before after : list Part)
    (d : InlineData) (apiKey modelName : string) (w : W) :
  Forall (fun p => inlineData p = None) before ->
  payload_of d <> "" ->
  string_forall not_semicolon (payload_of d) = true ->
  has_line_terminator (mime_of d +:+ ";base64," +:+ payload_of d) = false ->
  exists url,
    first_inline_image (before ++ {| inlineData := Some d |} :: after)
    = Some url /\
    url = "data:" +:+ mime_of d +:+ ";base64," +:+ payload_of d /\
    match_data_url url = Some (mime_of d, payload_of d) /\
    analyzeBaseImages P apiKey [url] modelName w
    = match GenerativeModel_generateContent P apiKey modelName
              (ImageRequest (mime_of d) (payload_of d)
                 "この画像のスタイル、色使い、雰囲気を簡潔に英語で説明してください（50語以内）:")
              w with
      | (Ok text, w') => (Ok [text], w')
      | (Throw _, w') => (Ok [], console_error P "Image analysis failed:" w')
      end.
Proof.
  intros Hbefore Hp Hs Hlt.
  exists ("data:" +:+ mime_of d +:+ ";base64," +:+ payload_of d).
  assert (Hm : match_data_url
                 ("data:" +:+ mime_of d +:+ ";base64," +:+ payload_of d)
               = Some (mime_of d, payload_of d)).
  { unfold match_data_url. rewrite strip_prefix_app, Hlt.
    rewrite (split_base64_mime (payload_of d) Hp Hs (mime_of d) "").
    - reflexivity.
    - exact (mime_of_nonempty d). }
  split; [|split; [reflexivity|split; [exact Hm|]]].
  - rewrite (first_inline_image_skip before _ Hbefore). reflexivity.
  - unfold analyzeBaseImages. cbn [analyzeBaseImages_loop]. rewrite Hm.
    unfold bind at 1. unfold try_catch, bind at 1.
    destruct (GenerativeModel_generateContent P apiKey modelName _ w)
      as [[text|e] w1]; reflexivity.
Qed.

Lemma analyzeBaseImages_loop_bound (apiKey modelName : string)
    (images : list string) :
  forall (descriptions : list string) (w : W),
  exists new w',
    analyzeBaseImages_loop P apiKey images modelName descriptions w
    = (Ok (descriptions ++ new)%list, w') /\
    length new <= length (List.filter is_data_url images) /\
    (List.filter is_data_url images = [] -> new = [] /\ w' = w).
Proof.
  induction images as [|imageData rest IH]; intros descriptions w.
  - exists [], w. rewrite app_nil_r. repeat split; reflexivity || lia.
  - cbn [analyzeBaseImages_loop List.filter].
    destruct (match_data_url imageData) as [[mime base64Data]|] eqn:Hm.
    + assert (Hd : is_data_url imageData = true)
        by (unfold is_data_url; rewrite Hm; reflexivity).
      rewrite Hd. unfold bind at 1. unfold try_catch, bind at 1.
      destruct (GenerativeModel_generateContent P apiKey modelName _ w)
        as [[text|e] w1].
      * destruct (IH (descriptions ++ [text])%list w1)
          as (new & w' & Heq & Hlen & _).
        exists (text :: new), w'. rewrite <- app_assoc in Heq.
        split; [exact Heq|]. split; [cbn [length]; lia|discriminate].
      * destruct (IH descriptions (console_error P "Image analysis failed:" w1))
          as (new & w' & Heq & Hlen & _).
        exists new, w'. split; [exact Heq|].
        split; [cbn [length]; lia|discriminate].
    + assert (Hd : is_data_url imageData = false)
        by (unfold is_data_url; rewrite Hm; reflexivity).
      rewrite Hd. exact (IH descriptions w).
Qed.

(** X19. The analysis of the base images never raises: a call of the model
    that fails is logged and its image skipped.  It returns at most one
    description per image that is a data URL; images that are not data URLs
    are skipped without any call, so that with none the result is empty and
    nothing at all is done. *)
Theorem analyzeBaseImages_never_raises (apiKey modelName : string)
    (images : list string) (w : W) :
  exists descriptions w',
    analyzeBaseImages P apiKey images modelName w = (Ok descriptions, w') /\
    length descriptions <= length (List.filter is_data_url images) /\
    length descriptions <= length images /\
    (List.filter is_data_url images = [] -> descriptions = [] /\ w' = w).
Proof.
  unfold analyzeBaseImages.
  destruct (analyzeBaseImages_loop_bound apiKey modelName images [] w)
    as (new & w' & Heq & Hlen & Hnone).
  exists new, w'. split; [exact Heq|]. split; [exact Hlen|].
  split; [|exact Hnone].
  pose proof (List.filter_length_le is_data_url images). lia.
Qed.

End ClientExtras.

(* ===================================================================== *)
(** ** Further properties: the generation run *)
(* ===================================================================== *)

Lemma pages_trace_no_outcome s n i pages texts r evs :
  pages_trace s n i pages texts r evs -> List.filter is_outcome evs = [].
Proof.
  induction 1 as [| | |n i pages texts t p img now res evs _ IH];
    try reflexivity.
  rewrite List.filter_app, IH. reflexivity.
Qed.

Lemma cover_trace_no_outcome s img evs :
  cover_trace s img evs -> List.filter is_outcome evs = [].
Proof. destruct 1; reflexivity. Qed.

Lemma book_trace_outcome s r evs :
  book_trace s r evs ->
  length (List.filter is_outcome evs)
  = match r with Ok _ => 1 | Throw _ => 0 end.
Proof.
  destruct 1 as [e evs Hpt|pages evs cover cevs Hpt Hct];
    rewrite !List.filter_app, (pages_trace_no_outcome _ _ _ _ _ _ _ Hpt).
  - destruct (Nat.ltb 0 (length (baseImages s))); reflexivity.
  - rewrite (cover_trace_no_outcome _ _ _ Hct).
    destruct (Nat.ltb 0 (length (baseImages s))); reflexivity.
Qed.

Lemma run_trace_outcome s k evs :
  run_trace s k evs ->
  length (List.filter is_outcome evs) = 1 /\
  (In (setIsGenerating true) evs ->
   head evs = Some (setIsGenerating true) /\
   last evs = Some (setIsGenerating false) /\
   length (List.filter (fun ev => match ev with
                                  | setIsGenerating _ => true
                                  | _ => false
                                  end) evs) = 2) /\
  (~ In (setIsGenerating true) evs -> exists m, evs = [setError (Some m)]).
Proof.
  assert (Hbook : forall r bevs, book_trace s r bevs ->
            List.filter (fun ev => match ev with
                                   | setIsGenerating _ => true
                                   | _ => false
                                   end) bevs = []).
  { intros r bevs Hbt. apply filter_keeps_none. intros ev Hin.
    destruct ev; try reflexivity. exfalso.
    destruct Hbt as [e pevs Hpt|pages pevs cover cevs Hpt Hct];
      rewrite !List.in_app_iff in Hin.
    - destruct Hin as [Hin|Hin].
      + destruct (Nat.ltb 0 (length (baseImages s))); simpl in Hin;
          intuition discriminate.
      + exact (pages_trace_quiet _ _ _ _ _ _ _ Hpt _ Hin).
    - destruct Hin as [Hin|[Hin|[Hin|[Hin|Hin]]]].
      + destruct (Nat.ltb 0 (length (baseImages s))); simpl in Hin;
          intuition discriminate.
      + exact (pages_trace_quiet _ _ _ _ _ _ _ Hpt _ Hin).
      + simpl in Hin. intuition discriminate.
      + destruct Hct; simpl in Hin; intuition discriminate.
      + simpl in Hin. intuition discriminate. }
  inversion 1 as [k0 Hk|apiKey Hk Ht|apiKey e0 bevs Hk Ht Hbt
                 |apiKey bevs Hk Ht Hbt]; subst.
  - split; [reflexivity|]. split.
    + intros [Hin|[]]. discriminate.
    + intros _. eexists. reflexivity.
  - split; [reflexivity|]. split.
    + intros [Hin|[]]. discriminate.
    + intros _. eexists. reflexivity.
  - split; [|split].
    + cbn [app List.filter is_outcome]. rewrite List.filter_app, length_app.
      rewrite (book_trace_outcome _ _ _ Hbt). reflexivity.
    + intros _. split; [reflexivity|]. split; [rewrite !last_app; reflexivity|].
      cbn [app List.filter]. rewrite List.filter_app, (Hbook _ _ Hbt).
      reflexivity.
    + intros Hnot. exfalso. apply Hnot. left. reflexivity.
  - split; [|split].
    + cbn [app List.filter is_outcome]. rewrite List.filter_app, length_app.
      rewrite (book_trace_outcome _ _ _ Hbt). reflexivity.
    + intros _. split; [reflexivity|]. split; [rewrite !last_app; reflexivity|].
      cbn [app List.filter]. rewrite List.filter_app, (Hbook _ _ Hbt).
      reflexivity.
    + intros Hnot. exfalso. apply Hnot. left. reflexivity.
Qed.

Lemma trim_is_empty_white_space (p s : string) :
  In p white_space -> trim_is_empty (p +:+ s) = trim_is_empty s.
Proof.
  intros Hin. unfold white_space in Hin. cbn [List.map In] in Hin.
  repeat (destruct Hin as [<-|Hin]; [reflexivity|]). destruct Hin.
Qed.

Lemma trim_is_empty_blank (s : string) : blank s -> trim_is_empty s = true.
Proof.
  intros (pieces & Hall & ->).
  induction Hall as [|p pieces Hp _ IH]; [reflexivity|].
  cbn [fold_right]. rewrite (trim_is_empty_white_space _ _ Hp). exact IH.
Qed.

Lemma drawn_from_incl (evs evs' : list Event) (t : string)
    (image : option string) :
  (forall ev, In ev evs -> In ev evs') ->
  drawn_from evs t image -> drawn_from evs' t image.
Proof.
  intros Hincl (prompt & outcome & H1 & H2 & H3).
  exists prompt, outcome. split; [exact (Hincl _ H1)|].
  split; [exact (Hincl _ H2)|exact H3].
Qed.

Lemma pages_trace_pages s n i pages texts ps evs :
  pages_trace s n i pages texts (Ok ps) evs ->
  exists new,
    ps = (pages ++ new)%list /\
    (forall k p, new !! k = Some p ->
       exists now : Z, page_id p = pretty now +:+ pretty (i + k)) /\
    Forall (fun p => page_imageScale p = Finite 1 /\
                     drawn_from evs (page_text p) (page_image p)) new.
Proof.
  remember (Ok ps) as r eqn:Hr.
  induction 1 as [| | |n i pages texts t p img now res evs _ IH];
    try discriminate.
  - injection Hr as ->. exists []. rewrite List.app_nil_r.
    split; [reflexivity|]. split; [intros k p Hk; discriminate|constructor].
  - destruct (IH Hr) as (new & -> & Hids & Hfrom).
    exists (newPage now i (image_of_outcome img) t :: new).
    rewrite <- List.app_assoc. split; [reflexivity|]. split.
    + intros [|k] q Hq.
      * injection Hq as <-. exists now. rewrite Nat.add_0_r. reflexivity.
      * destruct (Hids k q Hq) as [now' Hid]. exists now'.
        rewrite Hid, Nat.add_succ_r. reflexivity.
    + constructor.
      * split; [reflexivity|]. exists p, img. cbn [page_text page_image newPage].
        split; [|split; [|reflexivity]]; simpl; tauto.
      * apply (List.Forall_impl _ (P := fun p0 =>
                  page_imageScale p0 = Finite 1 /\
                  drawn_from evs (page_text p0) (page_image p0)));
          [|exact Hfrom].
        intros q [Hq1 Hq2]. split; [exact Hq1|].
        apply (drawn_from_incl evs); [|exact Hq2].
        intros ev Hev. apply List.in_app_iff. right. exact Hev.
Qed.

(** What a run that hands a book over went through. *)
Lemma run_trace_completed_inv s k evs t c ps :
  run_trace s k evs ->
  In (onGenerate t c ps) evs ->
  exists pevs cover cevs,
    pages_trace s (pageCount s) 1 [] [] (Ok ps) pevs /\
    cover_trace s cover cevs /\
    t = theme s /\
    c = {| cover_image := cover; cover_imageScale := Finite 1 |} /\
    (forall ev, In ev pevs -> In ev evs) /\
    (forall ev, In ev cevs -> In ev evs).
Proof.
  inversion 1 as [k0 Hk|apiKey Hk Ht|apiKey e0 bevs Hk Ht Hbt
                 |apiKey bevs Hk Ht Hbt]; subst; intros Hin.
  - destruct Hin as [Hin|[]]. discriminate.
  - destruct Hin as [Hin|[]]. discriminate.
  - exfalso. destruct (book_trace_Throw _ _ _ Hbt) as (Hno & _ & _).
    simpl in Hin. destruct Hin as [Hin|[Hin|[Hin|Hin]]]; try discriminate.
    apply List.in_app_iff in Hin as [Hin|Hin]; [exact (Hno _ _ _ Hin)|].
    simpl in Hin. intuition discriminate.
  - inversion Hbt as [|pages' pevs cover cevs Hpt Hct Heq]; subst.
    destruct (cover_trace_silent _ _ _ Hct) as (_ & _ & Hcg).
    simpl in Hin. destruct Hin as [Hin|[Hin|[Hin|Hin]]]; try discriminate.
    apply List.in_app_iff in Hin as [Hin|Hin];
      [|simpl in Hin; intuition discriminate].
    rewrite !List.in_app_iff in Hin.
    assert (Hthe : onGenerate (theme s)
                     {| cover_image := cover; cover_imageScale := Finite 1 |}
                     pages' = onGenerate t c ps).
    { destruct Hin as [Hin|[Hin|Hin]].
      - destruct (Nat.ltb 0 (length (baseImages s))); simpl in Hin;
          intuition discriminate.
      - apply (pages_trace_quiet _ _ _ _ _ _ _ Hpt) in Hin. contradiction.
      - simpl in Hin. destruct Hin as [Hin|Hin]; [discriminate|].
        apply List.in_app_iff in Hin as [Hin|Hin].
        + apply Hcg in Hin. contradiction.
        + simpl in Hin. destruct Hin as [Hin|[Hin|[]]]; [discriminate|].
          exact Hin. }
    injection Hthe as <- <- <-.
    exists pevs, cover, cevs.
    split; [exact Hpt|]. split; [exact Hct|]. split; [reflexivity|].
    split; [reflexivity|]. split.
    + intros ev Hev. rewrite !List.in_app_iff. tauto.
    + intros ev Hev. rewrite !List.in_app_iff. tauto.
Qed.

Lemma last_ascii_app (a b : string) :
  b <> "" ->
  last (list_ascii_of_string (a +:+ b)) = last (list_ascii_of_string b).
Proof.
  intros Hb. induction a as [|c a IH]; [reflexivity|].
  change (String c a +:+ b) with (String c (a +:+ b)).
  cbn [list_ascii_of_string]. rewrite <- IH.
  destruct (list_ascii_of_string (a +:+ b)) as [|x l] eqn:E; [|reflexivity].
  exfalso. destruct a; [destruct b; [congruence|discriminate]|discriminate].
Qed.

(** Two ids that end in different page numbers from 1 to 10 differ, whatever
    clock readings they start with: their last characters differ. *)
Lemma page_ids_differ (a b : string) (m n : nat) :
  1 <= m <= 10 -> 1 <= n <= 10 -> m <> n ->
  a +:+ pretty m <> b +:+ pretty n.
Proof.
  intros Hm Hn Hne Heq.
  apply (f_equal (fun s => last (list_ascii_of_string s))) in Heq.
  assert (Hm' : m = 1 \/ m = 2 \/ m = 3 \/ m = 4 \/ m = 5 \/ m = 6 \/ m = 7
                \/ m = 8 \/ m = 9 \/ m = 10) by lia.
  assert (Hn' : n = 1 \/ n = 2 \/ n = 3 \/ n = 4 \/ n = 5 \/ n = 6 \/ n = 7
                \/ n = 8 \/ n = 9 \/ n = 10) by lia.
  clear Hm Hn.
  repeat (destruct Hm' as [->|Hm']); try subst m;
    repeat (destruct Hn' as [->|Hn']); try subst n;
    try (destruct Hne; reflexivity);
    rewrite !last_ascii_app in Heq by (vm_compute; discriminate);
    vm_compute in Heq; discriminate.
Qed.

Lemma ids_distinct (new : list StoryPage) :
  forall i : nat,
    (forall k p, new !! k = Some p ->
       exists now : Z, page_id p = pretty now +:+ pretty (i + k)) ->
    1 <= i -> i + length new <= 11 ->
    List.NoDup (List.map page_id new).
Proof.
  induction new as [|p new IH]; intros i Hids Hi Hlen; [constructor|].
  cbn [List.map length] in *. apply List.NoDup_cons.
  - intros Hin. apply List.in_map_iff in Hin as (q & Hq & Hin).
    apply list_elem_of_In, list_elem_of_lookup in Hin as [k Hk].
    destruct (Hids 0 p eq_refl) as [now1 H1].
    destruct (Hids (S k) q Hk) as [now2 H2].
    apply lookup_lt_Some in Hk.
    rewrite H1, H2 in Hq.
    apply (page_ids_differ (pretty now2) (pretty now1) (i + S k) (i + 0));
      [lia|lia|lia|exact Hq].
  - apply (IH (S i)); [|lia|lia].
    intros k q Hk. destruct (Hids (S k) q Hk) as [now Hnow].
    exists now. rewrite Hnow, Nat.add_succ_r. reflexivity.
Qed.

Section RunExtras.
Context {W : Type} (P : Platform W).

(** X20. Every run of the generator ends, and ends with exactly one
    outcome: either one book handed over or one error reported, never both
    and never neither.  A run that starts generating switches the generating
    flag on first and off last, and touches it nowhere in between, whether
    it succeeds or fails; a run that does not start reports an error and
    does nothing else. *)
Theorem run_has_one_outcome (getApiKey : option string)
    (s : AIGeneratorState) (w : W) :
  let out := handleGenerate P getApiKey s (start w) in
  let tr := trace (snd out) in
  fst out = Ok tt /\
  length (List.filter is_outcome tr) = 1 /\
  (In (setIsGenerating true) tr ->
   head tr = Some (setIsGenerating true) /\
   last tr = Some (setIsGenerating false) /\
   length (List.filter is_setIsGenerating tr) = 2) /\
  (~ In (setIsGenerating true) tr -> exists m, tr = [setError (Some m)]).
Proof.
  destruct (handleGenerate_run P getApiKey s w) as (evs & w' & Hrun & Htr).
  cbv zeta. rewrite Hrun. cbn [fst snd trace].
  split; [reflexivity|]. exact (run_trace_outcome s getApiKey evs Htr).
Qed.

(** X21. Without an API key (none, or an empty one), and otherwise with a
    theme made of white space only (spaces, tabs, line ends, the ideographic
    space and the like), a run is refused before anything is done: the
    error is reported, the model is not called and the world is left as it
    was.  The key is checked first. *)
Theorem blank_theme_is_rejected (getApiKey : option string)
    (s : AIGeneratorState) (w : W) :
  (getApiKey = None \/ getApiKey = Some "" ->
   handleGenerate P getApiKey s (start w)
   = (Ok tt, {| world := w;
                trace := [setError (Some "APIキーが設定されていません")] |}))
  /\ (forall apiKey,
        getApiKey = Some apiKey -> apiKey <> "" -> blank (theme s) ->
        handleGenerate P getApiKey s (start w)
        = (Ok tt, {| world := w;
                     trace := [setError (Some "テーマを入力してください")] |})).
Proof.
  split.
  - intros [->| ->]; reflexivity.
  - intros apiKey -> Hk Hblank. unfold handleGenerate.
    apply String.eqb_neq in Hk. rewrite Hk.
    rewrite (trim_is_empty_blank _ Hblank). reflexivity.
Qed.

(** X22. The book a run hands over is made of what the calls gave: its
    title is the theme; each page has scale 1 and the image drawn for its
    own text (the prompt derived from the text of that page was given to
    the image model, and the page has the image of that call, or none when
    the call raised); the cover has scale 1 and the image drawn for the
    cover text, or none when deriving its prompt raised. *)
Theorem book_comes_from_the_calls (getApiKey : option string)
    (s : AIGeneratorState) (w : W) (t : string) (c : CoverData)
    (ps : list StoryPage) :
  let tr := trace (snd (handleGenerate P getApiKey s (start w))) in
  In (onGenerate t c ps) tr ->
  t = theme s /\
  cover_imageScale c = Finite 1 /\
  Forall (fun p => page_imageScale p = Finite 1 /\
                   drawn_from tr (page_text p) (page_image p)) ps /\
  ((cover_image c = None /\
    exists e, In (called_generateImagePrompt (coverStory s) (Throw e)) tr)
   \/ drawn_from tr (coverStory s) (cover_image c)).
Proof.
  destruct (handleGenerate_run P getApiKey s w) as (evs & w' & Hrun & Htr).
  cbv zeta. rewrite Hrun. cbn [snd trace]. intros Hin.
  destruct (run_trace_completed_inv s getApiKey evs t c ps Htr Hin)
    as (pevs & cover & cevs & Hpt & Hct & -> & -> & Hpin & Hcin).
  split; [reflexivity|]. split; [reflexivity|]. split.
  - destruct (pages_trace_pages _ _ _ _ _ _ _ Hpt) as (new & Hps & _ & Hfrom).
    cbn [app] in Hps. subst new.
    apply (List.Forall_impl _ (P := fun p =>
              page_imageScale p = Finite 1 /\
              drawn_from pevs (page_text p) (page_image p)));
      [|exact Hfrom].
    intros q [Hq1 Hq2]. split; [exact Hq1|].
    exact (drawn_from_incl pevs evs _ _ Hpin Hq2).
  - cbn [cover_image]. destruct Hct as [e|p img].
    + left. split; [reflexivity|]. exists e. apply Hcin. left. reflexivity.
    + right. exists p, img. split; [apply Hcin; left; reflexivity|].
      split; [apply Hcin; right; left; reflexivity|reflexivity].
Qed.

(** X23. The pages of a generated book have distinct ids when the book has
    at most ten pages (the sizes the generator offers are 3, 5, 7 and 10),
    whatever the clock reads, even when it stands still: the id of a page is
    the clock reading followed by the page number, and the numbers 1 to 10
    end in different digits. *)
Theorem generated_page_ids_are_distinct (getApiKey : option string)
    (s : AIGeneratorState) (w : W) (t : string) (c : CoverData)
    (ps : list StoryPage) :
  pageCount s <= 10 ->
  In (onGenerate t c ps)
     (trace (snd (handleGenerate P getApiKey s (start w)))) ->
  List.NoDup (List.map page_id ps) /\
  forall k p, ps !! k = Some p ->
    exists now : Z, page_id p = pretty now +:+ pretty (S k).
Proof.
  intros Hcount.
  destruct (handleGenerate_run P getApiKey s w) as (evs & w' & Hrun & Htr).
  rewrite Hrun. cbn [snd trace]. intros Hin.
  destruct (run_trace_completed_inv s getApiKey evs t c ps Htr Hin)
    as (pevs & cover & cevs & Hpt & _).
  destruct (pages_trace_pages _ _ _ _ _ _ _ Hpt) as (new & Hps & Hids & _).
  destruct (pages_trace_Ok_pages _ _ _ _ _ _ _ Hpt)
    as (new' & Hps' & Hlen & _).
  cbn [app] in Hps, Hps'. subst new new'.
  split; [|exact Hids].
  apply (ids_distinct ps 1 Hids); lia.
Qed.

End RunExtras.

Lemma run_trace_completed_theme s k evs t c ps :
  run_trace s k evs ->
  In (onGenerate t c ps) evs ->
  trim_is_empty (theme s) = false.
Proof.
  inversion 1 as [k0 Hk|apiKey Hk Ht|apiKey e0 bevs Hk Ht Hbt
                 |apiKey bevs Hk Ht Hbt]; subst; intros Hin.
  - destruct Hin as [Hin|[]]. discriminate.
  - destruct Hin as [Hin|[]]. discriminate.
  - exact Ht.
  - exact Ht.
Qed.

Section StoredRun.
Context {W : Type} (P : Platform W).

(** X24. The book of a completed run, given to the application, is stored
    in front of the collection as a new book: it has the pages of the run,
    as many as were asked for, and its title is the theme, never the title
    of untitled books, since a run does not start on an empty theme.  The
    application then edits that book. *)
Theorem generated_book_is_stored (getApiKey : option string)
    (s : AIGeneratorState) (w : W) (t : string) (c : CoverData)
    (ps : list StoryPage) (st : AppState) (w2 : W) :
  In (onGenerate t c ps)
     (trace (snd (handleGenerate P getApiKey s (start w)))) ->
  exists st' w',
    handleAIGenerateComplete P st t c ps w2 = (Ok st', w') /\
    books st'
    = VObj [("id", VStr (pretty (fst (Date_now P w2))));
            ("title", VStr (theme s));
            ("coverData", CoverData_to_value c);
            ("pages", VArr (List.map StoryPage_to_value ps));
            ("createdAt", VNum (number_of_Z (fst (Date_now P w2))));
            ("updatedAt", VNum (number_of_Z (fst (Date_now P w2))))]
      :: books st /\
    length ps = pageCount s /\
    mode st' = edit /\
    is_editing st' = Some (pretty (fst (Date_now P w2))) /\
    title_ st' = theme s.
Proof.
  destruct (handleGenerate_run P getApiKey s w) as (evs & w' & Hrun & Htr).
  rewrite Hrun. cbn [snd trace]. intros Hin.
  destruct (run_trace_success s getApiKey evs t c ps Htr Hin)
    as (-> & Hlen & _).
  pose proof (run_trace_completed_theme s getApiKey evs _ c ps Htr Hin) as Ht.
  assert (Htitle : title_or_untitled (theme s) = theme s).
  { unfold title_or_untitled. destruct (theme s); [discriminate|reflexivity]. }
  unfold handleAIGenerateComplete, now_. cbv zeta. unfold bind at 1.
  destruct (Date_now P w2) as [now w3]. cbn [fst].
  destruct (saveBooks_ok P
              (newBook now (theme s) (CoverData_to_value c)
                 (List.map StoryPage_to_value ps) :: books st) w3)
    as [w4 Hsave].
  unfold bind at 1. rewrite Hsave. eexists _, w4.
  split; [reflexivity|]. cbn [books mode title_].
  split; [unfold newBook; rewrite Htitle; reflexivity|].
  split; [exact Hlen|]. split; [reflexivity|]. split; [|reflexivity].
  unfold is_editing. cbn [currentBookId].
  destruct (String.eqb (pretty now) "") eqn:E; [|reflexivity].
  apply String.eqb_eq in E. destruct (pretty_Z_nonempty now E).
Qed.

End StoredRun.

(* ===================================================================== *)
(** ** The further properties on concrete inputs *)
(* ===================================================================== *)

Lemma bookshelf_import_shape_witness :
  uploadBookshelf scripted
    (FileOf (JSONText (bookshelf_doc [Book_to_value book_x])))
    [Book_to_value book_y] replace world_z
  = (Ok {| bi_books := [Book_to_value book_x]; importedCount := 1 |}, world_z)
  /\ 1 <= 1.
Proof.
  split; [reflexivity|].
  exact (proj1 (bookshelf_import_shape scripted
                  (FileOf (JSONText (bookshelf_doc [Book_to_value book_x])))
                  [Book_to_value book_y] replace world_z world_z
                  {| bi_books := [Book_to_value book_x]; importedCount := 1 |}
                  eq_refl)).
Defined.

Lemma imports_keep_books_valid_witness :
  valid_collection [Book_to_value book_x] /\
  valid_collection
    [Book_to_value book_x;
     spread_with_id (Book_to_value book_x) "1700000003000k3v9"].
Proof.
  assert (Hv : valid_collection [Book_to_value book_x])
    by (repeat constructor).
  split; [exact Hv|].
  destruct (imports_keep_books_valid scripted
              (FileOf (JSONText (bookshelf_doc [Book_to_value book_x])))
              [Book_to_value book_x] world_z Hv) as [Hb _].
  exact (Hb merge
           {| bi_books :=
                [Book_to_value book_x;
                 spread_with_id (Book_to_value book_x) "1700000003000k3v9"];
              importedCount := 1 |} (script [] [] [] []) eq_refl).
Defined.

Lemma bookshelf_export_import_roundtrip_witness :
  [book_x] <> [] /\
  Forall (fun b => valid_Book b = true) [book_x] /\
  exists d,
    handleDownloadBookshelf scripted [Book_to_value book_x]
      "2023-11-14T22:13:23.000Z" world_z
    = (Ok (Some d), script [] ["k3v9"] [] []) /\
    uploadBookshelf scripted (file_of_download d) [Book_to_value book_y]
      replace world_y
    = (Ok {| bi_books := [Book_to_value book_x]; importedCount := 1 |},
       world_y).
Proof.
  assert (Hne : [book_x] <> []) by discriminate.
  assert (Hv : Forall (fun b => valid_Book b = true) [book_x])
    by (repeat constructor).
  split; [exact Hne|]. split; [exact Hv|].
  exact (proj2 (bookshelf_export_import_roundtrip scripted [book_x]
                  "2023-11-14T22:13:23.000Z" [Book_to_value book_y]
                  world_z world_y Hne Hv)).
Defined.

Lemma merging_own_backup_duplicates_witness :
  valid_collection [Book_to_value book_x] /\
  exists w',
    uploadBookshelf scripted
      (FileOf (JSONText (bookshelf_doc [Book_to_value book_x])))
      [Book_to_value book_x] merge world_z
    = (Ok {| bi_books :=
               [Book_to_value book_x;
                spread_with_id (Book_to_value book_x) "1700000003000k3v9"];
             importedCount := 1 |}, w').
Proof.
  assert (Hv : valid_collection [Book_to_value book_x])
    by (repeat constructor).
  split; [exact Hv|].
  exact (merging_own_backup_duplicates scripted
           (bookshelf_doc [Book_to_value book_x]) [Book_to_value book_x]
           world_z Hv ltac:(discriminate) eq_refl).
Defined.

Lemma deleting_a_book_witness :
  no_nullish (books app_editing) /\
  exists st' w',
    handleDeleteBook scripted app_editing "x" world_z = (Ok st', w') /\
    books st' = [Book_to_value book_y] /\
    currentBookId st' = Some "x".
Proof.
  assert (Hnn : no_nullish (books app_editing)) by (repeat constructor).
  split; [exact Hnn|].
  destruct (deleting_a_book scripted app_editing "x" world_z Hnn)
    as (st' & w' & Hrun & Hbooks & _ & _ & _ & Hcur).
  exists st', w'. split; [exact Hrun|]. split; [exact Hbooks|exact Hcur].
Defined.

Lemma saving_an_edit_witness :
  is_editing app_editing = Some "x" /\
  valid_collection (books app_editing) /\
  exists st' w',
    handleSaveBook scripted app_editing world_z = (Ok st', w') /\
    length (books st') = 2 /\
    book_ids (books st') = [VStr "x"; VStr "1700000000000i"].
Proof.
  assert (Hv : valid_collection (books app_editing)) by (repeat constructor).
  split; [reflexivity|]. split; [exact Hv|].
  destruct (saving_an_edit scripted app_editing "x" world_z eq_refl Hv)
    as (st' & w' & Hrun & _ & Hlen & Hids & _).
  exists st', w'. split; [exact Hrun|]. split; [exact Hlen|exact Hids].
Defined.

Lemma saving_twice_adds_one_book_witness :
  is_editing app_x = None /\
  valid_collection (books app_x) /\
  exists st1 w1 st2 w2,
    handleSaveBook scripted app_x world_clock2 = (Ok st1, w1) /\
    handleSaveBook scripted st1 w1 = (Ok st2, w2) /\
    length (books st1) = 2 /\ length (books st2) = 2.
Proof.
  assert (Hv : valid_collection (books app_x)) by (repeat constructor).
  assert (Hfresh : ~ In (VStr (pretty (fst (Date_now scripted world_clock2))))
                       (book_ids (books app_x))).
  { intros [H|[]]. vm_compute in H. discriminate. }
  split; [reflexivity|]. split; [exact Hv|].
  destruct (saving_twice_adds_one_book scripted app_x world_clock2
              eq_refl Hv Hfresh)
    as (st1 & w1 & st2 & w2 & H1 & H2 & Hb1 & Hb2).
  exists st1, w1, st2, w2. split; [exact H1|]. split; [exact H2|].
  rewrite Hb1, Hb2. split; reflexivity.
Defined.

Lemma opening_then_saving_witness :
  In (Book_to_value book_x) (books app_editing) /\
  valid_collection (books app_editing) /\
  unique_ids (books app_editing) /\
  exists st1 st2 w',
    handleOpenBook app_editing (Book_to_value book_x) = Some st1 /\
    handleSaveBook scripted st1 world_z = (Ok st2, w') /\
    currentBookId st2 = Some "x".
Proof.
  assert (Hin : In (Book_to_value book_x) (books app_editing))
    by (left; reflexivity).
  assert (Hv : valid_collection (books app_editing)) by (repeat constructor).
  assert (Hu : unique_ids (books app_editing)).
  { repeat constructor.
    - intros [H|[]]. discriminate.
    - intros []. }
  split; [exact Hin|]. split; [exact Hv|]. split; [exact Hu|].
  destruct (opening_then_saving scripted app_editing (Book_to_value book_x)
              world_z Hin Hv Hu)
    as (i & st1 & st2 & w' & Hid & Hopen & Hsave & Hsome & _).
  injection Hid as <-.
  exists st1, st2, w'. split; [exact Hopen|]. split; [exact Hsave|].
  apply Hsome. discriminate.
Defined.

Lemma books_stay_valid_witness :
  well_formed app_x /\
  exists y,
    app_steps scripted (app_x, world_z) y /\ well_formed (fst y).
Proof.
  assert (Hwf : well_formed app_x).
  { split; [repeat constructor|reflexivity]. }
  split; [exact Hwf|].
  assert (Hsteps : exists y, app_steps scripted (app_x, world_z) y).
  { destruct (handleSaveBook scripted (handleCreateNew app_x) world_z)
      as [[st'|e] w'] eqn:E.
    - exists (st', w'). eapply steps_more; [apply step_CreateNew|].
      eapply steps_more; [apply step_SaveBook; exact E|apply steps_none].
    - vm_compute in E. discriminate. }
  destruct Hsteps as [y Hy]. exists y. split; [exact Hy|].
  exact (books_stay_valid scripted (app_x, world_z) y Hy Hwf).
Defined.

Lemma deleting_an_added_page_witness :
  no_nullish (pages_ app_x) /\
  exists st1 st1',
    handleAddPage scripted app_x None (Finite 1) "Once" world_clock2
    = (Ok st1, snd (Date_now scripted world_clock2)) /\
    handleDeletePage st1 "1700000005000" (snd (Date_now scripted world_clock2))
    = (Ok st1', snd (Date_now scripted world_clock2)) /\
    pages_ st1' = [].
Proof.
  assert (Hnn : no_nullish (pages_ app_x)) by constructor.
  split; [exact Hnn|].
  destruct (deleting_an_added_page scripted app_x None (Some "data:,")
              (Finite 1) (Finite 1) "Once" "Twice" world_clock2 Hnn
              ltac:(intros []))
    as (st1 & st1' & _ & _ & Hadd & Hdel & Hpages & _).
  exists st1, st1'. split; [exact Hadd|]. split; [exact Hdel|exact Hpages].
Defined.

Lemma updating_a_page_witness :
  pages_ app_pages = List.map StoryPage_to_value (pages book_x) /\
  exists st',
    handleUpdatePage app_pages "p1" (PageUpdates_to_value text_update) world_z
    = (Ok st', world_z) /\
    pages_ st'
    = [StoryPage_to_value
         {| page_id := "p1";
            page_image := Some "data:image/png;base64,AAAA";
            page_imageScale := Finite (3 # 2); page_text := "Twice" |}].
Proof.
  split; [reflexivity|].
  destruct (updating_a_page app_pages (pages book_x) "p1" text_update world_z
              eq_refl) as (st' & Hrun & Hpages & _).
  exists st'. split; [exact Hrun|exact Hpages].
Defined.

Lemma generated_image_parses_back_witness :
  Forall (fun p => inlineData p = None) [ {| inlineData := None |} ] /\
  payload_of inline_jpeg <> "" /\
  match_data_url "data:image/jpeg;base64,QUJD" = Some ("image/jpeg", "QUJD").
Proof.
  assert (Hb : Forall (fun p => inlineData p = None) [ {| inlineData := None |} ])
    by (repeat constructor).
  assert (Hp : payload_of inline_jpeg <> "") by discriminate.
  split; [exact Hb|]. split; [exact Hp|].
  destruct (generated_image_parses_back scripted [ {| inlineData := None |} ] []
              inline_jpeg "key" "gemini-2.0-flash" world_z Hb Hp eq_refl eq_refl)
    as (url & _ & -> & Hm & _).
  exact Hm.
Defined.

Lemma book_comes_from_the_calls_witness :
  let tr := trace (snd (handleGenerate scripted (Some "key") generator1
                          (start world_empty_text))) in
  let p := newPage 11 1 (Some "data:image/jpeg;base64,QUJD") "" in
  In (onGenerate "rabbit"
        {| cover_image := Some "data:image/png;base64,REVG";
           cover_imageScale := Finite 1 |} [p]) tr /\
  Forall (fun p => page_imageScale p = Finite 1 /\
                   drawn_from tr (page_text p) (page_image p)) [p].
Proof.
  cbv zeta.
  assert (Hin : In (onGenerate "rabbit"
                      {| cover_image := Some "data:image/png;base64,REVG";
                         cover_imageScale := Finite 1 |}
                      [newPage 11 1 (Some "data:image/jpeg;base64,QUJD") ""])
                   (trace (snd (handleGenerate scripted (Some "key") generator1
                                  (start world_empty_text)))))
    by in_list.
  split; [exact Hin|].
  exact (proj1 (proj2 (proj2
           (book_comes_from_the_calls scripted (Some "key") generator1
              world_empty_text _ _ _ Hin)))).
Defined.

Lemma generated_page_ids_are_distinct_witness :
  let ps := [newPage 11 1 None "text 1"; newPage 12 2 None "text 2"] in
  pageCount generator2 <= 10 /\
  In (onGenerate "rabbit"
        {| cover_image := None; cover_imageScale := Finite 1 |} ps)
     (trace (snd (handleGenerate scripted (Some "key") generator2
                    (start world_no_images)))) /\
  List.NoDup (List.map page_id ps).
Proof.
  cbv zeta.
  assert (Hle : pageCount generator2 <= 10) by (vm_compute; lia).
  assert (Hin : In (onGenerate "rabbit"
                      {| cover_image := None; cover_imageScale := Finite 1 |}
                      [newPage 11 1 None "text 1"; newPage 12 2 None "text 2"])
                   (trace (snd (handleGenerate scripted (Some "key") generator2
                                  (start world_no_images)))))
    by in_list.
  split; [exact Hle|]. split; [exact Hin|].
  exact (proj1 (generated_page_ids_are_distinct scripted (Some "key")
                  generator2 world_no_images _ _ _ Hle Hin)).
Defined.

Lemma generated_book_is_stored_witness :
  let ps := [newPage 11 1 None "text 1"; newPage 12 2 None "text 2"] in
  let cover := {| cover_image := None; cover_imageScale := Finite 1 |} in
  In (onGenerate "rabbit" cover ps)
     (trace (snd (handleGenerate scripted (Some "key") generator2
                    (start world_no_images)))) /\
  exists st' w',
    handleAIGenerateComplete scripted app_x "rabbit" cover ps world_z
    = (Ok st', w') /\
    length (books st') = 2 /\ title_ st' = "rabbit".
Proof.
  cbv zeta.
  assert (Hin : In (onGenerate "rabbit"
                      {| cover_image := None; cover_imageScale := Finite 1 |}
                      [newPage 11 1 None "text 1"; newPage 12 2 None "text 2"])
                   (trace (snd (handleGenerate scripted (Some "key") generator2
                                  (start world_no_images)))))
    by in_list.
  split; [exact Hin|].
  destruct (generated_book_is_stored scripted (Some "key") generator2
              world_no_images _ _ _ app_x world_z Hin)
    as (st' & w' & Hrun & Hbooks & _ & _ & _ & Htitle).
  exists st', w'. split; [exact Hrun|].
  rewrite Hbooks. split; [reflexivity|exact Htitle].
Defined.
